(** * delta_bot: a shallow embedding of the market-making core

    The parts of the Python package [delta_bot] that the properties below are
    about are embedded function by function: the configuration constants, the
    domain model, the exposure, PnL and drawdown functions of [risk], the
    ladders and inventory skew of [quote_engine], the fill accounting, the
    fair value, mispricing, volatility and size scales of [Strategy] with the
    risk scaling of its loop and the quotes of one pass, the order entry and fill
    dispatch of [ExchangeClient], and the reconciliation, rate limiter and
    [cancel_all] of [OrderLadderManager].  Python [float]s are modelled as
    exact rationals ([Q], compared with [==]), Python [int]s as [Z], [dict]s
    keyed by symbol as [gmap string _], and the insertion-ordered per-side
    level dictionaries of the ladder manager as association lists.  IEEE-754
    rounding is not modelled there; where a property turns on the last place
    of a value, the function is given a second time over binary64
    ([doubles]).  The gateway of [exchange_sdk] is outside the package: it is
    a script of answers, one per request. *)

From Stdlib Require Import QArith Qminmax Qabs Qround Lqa Lia ZArith List.
From Stdlib Require PrimFloat.
From stdpp Require Import gmap strings.

Local Open Scope Q_scope.

(* ===================================================================== *)
(** * Part I: the embedding *)

(** ** Python primitives *)

Module Py.

(** [a < b] on floats. *)
Definition Qltb (a b : Q) : bool := negb (Qle_bool b a).

(** [int(x)] on a float: truncation toward zero. *)
Definition int (x : Q) : Z := Z.quot (Qnum x) (Zpos (Qden x)).

(** [round(x)] on a float: nearest integer, ties to the even one. *)
Definition round (x : Q) : Z :=
  let f := Qfloor x in
  match Qcompare (x - inject_Z f) (1 # 2) with
  | Lt => f
  | Gt => (f + 1)%Z
  | Eq => if Z.even f then f else (f + 1)%Z
  end.

(** Truthiness of a float: [x] is falsy exactly when it is zero. *)
Definition truthy (x : Q) : bool := negb (Qeq_bool x 0).

(** [range(n)]. *)
Definition range (n : Z) : list Z := map Z.of_nat (seq 0 (Z.to_nat n)).

(** The exceptions the embedded code can raise.  [Diverged] is not a Python
    exception: it marks a [while True] loop that used up the iterations the
    model grants it, and is shown never to occur. *)
Inductive exn := KeyError | GatewayError | Diverged.

Inductive result (A : Type) :=
| Ok (a : A)
| Raise (e : exn).
Arguments Ok {A} a.
Arguments Raise {A} e.

(** Code that mutates a state [S] and may raise: the state reached is
    returned also when an exception propagates. *)
Definition M (S A : Type) : Type := S -> S * result A.

Definition ret {S A} (a : A) : M S A := fun s => (s, Ok a).

Definition raise {S A} (e : exn) : M S A := fun s => (s, Raise e).

Definition bind {S A B} (m : M S A) (k : A -> M S B) : M S B :=
  fun s =>
    match m s with
    | (s', Ok a) => k a s'
    | (s', Raise e) => (s', Raise e)
    end.

(** [for x in l: body(x)] *)
Fixpoint for_each {S A} (body : A -> M S unit) (l : list A) : M S unit :=
  match l with
  | [] => ret tt
  | x :: rest => bind (body x) (fun _ => for_each body rest)
  end.

(** Insertion-ordered [dict] with integer keys. *)
Definition odict (V : Type) := list (Z * V).

Fixpoint od_get {V} (k : Z) (d : odict V) : option V :=
  match d with
  | [] => None
  | (k', v) :: d' => if (k' =? k)%Z then Some v else od_get k d'
  end.

(** [d[k] = v]: an existing key keeps its place, a new key goes last. *)
Fixpoint od_set {V} (k : Z) (v : V) (d : odict V) : odict V :=
  match d with
  | [] => [(k, v)]
  | (k', v') :: d' =>
      if (k' =? k)%Z then (k, v) :: d' else (k', v') :: od_set k v d'
  end.

(** [del d[k]]. *)
Definition od_del {V} (k : Z) (d : odict V) : odict V :=
  List.filter (fun kv => negb (fst kv =? k)%Z) d.

End Py.

(* ===================================================================== *)
(** ** config.py *)

Module config.

Record SymbolConfig := {
  symbol : string;
  base_size : Z;
  size_multiplier : Q;
  base_spread_bps : Z;
  level_spread_step_bps : Z;
  max_levels : Z
}.

Record RiskLimits := {
  max_position : Z;
  max_dollar_exposure : Q;
  drawdown_stop_pct : Q;
  hard_stop_pct : Q
}.

Definition ETF_SYMBOL : string := "ETF".
Definition BASKET_SYMBOLS : list string := ["XYZ"; "ABC"; "DEF"]%string.
Definition ALL_SYMBOLS : list string := ETF_SYMBOL :: BASKET_SYMBOLS.
Definition SYNTHETIC_WEIGHTS : gmap string Q :=
  <["XYZ"%string := 0.5]> (<["ABC"%string := 0.3]> (<["DEF"%string := 0.2]> ∅)).

Definition MIN_MOVE_TO_REFRESH_BPS : Q := 2.
Definition MAX_ACTIONS_PER_SECOND : Z := 95.

Definition MAKER_REBATE_BPS : Q := 2.
Definition TAKER_FEE_BPS : Q := 5.
Definition EFFECTIVE_MAKER_EDGE_BPS : Q := MAKER_REBATE_BPS + TAKER_FEE_BPS.

Definition default_symbol_config (s : string) : SymbolConfig :=
  {| symbol := s; base_size := 400; size_multiplier := 1.5;
     base_spread_bps := 15; level_spread_step_bps := 15; max_levels := 6 |}.

Definition DEFAULT_SYMBOL_CONFIG : gmap string SymbolConfig :=
  list_to_map (map (fun s => (s, default_symbol_config s)) ALL_SYMBOLS).

Definition RISK_LIMITS : RiskLimits :=
  {| max_position := 25000; max_dollar_exposure := 5000000;
     drawdown_stop_pct := 0.15; hard_stop_pct := 0.25 |}.

Definition SYMBOL_IDS : gmap string Z :=
  <["XYZ"%string := 1%Z]> (<["ETF"%string := 2%Z]>
    (<["ABC"%string := 3%Z]> (<["DEF"%string := 4%Z]> ∅))).
Definition ORDER_PRICE_SCALE : Z := 100.

Definition MISPRICING_INTENSITY_BPS : Q := 40.
Definition MISPRICING_SIZE_BONUS : Q := 0.8.
Definition MISPRICING_SIZE_PENALTY : Q := 0.5.
Definition MISPRICING_SPREAD_WIDEN : Q := 0.25.

Definition DRAWDOWN_SPREAD_MULT : Q := 1.5.
Definition DRAWDOWN_SIZE_REDUCTION : Q := 0.7.

(** [SYNTHETIC_WEIGHTS.items()]: the dictionary lists the basket symbols in
    the order of [BASKET_SYMBOLS]. *)
Definition SYNTHETIC_WEIGHTS_items : list (string * Q) :=
  omap (fun symbol => (fun weight => (symbol, weight)) <$> SYNTHETIC_WEIGHTS !! symbol)
       BASKET_SYMBOLS.

Definition TARGET_NOTIONAL_UTILIZATION : Q := 0.8.
Definition NOTIONAL_CAPITAL : Q := 1000000.
Definition TARGET_RESTING_NOTIONAL : Q := NOTIONAL_CAPITAL * TARGET_NOTIONAL_UTILIZATION.


Definition INVENTORY_SKEW_BPS : Z := 8.
Definition INVENTORY_PRIORITY_WEIGHT : Q := 120.

(** [{value: key for key, value in SYMBOL_IDS.items()}] *)
Definition ID_TO_SYMBOL : gmap Z string :=
  list_to_map (map (fun kv => (snd kv, fst kv)) (map_to_list SYMBOL_IDS)).

End config.

(* ===================================================================== *)
(** ** models.py *)

Inductive Side := BID | ASK.

Definition opposite (s : Side) : Side :=
  match s with BID => ASK | ASK => BID end.

Module OrderLevel.
Record t := {
  symbol : string;
  side : Side;
  level_index : Z;
  price : Q;
  size : Z
}.
End OrderLevel.

(** [OrderInfo] extends [OrderLevel] with the broker's order id.  The id is
    [str(n)] for the integer [n] the gateway returned and is only ever read
    back through [int(...)], so it is kept as that integer.  The [timestamp]
    attribute (wall clock at creation) is never read and is left out. *)
Module OrderInfo.
Record t := {
  level : OrderLevel.t;
  order_id : Z
}.
Definition price (i : t) : Q := OrderLevel.price (level i).
Definition size (i : t) : Z := OrderLevel.size (level i).
End OrderInfo.

Module PositionState.
Record t := {
  symbol : string;
  position : Z;
  vwap : Q
}.
End PositionState.

Module PnLState.
Record t := {
  realized : Q;
  unrealized : Q;
  equity_high_watermark : Q
}.

Definition update_high_watermark (self : t) : t :=
  {| realized := realized self;
     unrealized := unrealized self;
     equity_high_watermark :=
       Qmax (equity_high_watermark self) (realized self + unrealized self) |}.
End PnLState.

Module MarketLevel.
Record t := {
  price : Q;
  size : Z
}.
End MarketLevel.

Module OrderBook.
Record t := {
  bids : list MarketLevel.t;
  asks : list MarketLevel.t
}.

(** The [mid] property: [None] when a side of the book is empty. *)
Definition mid (self : t) : option Q :=
  match bids self, asks self with
  | b :: _, a :: _ => Some ((MarketLevel.price b + MarketLevel.price a) / 2)
  | _, _ => None
  end.
End OrderBook.

Module MarketSnapshot.
Record t := {
  symbol : string;
  order_book : OrderBook.t;
  timestamp : Q
}.
End MarketSnapshot.

(* ===================================================================== *)
(** ** risk.py *)

Module risk.

(** [drawdown_adjustments(drawdown_pct) -> (spread_scale, size_scale, throttled)] *)
Definition drawdown_adjustments (drawdown_pct : Q) : Q * Q * bool :=
  let limits := config.RISK_LIMITS in
  if Qle_bool (config.hard_stop_pct limits) drawdown_pct then (2, 0, true)
  else if Qle_bool drawdown_pct (config.drawdown_stop_pct limits) then (1, 1, false)
  else
    let severity :=
      (drawdown_pct - config.drawdown_stop_pct limits)
      / (config.hard_stop_pct limits - config.drawdown_stop_pct limits) in
    let severity := Qmax 0 (Qmin 1 severity) in
    let curved := severity * severity in
    let spread_scale := 1 + curved * config.DRAWDOWN_SPREAD_MULT in
    let size_scale := Qmax 0.2 (1 - curved * config.DRAWDOWN_SIZE_REDUCTION) in
    (spread_scale, size_scale, false).

(** The three components of the returned tuple. *)
Definition spread_scale_of (r : Q * Q * bool) : Q := fst (fst r).
Definition size_scale_of (r : Q * Q * bool) : Q := snd (fst r).
Definition throttled_of (r : Q * Q * bool) : bool := snd r.

(** The loop of [compute_dollar_exposure] over [positions.items()], given as
    the list [items]. *)
Definition exposure_over (items : list (string * PositionState.t)) (mid_map : gmap string Q)
    : Q :=
  fold_left
    (fun exposure item =>
       match mid_map !! fst item with
       | None => exposure
       | Some mid => exposure + Qabs (inject_Z (PositionState.position (snd item)) * mid)
       end)
    items 0.

(** The loop of [update_unrealized_pnl] over [positions.items()]. *)
Definition unrealized_over (items : list (string * PositionState.t)) (mid_map : gmap string Q)
    : Q :=
  fold_left
    (fun unrealized item =>
       match mid_map !! fst item with
       | None => unrealized
       | Some mid =>
           unrealized
           + inject_Z (PositionState.position (snd item))
             * (mid - PositionState.vwap (snd item))
       end)
    items 0.

(** A [gmap] does not record the order in which the dictionary lists its
    items; the two sums are taken in the map's own order, and do not depend
    on the order up to [==]. *)
Definition compute_dollar_exposure (positions : gmap string PositionState.t)
    (mid_map : gmap string Q) : Q :=
  exposure_over (map_to_list positions) mid_map.

Definition update_unrealized_pnl (pnl : PnLState.t) (positions : gmap string PositionState.t)
    (mid_map : gmap string Q) : PnLState.t :=
  let unrealized := unrealized_over (map_to_list positions) mid_map in
  PnLState.update_high_watermark
    {| PnLState.realized := PnLState.realized pnl;
       PnLState.unrealized := unrealized;
       PnLState.equity_high_watermark := PnLState.equity_high_watermark pnl |}.

Definition compute_drawdown_pct (pnl : PnLState.t) : Q :=
  let equity := PnLState.realized pnl + PnLState.unrealized pnl in
  if Qle_bool (PnLState.equity_high_watermark pnl) 0 then 0
  else
    let drop := PnLState.equity_high_watermark pnl - equity in
    if Qle_bool drop 0 then 0
    else drop / PnLState.equity_high_watermark pnl.

End risk.

(** ** risk.py in binary64

    [drawdown_adjustments] once more, operation by operation on IEEE doubles
    (the kernel's primitive floats, rounding to nearest): the decimal
    constants are the doubles Python reads them as. *)

Module doubles.
Import PrimFloat.
Local Set Warnings "-inexact-float".

(** [max(a, b)] and [min(a, b)] on floats: the first argument unless the
    second is strictly larger (smaller). *)
Definition max (a b : float) : float := if ltb a b then b else a.
Definition min (a b : float) : float := if ltb b a then b else a.

Definition hard_stop_pct : float := 0.25%float.
Definition drawdown_stop_pct : float := 0.15%float.
Definition DRAWDOWN_SPREAD_MULT : float := 1.5%float.
Definition DRAWDOWN_SIZE_REDUCTION : float := 0.7%float.

Definition drawdown_adjustments (drawdown_pct : float) : float * float * bool :=
  if leb hard_stop_pct drawdown_pct then (2%float, 0%float, true)
  else if leb drawdown_pct drawdown_stop_pct then (1%float, 1%float, false)
  else
    let severity :=
      ((drawdown_pct - drawdown_stop_pct) / (hard_stop_pct - drawdown_stop_pct))%float in
    let severity := max 0%float (min 1%float severity) in
    let curved := (severity * severity)%float in
    let spread_scale := (1 + curved * DRAWDOWN_SPREAD_MULT)%float in
    let size_scale := max 0.2%float (1 - curved * DRAWDOWN_SIZE_REDUCTION)%float in
    (spread_scale, size_scale, false).

End doubles.

(* ===================================================================== *)
(** ** quote_engine.py *)

Module QuoteContext.
Record t := {
  fair_value : Q;
  volatility_bps : Q;
  inventory_skew_bps : Z;
  spread_scale : Q;
  size_scale : Q;
  bid_size_scale : Q;
  ask_size_scale : Q
}.
End QuoteContext.

Module quote_engine.

Definition _price_from_bps (mid bps : Q) (side : Side) : Q :=
  let effective_bps := Qmax 1 bps in
  let delta := mid * (effective_bps / 10000) in
  match side with
  | BID => Qmax 0.01 (mid - delta)
  | ASK => mid + delta
  end.

(** The first statement of [build_ladders]:
    [mid = ctx.fair_value or snapshot.order_book.mid]. *)
Definition ladder_mid (snapshot : MarketSnapshot.t) (ctx : QuoteContext.t) : option Q :=
  if Py.truthy (QuoteContext.fair_value ctx)
  then Some (QuoteContext.fair_value ctx)
  else OrderBook.mid (MarketSnapshot.order_book snapshot).

(** The [for level_index in range(max_levels)] loop of [build_ladders], with
    the loop-carried [current_size] and the two lists being appended to. *)
Fixpoint ladder_loop (snapshot : MarketSnapshot.t) (ctx : QuoteContext.t)
    (symbol_config : config.SymbolConfig) (mid base_spread level_step maker_edge : Q)
    (indexes : list Z) (current_size : Z) (bids asks : list OrderLevel.t)
    : list OrderLevel.t * list OrderLevel.t :=
  match indexes with
  | [] => (bids, asks)
  | level_index :: rest =>
      let offset_bps := base_spread + inject_Z level_index * level_step in
      let base_size :=
        Z.max 1 (Py.int (inject_Z current_size * QuoteContext.size_scale ctx)) in
      let bid_size :=
        Z.max 1 (Py.int (inject_Z base_size * QuoteContext.bid_size_scale ctx)) in
      let ask_size :=
        Z.max 1 (Py.int (inject_Z base_size * QuoteContext.ask_size_scale ctx)) in
      let bid_bps :=
        offset_bps + inject_Z (Z.max (QuoteContext.inventory_skew_bps ctx) 0) in
      let ask_bps :=
        offset_bps + inject_Z (Z.max (- QuoteContext.inventory_skew_bps ctx) 0) in
      let bid_price := _price_from_bps mid (bid_bps - maker_edge) BID in
      let ask_price := _price_from_bps mid (ask_bps - maker_edge) ASK in
      let bid :=
        {| OrderLevel.symbol := MarketSnapshot.symbol snapshot;
           OrderLevel.side := BID;
           OrderLevel.level_index := level_index;
           OrderLevel.price := bid_price;
           OrderLevel.size := bid_size |} in
      let ask :=
        {| OrderLevel.symbol := MarketSnapshot.symbol snapshot;
           OrderLevel.side := ASK;
           OrderLevel.level_index := level_index;
           OrderLevel.price := ask_price;
           OrderLevel.size := ask_size |} in
      let current_size :=
        Z.max 1 (Py.int (inject_Z current_size * config.size_multiplier symbol_config)) in
      ladder_loop snapshot ctx symbol_config mid base_spread level_step maker_edge
        rest current_size (bids ++ [bid]) (asks ++ [ask])
  end.

(** Everything [build_ladders] does once [mid] is known to be positive. *)
Definition ladders_around (mid : Q) (snapshot : MarketSnapshot.t) (ctx : QuoteContext.t)
    (symbol_config : config.SymbolConfig) : list OrderLevel.t * list OrderLevel.t :=
  let base_spread :=
    inject_Z (config.base_spread_bps symbol_config) * QuoteContext.spread_scale ctx
    + QuoteContext.volatility_bps ctx in
  let level_step :=
    inject_Z (config.level_spread_step_bps symbol_config) * QuoteContext.spread_scale ctx in
  let size_seed := Z.max 1 (config.base_size symbol_config) in
  let maker_edge := config.EFFECTIVE_MAKER_EDGE_BPS / 2 in
  ladder_loop snapshot ctx symbol_config mid base_spread level_step maker_edge
    (Py.range (config.max_levels symbol_config)) size_seed [] [].

Definition build_ladders (snapshot : MarketSnapshot.t) (ctx : QuoteContext.t)
    (symbol_config : config.SymbolConfig) : list OrderLevel.t * list OrderLevel.t :=
  match ladder_mid snapshot ctx with
  | None => ([], [])
  | Some mid =>
      if Qle_bool mid 0 then ([], [])
      else ladders_around mid snapshot ctx symbol_config
  end.

Definition compute_inventory_skew (position limit : Z) : Z :=
  if (limit =? 0)%Z then 0%Z
  else
    let ratio := Qmax (-1) (Qmin 1 (inject_Z position / inject_Z limit)) in
    Py.int (inject_Z config.INVENTORY_SKEW_BPS * ratio).

(** [sum(level.price * level.size for level in levels)] *)
Definition estimate_notional (levels : list OrderLevel.t) : Q :=
  fold_left
    (fun total level => total + OrderLevel.price level * inject_Z (OrderLevel.size level))
    levels 0.

End quote_engine.

(* ===================================================================== *)
(** ** strategy.py *)

Module Strategy.

(** The attributes of [Strategy] that fill accounting reads and writes. *)
Record t := {
  positions : gmap string PositionState.t;
  pnl : PnLState.t
}.

(** [Strategy.__init__]: every symbol flat, all PnL figures zero. *)
Definition init : t :=
  {| positions :=
       list_to_map
         (map (fun symbol =>
                 (symbol, {| PositionState.symbol := symbol;
                             PositionState.position := 0;
                             PositionState.vwap := 0 |}))
              config.ALL_SYMBOLS);
     pnl := {| PnLState.realized := 0; PnLState.unrealized := 0;
               PnLState.equity_high_watermark := 0 |} |}.

(** [register_fill(symbol, side, size, price)].  [None] is the [KeyError] of
    [self.positions[symbol]]; the position object is mutated in place, which
    is the update of the dictionary entry under the same key. *)
Definition register_fill (self : t) (symbol : string) (side : Side) (size : Z) (price : Q)
    : option t :=
  match positions self !! symbol with
  | None => None
  | Some state =>
      let signed_qty := match side with BID => size | ASK => (- size)%Z end in
      let pre_position := PositionState.position state in
      let vwap := PositionState.vwap state in
      let realized := PnLState.realized (pnl self) in
      let realized :=
        if (0 <? pre_position)%Z && (signed_qty <? 0)%Z then
          let closing := Z.min pre_position (Z.abs signed_qty) in
          realized + inject_Z closing * (price - vwap)
        else if (pre_position <? 0)%Z && (0 <? signed_qty)%Z then
          let closing := Z.min (Z.abs pre_position) signed_qty in
          realized + inject_Z closing * (vwap - price)
        else realized in
      let new_position := (pre_position + signed_qty)%Z in
      let vwap :=
        if (pre_position =? 0)%Z
           || ((0 <? pre_position)%Z && (0 <? signed_qty)%Z)
           || ((pre_position <? 0)%Z && (signed_qty <? 0)%Z)
        then
          let total_size := (Z.abs pre_position + Z.abs signed_qty)%Z in
          if (0 <? total_size)%Z then
            (vwap * inject_Z (Z.abs pre_position) + price * inject_Z (Z.abs signed_qty))
            / inject_Z total_size
          else vwap
        else
          let residual := new_position in
          if (residual =? 0)%Z then price
          else if ((0 <? residual)%Z && (0 <? signed_qty)%Z)
                  || ((residual <? 0)%Z && (signed_qty <? 0)%Z)
          then price
          else vwap in
      Some
        {| positions :=
             <[symbol := {| PositionState.symbol := PositionState.symbol state;
                            PositionState.position := new_position;
                            PositionState.vwap := vwap |}]> (positions self);
           pnl := {| PnLState.realized := realized;
                     PnLState.unrealized := PnLState.unrealized (pnl self);
                     PnLState.equity_high_watermark :=
                       PnLState.equity_high_watermark (pnl self) |} |}
  end.

(** A fill event as the gateway delivers it to the handler. *)
Record Fill := {
  fill_symbol : string;
  fill_side : Side;
  fill_size : Z;
  fill_price : Q
}.

(** Folding a sequence of fills through [register_fill], oldest first. *)
Fixpoint replay (self : t) (fills : list Fill) : option t :=
  match fills with
  | [] => Some self
  | f :: rest =>
      match register_fill self (fill_symbol f) (fill_side f) (fill_size f) (fill_price f) with
      | None => None
      | Some self' => replay self' rest
      end
  end.

(** [weight = 1.0 if symbol == ETF_SYMBOL else SYNTHETIC_WEIGHTS.get(symbol, 0.0)] *)
Definition symbol_weight (symbol : string) : Q :=
  if decide (symbol = config.ETF_SYMBOL) then 1
  else default 0 (config.SYNTHETIC_WEIGHTS !! symbol).

Definition _mispricing_intensity (etf_mispricing_bps weight : Q) : Q :=
  if Qle_bool weight 0 then 0
  else
    let base :=
      Qmin (Qabs etf_mispricing_bps / Qmax 1 config.MISPRICING_INTENSITY_BPS) 1 in
    Qmax 0 (Qmin 1 (base * weight)).

Definition _spread_scale_adjust (symbol : string) (etf_mispricing_bps : Q) : Q :=
  let weight := symbol_weight symbol in
  let intensity := _mispricing_intensity etf_mispricing_bps weight in
  1 + intensity * config.MISPRICING_SPREAD_WIDEN.

(** [_side_size_scales(symbol, etf_mispricing_bps) -> (bid_scale, ask_scale)] *)
Definition _side_size_scales (symbol : string) (etf_mispricing_bps : Q) : Q * Q :=
  let weight := symbol_weight symbol in
  if Qeq_bool etf_mispricing_bps 0 || Qle_bool weight 0 then (1, 1)
  else
    let intensity := _mispricing_intensity etf_mispricing_bps weight in
    let bonus := 1 + intensity * config.MISPRICING_SIZE_BONUS in
    let penalty := Qmax 0.5 (1 - intensity * config.MISPRICING_SIZE_PENALTY) in
    if decide (symbol = config.ETF_SYMBOL) then
      if Py.Qltb 0 etf_mispricing_bps then (penalty, bonus) else (bonus, penalty)
    else
      if Py.Qltb 0 etf_mispricing_bps then (bonus, penalty) else (penalty, bonus).

(** [_mid_map]: the mids of the snapshots in [self.market] that have one. *)
Definition _mid_map (market : gmap string MarketSnapshot.t) : gmap string Q :=
  omap (fun snapshot => OrderBook.mid (MarketSnapshot.order_book snapshot)) market.

Definition _compute_synthetic_fair (mid_map : gmap string Q) : option Q :=
  let sums :=
    fold_left
      (fun sums item =>
         match mid_map !! fst item with
         | None => sums
         | Some mid => (fst sums + snd item * mid, snd sums + snd item)
         end)
      config.SYNTHETIC_WEIGHTS_items (0, 0) in
  let total := fst sums in
  let weight_sum := snd sums in
  if Qeq_bool weight_sum 0 then mid_map !! config.ETF_SYMBOL else Some total.

Definition _compute_mispricing_bps (mid_map : gmap string Q) (synthetic_fair : option Q) : Q :=
  match synthetic_fair with
  | None => 0
  | Some synthetic_fair =>
      if Qle_bool synthetic_fair 0 then 0
      else
        match mid_map !! config.ETF_SYMBOL with
        | None => 0
        | Some etf_mid =>
            if Qle_bool etf_mid 0 then 0
            else (etf_mid - synthetic_fair) / synthetic_fair * 10000
        end
  end.

(** [_symbol_priority]; [None] is the [KeyError] of [self.positions[symbol]]. *)
Definition _symbol_priority (self : t) (symbol : string) (etf_mispricing_bps : Q)
    : option Q :=
  let mispricing_component := Qabs etf_mispricing_bps in
  let mispricing_component :=
    if decide (symbol = config.ETF_SYMBOL) then mispricing_component
    else mispricing_component * default 0 (config.SYNTHETIC_WEIGHTS !! symbol) in
  match positions self !! symbol with
  | None => None
  | Some state =>
      let inventory_ratio :=
        inject_Z (Z.abs (PositionState.position state))
        / inject_Z (Z.max 1 (config.max_position config.RISK_LIMITS)) in
      let priority :=
        mispricing_component + inventory_ratio * config.INVENTORY_PRIORITY_WEIGHT in
      Some (if decide (symbol = config.ETF_SYMBOL) then priority + 10 else priority)
  end.

Definition _exposure_size_scale (exposure : Q) : Q :=
  let limit := config.max_dollar_exposure config.RISK_LIMITS in
  if Qle_bool exposure 0 || Qle_bool exposure limit then 1
  else
    let scale := limit / exposure in
    Qmax 0.25 (Qmin 1 scale).

(** The inner loop of [_resting_notional_scale]: the sizes of [levels]
    ladder levels added to [size_sum], from [size] on. *)
Fixpoint ladder_size_sum (levels : nat) (size : Z) (size_multiplier size_sum : Q) : Q :=
  match levels with
  | O => size_sum
  | S levels =>
      ladder_size_sum levels (Z.max 1 (Py.int (inject_Z size * size_multiplier)))
        size_multiplier (size_sum + inject_Z size)
  end.

(** The outer loop of [_resting_notional_scale] over
    [self.symbol_configs.items()]. *)
Definition resting_base_over (items : list (string * config.SymbolConfig))
    (mid_map : gmap string Q) : Q :=
  fold_left
    (fun base item =>
       match mid_map !! fst item with
       | None => base
       | Some mid =>
           let cfg := snd item in
           base + 2 * mid * ladder_size_sum (Z.to_nat (config.max_levels cfg))
                              (config.base_size cfg) (config.size_multiplier cfg) 0
       end)
    items 0.

(** [self.symbol_configs] is a parameter: [Strategy.__init__] sets it to
    [config.DEFAULT_SYMBOL_CONFIG]. *)
Definition _resting_notional_scale (symbol_configs : gmap string config.SymbolConfig)
    (mid_map : gmap string Q) : Q :=
  let base := resting_base_over (map_to_list symbol_configs) mid_map in
  if Qle_bool base 0 then 1
  else
    let ratio := config.TARGET_RESTING_NOTIONAL / base in
    Qmax 0.5 (Qmin 3 ratio).



(** One pass of [run] from [risk.update_unrealized_pnl] to the test
    [throttled or size_scale == 0.0]: the PnL state as updated, the spread
    and size scales handed to [_quote_all], and whether the pass calls
    [cancel_all] instead of quoting. *)
Definition run_risk_scales (self : t) (symbol_configs : gmap string config.SymbolConfig)
    (mid_map : gmap string Q) : PnLState.t * (Q * Q * bool) :=
  let pnl := risk.update_unrealized_pnl (pnl self) (positions self) mid_map in
  let drawdown_pct := risk.compute_drawdown_pct pnl in
  let '(spread_scale, size_scale, throttled) := risk.drawdown_adjustments drawdown_pct in
  let exposure := risk.compute_dollar_exposure (positions self) mid_map in
  let size_scale := size_scale * _exposure_size_scale exposure in
  let size_scale := size_scale * _resting_notional_scale symbol_configs mid_map in
  (pnl, (spread_scale, size_scale, throttled || Qeq_bool size_scale 0)).


End Strategy.

(* ===================================================================== *)
(** ** exchange.py *)

Declare Scope py_scope.
Delimit Scope py_scope with py.
Notation "'let*' x ':=' m 'in' k" := (Py.bind m (fun x => k))
  (at level 10, x name, m at level 100, k at level 200) : py_scope.
Notation "m ;; k" := (Py.bind m (fun _ => k))
  (at level 100, k at level 200, right associativity) : py_scope.

Module ExchangeClient.
Import Py.

(** What the gateway is asked to do ([send_new_async], [cancel_order_async]). *)
Inductive Request :=
| NewOrder (client_id symbol_id side price_ticks quantity : Z)
| CancelOrder (client_id order_id symbol_id : Z).

(** How the gateway answers a request: with the id it gave a new order
    (a cancel ignores the number), or with an error raised to the caller. *)
Inductive Reply :=
| Accepted (order_id : Z)
| Rejected.

(** The client's own attributes, with the gateway it talks to: the requests
    sent so far (oldest first) and the answers still to come. *)
Record t := {
  _client_ids : Z;
  _order_client_map : gmap Z Z;
  _order_symbol_map : gmap Z Z;
  sent : list Request;
  replies : list Reply
}.

Definition init (replies : list Reply) : t :=
  {| _client_ids := 1; _order_client_map := ∅; _order_symbol_map := ∅;
     sent := []; replies := replies |}.

(** One round trip to the gateway.  A gateway with no answer left has closed
    the connection, which raises as well. *)
Definition gateway_call (request : Request) : M t Z :=
  fun self =>
    let self' rest :=
      {| _client_ids := _client_ids self;
         _order_client_map := _order_client_map self;
         _order_symbol_map := _order_symbol_map self;
         sent := sent self ++ [request];
         replies := rest |} in
    match replies self with
    | Accepted order_id :: rest => (self' rest, Ok order_id)
    | Rejected :: rest => (self' rest, Raise GatewayError)
    | [] => (self' [], Raise GatewayError)
    end.

(** [next(self._client_ids)] *)
Definition next_client_id : M t Z :=
  fun self =>
    ({| _client_ids := (_client_ids self + 1)%Z;
        _order_client_map := _order_client_map self;
        _order_symbol_map := _order_symbol_map self;
        sent := sent self;
        replies := replies self |},
     Ok (_client_ids self)).

Definition with_maps (clients symbols : gmap Z Z) (self : t) : t :=
  {| _client_ids := _client_ids self;
     _order_client_map := clients;
     _order_symbol_map := symbols;
     sent := sent self;
     replies := replies self |}.

(** [self._order_client_map[order_id] = client_id] and
    [self._order_symbol_map[order_id] = symbol_id] *)
Definition remember_order (order_id client_id symbol_id : Z) : M t unit :=
  fun self =>
    (with_maps (<[order_id := client_id]> (_order_client_map self))
               (<[order_id := symbol_id]> (_order_symbol_map self)) self,
     Ok tt).

(** [self._order_client_map.pop(order_int, None)] and the same on
    [self._order_symbol_map] *)
Definition forget_order (order_int : Z) : M t unit :=
  fun self =>
    (with_maps (delete order_int (_order_client_map self))
               (delete order_int (_order_symbol_map self)) self,
     Ok tt).

Definition _price_to_ticks (price : Q) : Z :=
  Py.round (price * inject_Z config.ORDER_PRICE_SCALE).

Definition place_order (level : OrderLevel.t) : M t OrderInfo.t :=
  (let* client_id := next_client_id in
   match config.SYMBOL_IDS !! OrderLevel.symbol level with
   | None => raise KeyError
   | Some symbol_id =>
       let price_ticks := _price_to_ticks (OrderLevel.price level) in
       let side := match OrderLevel.side level with BID => 0%Z | ASK => 1%Z end in
       let* order_id :=
         gateway_call
           (NewOrder client_id symbol_id side price_ticks (OrderLevel.size level)) in
       remember_order order_id client_id symbol_id ;;
       ret {| OrderInfo.level := level; OrderInfo.order_id := order_id |}
   end)%py.

Definition cancel_order (order_id : Z) : M t unit :=
  fun self =>
    let order_int := order_id in
    let client_id := default order_int (_order_client_map self !! order_int) in
    let symbol_id :=
      default (default 0%Z (config.SYMBOL_IDS !! config.ETF_SYMBOL))
              (_order_symbol_map self !! order_int) in
    (gateway_call (CancelOrder client_id order_int symbol_id) ;;
     forget_order order_int)%py self.

Definition replace_order (order_id : Z) (level : OrderLevel.t) : M t OrderInfo.t :=
  (cancel_order order_id ;; place_order level)%py.

(** The payload [_handle_response_frame] builds from a fill frame. *)
Record FillPayload := {
  payload_client_id : Z;
  payload_order_id : Z;
  payload_symbol_id : Z;
  payload_side : Z;
  payload_price_ticks : Z;
  payload_quantity : Z
}.

(** [_on_gateway_fill] with the registered [handlers] acting on a state [S].
    A handler returns [None] when it raises, before it has changed anything
    (as [Strategy.register_fill] does); the exception is logged and the next
    handler runs. *)
Definition _on_gateway_fill {S : Type}
    (handlers : list (string -> Side -> Z -> Q -> S -> option S))
    (payload : FillPayload) (state : S) : S :=
  match config.ID_TO_SYMBOL !! payload_symbol_id payload with
  | None => state
  | Some symbol =>
      let quantity := payload_quantity payload in
      if (quantity <=? 0)%Z then state
      else
        let side := if (payload_side payload =? 0)%Z then BID else ASK in
        let price_ticks := payload_price_ticks payload in
        let price := inject_Z price_ticks / inject_Z config.ORDER_PRICE_SCALE in
        fold_left
          (fun state handler =>
             match handler symbol side quantity price state with
             | Some state' => state'
             | None => state
             end)
          handlers state
  end.

End ExchangeClient.

(* ===================================================================== *)
(** ** order_manager.py *)

Module order_manager.

(** [_bps_distance(a, b)]; [None] stands for [float("inf")]. *)
Definition _bps_distance (a b : Q) : option Q :=
  if Qle_bool a 0 || Qle_bool b 0 then None
  else
    let mid := (a + b) / 2 in
    Some (Qabs (a - b) / mid * 10000).

End order_manager.

(** The two counters of the rate limiter. *)
Module Limiter.

Record t := {
  _window_start : Q;
  _actions_this_window : Z
}.

(** One pass through the body of [while True] in [_reserve_action_slot],
    with [now] the reading of [time.monotonic()].  Besides the new counters
    it returns [None] when the slot is taken (the [return]) and [Some d]
    when the caller is to sleep [d] seconds and go round again.  No [await]
    separates the clock reading from the increment, so a pass is atomic. *)
Definition attempt (now : Q) (self : t) : t * option Q :=
  let elapsed := now - _window_start self in
  let self :=
    if Qle_bool 1 elapsed
    then {| _window_start := now; _actions_this_window := 0 |}
    else self in
  if (_actions_this_window self <? config.MAX_ACTIONS_PER_SECOND)%Z
  then ({| _window_start := _window_start self;
           _actions_this_window := (_actions_this_window self + 1)%Z |}, None)
  else (self, Some (Qmax 0 (1 - elapsed))).

(** Successive passes at the clock readings [nows], whoever makes them: the
    final counters and the readings at which a slot was taken, in order. *)
Fixpoint attempts (self : t) (nows : list Q) : t * list Q :=
  match nows with
  | [] => (self, [])
  | now :: rest =>
      let '(self, outcome) := attempt now self in
      let '(final, taken) := attempts self rest in
      (final, match outcome with None => now :: taken | Some _ => taken end)
  end.

End Limiter.

Module OrderLadderManager.
Import Py.

(** [{Side.BID: {}, Side.ASK: {}}]: the live orders of one symbol. *)
Record Books := {
  bid_book : odict OrderInfo.t;
  ask_book : odict OrderInfo.t
}.

Definition book (side : Side) (b : Books) : odict OrderInfo.t :=
  match side with BID => bid_book b | ASK => ask_book b end.

Definition with_book (side : Side) (d : odict OrderInfo.t) (b : Books) : Books :=
  match side with
  | BID => {| bid_book := d; ask_book := ask_book b |}
  | ASK => {| bid_book := bid_book b; ask_book := d |}
  end.

(** The manager's attributes ([_window_start] and [_actions_this_window]
    grouped as [limiter]), with the clock [time.monotonic()] reads.  The
    [asyncio.Lock] is not a field: a call of [sync_symbol] holds it from start
    to end, so calls run one after the other, as they do here. *)
Record t := {
  client : ExchangeClient.t;
  active_orders : gmap string Books;
  limiter : Limiter.t;
  monotonic : Q
}.

Definition init (client : ExchangeClient.t) (symbol_configs : gmap string config.SymbolConfig)
    (now : Q) : t :=
  {| client := client;
     active_orders := (fun _ => {| bid_book := []; ask_book := [] |}) <$> symbol_configs;
     limiter := {| Limiter._window_start := now; Limiter._actions_this_window := 0 |};
     monotonic := now |}.

Definition with_client (c : ExchangeClient.t) (self : t) : t :=
  {| client := c; active_orders := active_orders self;
     limiter := limiter self; monotonic := monotonic self |}.

Definition with_active_orders (a : gmap string Books) (self : t) : t :=
  {| client := client self; active_orders := a;
     limiter := limiter self; monotonic := monotonic self |}.

Definition with_limiter (l : Limiter.t) (now : Q) (self : t) : t :=
  {| client := client self; active_orders := active_orders self;
     limiter := l; monotonic := now |}.

(** [await self.client.f(...)] *)
Definition on_client {A} (m : M ExchangeClient.t A) : M t A :=
  fun self =>
    let '(c, r) := m (client self) in (with_client c self, r).

(** [self.active_orders[symbol][side]] *)
Definition side_book (symbol : string) (side : Side) : M t (odict OrderInfo.t) :=
  fun self =>
    match active_orders self !! symbol with
    | None => (self, Raise KeyError)
    | Some b => (self, Ok (book side b))
    end.

(** [self.active_orders[symbol][side][level_index] = info] *)
Definition store_level (symbol : string) (side : Side) (level_index : Z)
    (info : OrderInfo.t) : M t unit :=
  fun self =>
    match active_orders self !! symbol with
    | None => (self, Raise KeyError)
    | Some b =>
        (with_active_orders
           (<[symbol := with_book side (od_set level_index info (book side b)) b]>
              (active_orders self)) self,
         Ok tt)
    end.

(** [del self.active_orders[symbol][side][level_index]] *)
Definition delete_level (symbol : string) (side : Side) (level_index : Z) : M t unit :=
  fun self =>
    match active_orders self !! symbol with
    | None => (self, Raise KeyError)
    | Some b =>
        match od_get level_index (book side b) with
        | None => (self, Raise KeyError)
        | Some _ =>
            (with_active_orders
               (<[symbol := with_book side (od_del level_index (book side b)) b]>
                  (active_orders self)) self,
             Ok tt)
        end
    end.

(** [_reserve_action_slot]: the [while True] loop, given [fuel] passes.
    [asyncio.sleep(d)] moves the clock on by [d]. *)
Fixpoint reserve_loop (fuel : nat) : M t unit :=
  fun self =>
    match fuel with
    | O => (self, Raise Diverged)
    | S fuel =>
        let now := monotonic self in
        match Limiter.attempt now (limiter self) with
        | (l, None) => (with_limiter l now self, Ok tt)
        | (l, Some delay) => reserve_loop fuel (with_limiter l (now + delay) self)
        end
    end.

(** Two passes are all the loop ever makes (see [reserve_loop_returns]). *)
Definition _reserve_action_slot : M t unit := reserve_loop 2.

Definition _throttled_place (level : OrderLevel.t) : M t OrderInfo.t :=
  (_reserve_action_slot ;; on_client (ExchangeClient.place_order level))%py.

Definition _throttled_replace (existing : OrderInfo.t) (level : OrderLevel.t)
    : M t OrderInfo.t :=
  (_reserve_action_slot ;;
   on_client (ExchangeClient.replace_order (OrderInfo.order_id existing) level))%py.

Definition _throttled_cancel (info : OrderInfo.t) : M t unit :=
  (_reserve_action_slot ;;
   on_client (ExchangeClient.cancel_order (OrderInfo.order_id info)))%py.

Definition _needs_refresh (existing : OrderInfo.t) (desired : OrderLevel.t) : bool :=
  if negb (OrderInfo.size existing =? OrderLevel.size desired)%Z then true
  else
    match order_manager._bps_distance (OrderInfo.price existing) (OrderLevel.price desired) with
    | None => true
    | Some distance => Qle_bool config.MIN_MOVE_TO_REFRESH_BPS distance
    end.

(** The body of the loop of [_sync_side], for one desired level. *)
Definition sync_level (symbol : string) (side : Side) (level : OrderLevel.t) : M t unit :=
  (let* d := side_book symbol side in
   match od_get (OrderLevel.level_index level) d with
   | None =>
       let* info := _throttled_place level in
       store_level symbol side (OrderLevel.level_index level) info
   | Some existing =>
       if _needs_refresh existing level then
         let* info := _throttled_replace existing level in
         store_level symbol side (OrderLevel.level_index level) info
       else ret tt
   end)%py.

Definition _sync_side (symbol : string) (side : Side) (desired : list OrderLevel.t)
    : M t unit :=
  for_each (sync_level symbol side) desired.

(** The body of the loop of [_prune_levels], for one live entry.  The test
    [info is None] has no counterpart: only orders the exchange returned are
    ever stored. *)
Definition prune_entry (symbol : string) (side : Side) (desired_indexes : gset Z)
    (entry : Z * OrderInfo.t) : M t unit :=
  let '(level_index, info) := entry in
  if decide (level_index ∈ desired_indexes) then ret tt
  else (_throttled_cancel info ;; delete_level symbol side level_index)%py.

(** The loop runs over [list(....items())], a copy made before the first pass. *)
Definition _prune_levels (symbol : string) (side : Side) (desired_indexes : gset Z)
    : M t unit :=
  (let* items := side_book symbol side in
   for_each (prune_entry symbol side desired_indexes) items)%py.

(** [{lvl.level_index for lvl in levels}] *)
Definition level_indexes (levels : list OrderLevel.t) : gset Z :=
  list_to_set (map OrderLevel.level_index levels).

Definition sync_symbol (symbol : string) (bids asks : list OrderLevel.t) : M t unit :=
  (_sync_side symbol BID bids ;;
   _sync_side symbol ASK asks ;;
   _prune_levels symbol BID (level_indexes bids) ;;
   _prune_levels symbol ASK (level_indexes asks))%py.

(** [self.active_orders[symbol][side].clear()] *)
Definition clear_side (symbol : string) (side : Side) : M t unit :=
  fun self =>
    match active_orders self !! symbol with
    | None => (self, Raise KeyError)
    | Some b =>
        (with_active_orders (<[symbol := with_book side [] b]> (active_orders self)) self,
         Ok tt)
    end.

(** The body of [for side in (Side.BID, Side.ASK)] in [cancel_all]: every
    order of a copy of the values is cancelled, then the side is cleared. *)
Definition cancel_side (symbol : string) (side : Side) : M t unit :=
  (let* d := side_book symbol side in
   for_each (fun entry => _throttled_cancel (snd entry)) d ;;
   clear_side symbol side)%py.

(** [cancel_all], with [symbols] the keys of [self.active_orders] in the
    order the dictionary lists them. *)
Definition cancel_all_over (symbols : list string) : M t unit :=
  for_each (fun symbol => cancel_side symbol BID ;; cancel_side symbol ASK)%py symbols.

(** [cancel_all] in the order the [gmap] lists its keys. *)
Definition cancel_all : M t unit :=
  fun self => cancel_all_over (map fst (map_to_list (active_orders self))) self.

End OrderLadderManager.

(* ===================================================================== *)
(** * Part II: properties *)

(** ** Comparisons on rationals *)

Module PyFacts.

Lemma Qltb_lt a b : Py.Qltb a b = true <-> a < b.
Proof.
  unfold Py.Qltb. rewrite negb_true_iff.
  destruct (Qle_bool b a) eqn:E.
  - apply Qle_bool_iff in E. split; [discriminate | intros H; lra].
  - split; [intros _ | reflexivity].
    destruct (Qlt_le_dec a b) as [H|H]; [exact H |].
    apply Qle_bool_iff in H. congruence.
Qed.

Lemma Qltb_ge a b : Py.Qltb a b = false <-> b <= a.
Proof.
  unfold Py.Qltb. rewrite negb_false_iff. apply Qle_bool_iff.
Qed.

Lemma Qle_bool_false a b : Qle_bool a b = false <-> b < a.
Proof.
  rewrite <- Qltb_lt. unfold Py.Qltb. rewrite negb_true_iff. reflexivity.
Qed.

End PyFacts.

(* ===================================================================== *)
(** ** The risk engine *)

Module risk_props.
Import risk.
Import PrimFloat.
Local Set Warnings "-inexact-float".

(** The interpolation weight of the soft-to-hard band, as the
    specification writes it: the square of the normalised drawdown. *)
Definition severity (d : Q) : Q :=
  let s := (d - 0.15) / (0.25 - 0.15) in s * s.

Lemma hard_branch d : 0.25 <= d -> drawdown_adjustments d = (2, 0, true).
Proof.
  intros H. unfold drawdown_adjustments. cbn [config.hard_stop_pct config.RISK_LIMITS].
  apply Qle_bool_iff in H. rewrite H. reflexivity.
Qed.

Lemma soft_branch d : d <= 0.15 -> drawdown_adjustments d = (1, 1, false).
Proof.
  intros H. unfold drawdown_adjustments.
  cbn [config.hard_stop_pct config.drawdown_stop_pct config.RISK_LIMITS].
  destruct (Qle_bool 0.25 d) eqn:E.
  - apply Qle_bool_iff in E. lra.
  - apply Qle_bool_iff in H. rewrite H. reflexivity.
Qed.

Lemma band_branch d :
  0.15 < d -> d < 0.25 ->
  drawdown_adjustments d =
    (let s := Qmax 0 (Qmin 1 ((d - 0.15) / (0.25 - 0.15))) in
     (1 + s * s * 1.5, Qmax 0.2 (1 - s * s * 0.7), false)).
Proof.
  intros Hlo Hhi. unfold drawdown_adjustments.
  cbn [config.hard_stop_pct config.drawdown_stop_pct config.RISK_LIMITS].
  apply PyFacts.Qle_bool_false in Hlo, Hhi. rewrite Hlo, Hhi. reflexivity.
Qed.

(** Inside the band the clamp of the normalised drawdown is the identity. *)
Lemma clamp_band d :
  0.15 < d -> d < 0.25 ->
  Qmax 0 (Qmin 1 ((d - 0.15) / (0.25 - 0.15))) == (d - 0.15) * 10.
Proof.
  intros Hlo Hhi.
  assert (E : (d - 0.15) / (0.25 - 0.15) == (d - 0.15) * 10) by (field; lra).
  rewrite E.
  rewrite Q.min_r by lra. rewrite Q.max_r by lra. reflexivity.
Qed.

Lemma severity_affine d : severity d == ((d - 0.15) * 10) * ((d - 0.15) * 10).
Proof. unfold severity. cbv zeta. field. Qed.

Lemma band_spread d :
  0.15 < d -> d < 0.25 ->
  spread_scale_of (drawdown_adjustments d) == 1 + severity d * 1.5.
Proof.
  intros Hlo Hhi. rewrite (band_branch d Hlo Hhi). cbv zeta.
  unfold spread_scale_of. cbn [fst snd].
  rewrite (clamp_band d Hlo Hhi), severity_affine. reflexivity.
Qed.

Lemma band_size d :
  0.15 < d -> d < 0.25 ->
  size_scale_of (drawdown_adjustments d) == Qmax 0.2 (1 - severity d * 0.7).
Proof.
  intros Hlo Hhi. rewrite (band_branch d Hlo Hhi). cbv zeta.
  unfold size_scale_of. cbn [fst snd].
  rewrite (clamp_band d Hlo Hhi), severity_affine. reflexivity.
Qed.

(** The three regimes of [drawdown_adjustments], one per branch. *)
Inductive regime (d : Q) : Prop :=
| Soft : d <= 0.15 -> drawdown_adjustments d = (1, 1, false) -> regime d
| Band : 0.15 < d -> d < 0.25 ->
    spread_scale_of (drawdown_adjustments d) == 1 + severity d * 1.5 ->
    size_scale_of (drawdown_adjustments d) == Qmax 0.2 (1 - severity d * 0.7) ->
    throttled_of (drawdown_adjustments d) = false -> regime d
| Hard : 0.25 <= d -> drawdown_adjustments d = (2, 0, true) -> regime d.

Lemma regime_total d : regime d.
Proof.
  destruct (Qlt_le_dec d 0.25) as [Hhi|Hhi].
  - destruct (Qlt_le_dec 0.15 d) as [Hlo|Hlo].
    + apply Band; auto using band_spread, band_size.
      rewrite (band_branch d Hlo Hhi). reflexivity.
    + apply Soft; auto using soft_branch.
  - apply Hard; auto using hard_branch.
Qed.

Lemma severity_mono d1 d2 : 0.15 <= d1 -> d1 <= d2 -> severity d1 <= severity d2.
Proof. intros H1 H2. rewrite !severity_affine. nra. Qed.

Lemma severity_range d : 0.15 < d -> d < 0.25 -> 0 < severity d /\ severity d < 1.
Proof. intros H1 H2. rewrite !severity_affine. split; nra. Qed.

(** C5, as stated, fails in its last place: at a drawdown of 0.20 the code,
    which computes in doubles, finds a severity of 0.5000000000000001 and
    returns a spread scale of 1.3750000000000002, not 1.375. *)
Lemma spread_scale_at_020_in_doubles :
  doubles.drawdown_adjustments 0.20%float
  = (1.3750000000000002%float, 0.825%float, false) /\
  fst (fst (doubles.drawdown_adjustments 0.20%float)) <> 1.375%float.
Proof.
  split; [vm_compute; reflexivity|]. vm_compute. intros H. discriminate H.
Qed.

(** C5, amended.  For every drawdown fraction [d], [drawdown_adjustments d]
    is exactly [(2, 0, true)] when [d >= 0.25], exactly [(1, 1, false)] when
    [d <= 0.15], and otherwise, in exact arithmetic,
    [(1 + severity * 1.5, max(0.2, 1 - severity * 0.7), false)] with
    [severity = ((d - 0.15) / (0.25 - 0.15))^2]; at [d = 0.20] the formula is
    worth [(1.375, 0.825, false)] exactly, and the code, computing in
    doubles, returns [(1.3750000000000002, 0.825, false)]; at 0.10 and 0.25
    it returns [(1, 1, false)] and [(2, 0, true)] in doubles as well. *)
Theorem drawdown_adjustments_cases (d : Q) :
  (0.25 <= d -> drawdown_adjustments d = (2, 0, true)) /\
  (d <= 0.15 -> drawdown_adjustments d = (1, 1, false)) /\
  (0.15 < d -> d < 0.25 ->
     spread_scale_of (drawdown_adjustments d) == 1 + severity d * 1.5 /\
     size_scale_of (drawdown_adjustments d) == Qmax 0.2 (1 - severity d * 0.7) /\
     throttled_of (drawdown_adjustments d) = false) /\
  (1 + severity 0.20 * 1.5 == 1.375 /\ Qmax 0.2 (1 - severity 0.20 * 0.7) == 0.825) /\
  (doubles.drawdown_adjustments 0.10%float = (1%float, 1%float, false) /\
   doubles.drawdown_adjustments 0.20%float
   = (1.3750000000000002%float, 0.825%float, false) /\
   doubles.drawdown_adjustments 0.25%float = (2%float, 0%float, true)).
Proof.
  split; [apply hard_branch |].
  split; [apply soft_branch |].
  split; [|split].
  - intros Hlo Hhi. repeat split.
    + apply band_spread; assumption.
    + apply band_size; assumption.
    + rewrite (band_branch d Hlo Hhi). reflexivity.
  - vm_compute. auto.
  - vm_compute. auto.
Qed.

(** The band case of C5 at [d = 0.18]. *)
Lemma drawdown_adjustments_cases_witness :
  spread_scale_of (drawdown_adjustments 0.18) == 1 + severity 0.18 * 1.5 /\
  size_scale_of (drawdown_adjustments 0.18) == Qmax 0.2 (1 - severity 0.18 * 0.7) /\
  throttled_of (drawdown_adjustments 0.18) = false.
Proof.
  apply (proj1 (proj2 (proj2 (drawdown_adjustments_cases 0.18)))); lra.
Defined.

(** C6, as stated, fails: the spread multiplier climbs towards 2.5 at the top
    of the band and falls back to 2.0 at the hard stop, so it is not
    non-decreasing over all drawdowns. *)
Lemma spread_scale_drops_at_hard_stop :
  0.24 <= 0.25 /\
  spread_scale_of (drawdown_adjustments 0.25)
  < spread_scale_of (drawdown_adjustments 0.24).
Proof. split; [vm_compute; discriminate | vm_compute; reflexivity]. Qed.

(** C6, amended.  For [d1 <= d2]: the size multiplier is non-increasing; the
    spread multiplier is non-decreasing as long as [d2] stays below the hard
    stop; [throttled] holds exactly when [d >= 0.25]; and the size multiplier
    is zero exactly when [throttled] holds. *)
Theorem drawdown_adjustments_monotone (d1 d2 : Q) :
  d1 <= d2 ->
  size_scale_of (drawdown_adjustments d2) <= size_scale_of (drawdown_adjustments d1) /\
  (d2 < 0.25 ->
   spread_scale_of (drawdown_adjustments d1) <= spread_scale_of (drawdown_adjustments d2)) /\
  (throttled_of (drawdown_adjustments d1) = true <-> 0.25 <= d1) /\
  (size_scale_of (drawdown_adjustments d1) == 0
   <-> throttled_of (drawdown_adjustments d1) = true).
Proof.
  intros Hle.
  destruct (regime_total d1) as [L1 E1|L1 U1 Sp1 Sz1 T1|L1 E1];
  destruct (regime_total d2) as [L2 E2|L2 U2 Sp2 Sz2 T2|L2 E2]; try lra.
  all: try rewrite E1; try rewrite E2; try rewrite Sp1; try rewrite Sp2;
       try rewrite Sz1; try rewrite Sz2; try rewrite T1;
       unfold size_scale_of, spread_scale_of, throttled_of; cbn [fst snd].
  all: try (pose proof (severity_range d1 L1 U1) as [R1 R1']).
  all: try (pose proof (severity_range d2 L2 U2) as [R2 R2']).
  all: try (pose proof (severity_mono d1 d2 ltac:(lra) Hle) as M).
  all: repeat split; try intros; try lra; try discriminate.
  all: try (destruct (Q.max_spec 0.2 (1 - severity d1 * 0.7)) as [[? Ex1]|[? Ex1]];
            try rewrite Ex1 in *).
  all: try (destruct (Q.max_spec 0.2 (1 - severity d2 * 0.7)) as [[? Ex2]|[? Ex2]];
            try rewrite Ex2 in *).
  all: try lra.
Qed.

(** C6 amended, inside the band: from 0.18 to 0.22. *)
Lemma drawdown_adjustments_monotone_witness :
  size_scale_of (drawdown_adjustments 0.22) <= size_scale_of (drawdown_adjustments 0.18) /\
  (0.22 < 0.25 ->
   spread_scale_of (drawdown_adjustments 0.18) <= spread_scale_of (drawdown_adjustments 0.22)) /\
  (throttled_of (drawdown_adjustments 0.18) = true <-> 0.25 <= 0.18) /\
  (size_scale_of (drawdown_adjustments 0.18) == 0
   <-> throttled_of (drawdown_adjustments 0.18) = true).
Proof.
  apply (drawdown_adjustments_monotone 0.18 0.22). vm_compute. discriminate.
Defined.

End risk_props.

(* ===================================================================== *)
(** ** Fill accounting and mispricing asymmetry *)

Module strategy_props.
Import Strategy.

Definition buy (symbol : string) (size : Z) (price : Q) : Fill :=
  {| fill_symbol := symbol; fill_side := BID; fill_size := size; fill_price := price |}.

Definition sell (symbol : string) (size : Z) (price : Q) : Fill :=
  {| fill_symbol := symbol; fill_side := ASK; fill_size := size; fill_price := price |}.

(** What a replay leaves for one symbol: position, VWAP, realized PnL. *)
Definition outcome (self : option t) (symbol : string) : option (Z * Q * Q) :=
  match self with
  | None => None
  | Some s =>
      match positions s !! symbol with
      | None => None
      | Some st => Some (PositionState.position st, PositionState.vwap st,
                         PnLState.realized (pnl s))
      end
  end.

(** The price of the last fill of [symbol] in [fills]; [seed] if there is none. *)
Fixpoint last_fill_price (symbol : string) (fills : list Fill) (seed : Q) : Q :=
  match fills with
  | [] => seed
  | f :: rest =>
      last_fill_price symbol rest
        (if decide (fill_symbol f = symbol) then fill_price f else seed)
  end.

Definition well_formed_fill (f : Fill) : Prop :=
  (0 < fill_size f)%Z /\ 0 < fill_price f.

Lemma inject_Z_pos z : (0 < z)%Z -> 0 < inject_Z z.
Proof. intros H. change 0 with (inject_Z 0). rewrite <- Zlt_Qlt. exact H. Qed.

(** One fill: the entry written for the filled symbol, what stays as it was,
    and what a fill of positive size and price does to the VWAP. *)
Lemma register_fill_inv self symbol side size price self' :
  register_fill self symbol side size price = Some self' ->
  exists state state',
    positions self !! symbol = Some state /\
    positions self' = <[symbol := state']> (positions self) /\
    PositionState.symbol state' = PositionState.symbol state /\
    PnLState.unrealized (pnl self') = PnLState.unrealized (pnl self) /\
    PnLState.equity_high_watermark (pnl self')
    = PnLState.equity_high_watermark (pnl self) /\
    ((0 < size)%Z -> 0 < price ->
     (PositionState.position state <> 0%Z -> 0 < PositionState.vwap state) ->
     (PositionState.position state' <> 0%Z -> 0 < PositionState.vwap state') /\
     (PositionState.position state' = 0%Z -> PositionState.vwap state' == price)).
Proof.
  unfold register_fill. intros H.
  destruct (positions self !! symbol) as [state|] eqn:Hst; [|discriminate].
  injection H as <-. eexists state, _.
  split; [reflexivity|]. split; [reflexivity|]. cbn.
  split; [reflexivity|]. split; [reflexivity|]. split; [reflexivity|].
  intros Hsz Hp Hv.
  destruct state as [sym p v]. cbn [PositionState.position PositionState.vwap] in *.
  assert (Hs : exists q,
             q = (match side with BID => size | ASK => (- size)%Z end) /\ q <> 0%Z).
  { eexists; split; [reflexivity|]. destruct side; lia. }
  destruct Hs as (q & <- & Hq).
  destruct (Z.eqb_spec p 0) as [E0|N0]; cbn [orb andb].
  - subst p. replace (Z.abs 0 + Z.abs q)%Z with (Z.abs q) by lia.
    replace (0 + q)%Z with q by lia. change (Z.abs 0) with 0%Z.
    destruct (Z.ltb_spec 0 (Z.abs q)) as [Ha|Ha]; [|lia].
    assert (Hq' : 0 < inject_Z (Z.abs q)) by (apply inject_Z_pos; lia).
    assert (E : (v * inject_Z 0 + price * inject_Z (Z.abs q)) / inject_Z (Z.abs q)
                == price).
    { field. lra. }
    rewrite E. split; intros; [lra | reflexivity].
  - destruct (Z.ltb_spec 0 p) as [Pp|Pp], (Z.ltb_spec 0 q) as [Pq|Pq],
      (Z.ltb_spec p 0) as [Np|Np], (Z.ltb_spec q 0) as [Nq|Nq]; try lia; cbn [orb andb].
    all: specialize (Hv N0).
    all: try (destruct (Z.ltb_spec 0 (Z.abs p + Z.abs q)) as [Ha|Ha]; [|lia];
         assert (0 < inject_Z (Z.abs p)) by (apply inject_Z_pos; lia);
         assert (0 < inject_Z (Z.abs q)) by (apply inject_Z_pos; lia);
         assert (0 < inject_Z (Z.abs p + Z.abs q)) by (apply inject_Z_pos; lia);
         split; [intros _ | intros; lia];
         apply Qlt_shift_div_l; [assumption | nra]).
    all: destruct (Z.eqb_spec (p + q) 0) as [Er|Nr];
      [split; [intros; lia | reflexivity] |].
    all: destruct (Z.ltb_spec 0 (p + q)), (Z.ltb_spec (p + q) 0); try lia;
      cbn [orb andb].
    all: split; intros; try lia; lra.
Qed.

Lemma register_fill_total self symbol side size price :
  is_Some (positions self !! symbol) ->
  is_Some (register_fill self symbol side size price).
Proof.
  intros [state Hst]. unfold register_fill. rewrite Hst. eexists. reflexivity.
Qed.

Lemma replay_snoc self fills f :
  replay self (fills ++ [f]) =
  match replay self fills with
  | None => None
  | Some s => register_fill s (fill_symbol f) (fill_side f) (fill_size f) (fill_price f)
  end.
Proof.
  revert self. induction fills as [|g fills IH]; intros self; cbn.
  - destruct (register_fill self _ _ _ _); reflexivity.
  - destruct (register_fill self _ _ _ _); [apply IH | reflexivity].
Qed.

Lemma last_fill_price_snoc symbol fills f seed :
  last_fill_price symbol (fills ++ [f]) seed =
  if decide (fill_symbol f = symbol) then fill_price f
  else last_fill_price symbol fills seed.
Proof.
  revert seed. induction fills as [|g fills IH]; intros seed; cbn.
  - reflexivity.
  - apply IH.
Qed.

Lemma init_lookup symbol st :
  positions init !! symbol = Some st ->
  PositionState.position st = 0%Z /\ PositionState.vwap st = 0.
Proof.
  unfold init. cbn [positions]. intros H.
  apply elem_of_list_to_map_2, list_elem_of_In, in_map_iff in H.
  destruct H as (x & [= _ <-] & _). split; reflexivity.
Qed.

(** What every reachable position state satisfies when the fills have
    positive size and price. *)
Lemma replay_invariant fills s symbol st :
  Forall well_formed_fill fills ->
  replay init fills = Some s ->
  positions s !! symbol = Some st ->
  (PositionState.position st <> 0%Z -> 0 < PositionState.vwap st) /\
  (PositionState.position st = 0%Z ->
   PositionState.vwap st == last_fill_price symbol fills 0).
Proof.
  revert s symbol st. induction fills as [|f fills IH] using rev_ind;
    intros s symbol st Hwf Hrun Hst.
  - injection Hrun as <-. apply init_lookup in Hst as [Hp Hv].
    split; [intros; contradiction | intros _; rewrite Hv; reflexivity].
  - apply Forall_app in Hwf as [Hwf Hf]. inversion Hf as [|? ? [Hsz Hpr] _]; subst.
    rewrite replay_snoc in Hrun.
    destruct (replay init fills) as [s0|] eqn:Hs0; [|discriminate].
    apply register_fill_inv in Hrun
      as (state & state' & Hlook & Hpos & _ & _ & _ & Hstep).
    rewrite last_fill_price_snoc. rewrite Hpos in Hst.
    destruct (decide (fill_symbol f = symbol)) as [<-|Hne].
    + rewrite lookup_insert_eq in Hst. injection Hst as <-.
      apply Hstep; [assumption | assumption |].
      apply (IH s0 (fill_symbol f) state Hwf eq_refl Hlook).
    + rewrite lookup_insert_ne in Hst by assumption.
      apply (IH s0 symbol st Hwf eq_refl Hst).
Qed.

(** C7.  Replaying buy 10 @ 100, sell 5 @ 110, sell 5 @ 120 from the flat
    state leaves position 0, VWAP 120 and realized PnL 150; replaying
    buy 10 @ 100, sell 15 @ 110 leaves position -5, VWAP 110 and realized
    PnL 100.  This holds for each symbol of the universe. *)
Theorem replay_scenarios (symbol : string) :
  In symbol config.ALL_SYMBOLS ->
  (exists vwap realized,
     outcome (replay init [buy symbol 10 100; sell symbol 5 110; sell symbol 5 120]) symbol
     = Some (0%Z, vwap, realized) /\
     vwap == 120 /\ realized == 150) /\
  (exists vwap realized,
     outcome (replay init [buy symbol 10 100; sell symbol 15 110]) symbol
     = Some ((-5)%Z, vwap, realized) /\
     vwap == 110 /\ realized == 100).
Proof.
  intros H. cbn in H.
  destruct H as [<-|[<-|[<-|[<-|[]]]]]; split; vm_compute; eexists _, _;
    (split; [reflexivity | split; reflexivity]).
Qed.

(** C7 for the ETF. *)
Lemma replay_scenarios_witness :
  (exists vwap realized,
     outcome (replay init [buy "ETF" 10 100; sell "ETF" 5 110; sell "ETF" 5 120]) "ETF"
     = Some (0%Z, vwap, realized) /\
     vwap == 120 /\ realized == 150) /\
  (exists vwap realized,
     outcome (replay init [buy "ETF" 10 100; sell "ETF" 15 110]) "ETF"
     = Some ((-5)%Z, vwap, realized) /\
     vwap == 110 /\ realized == 100).
Proof.
  apply (replay_scenarios "ETF"). cbn. auto.
Defined.

(** C4, as stated, fails: closing a position sets the VWAP to the price of
    the closing fill, so a flat position can carry a non-zero VWAP. *)
Lemma flat_position_keeps_last_price :
  exists vwap realized,
    outcome (replay init [buy "ETF" 10 100; sell "ETF" 10 110]) "ETF"
    = Some (0%Z, vwap, realized) /\
    vwap == 110 /\ ~ vwap == 0.
Proof.
  vm_compute. eexists _, _. split; [reflexivity |]. split; [reflexivity | discriminate].
Qed.

(** C4, amended.  For every state reached from the flat state by fills of
    positive size and positive price: the VWAP is zero only if the position
    is zero, and when the position is zero the VWAP is the price of the
    symbol's last fill (zero only when the symbol has had no fill). *)
Theorem vwap_zero_only_when_flat (fills : list Fill) (s : t) (symbol : string)
    (st : PositionState.t) :
  Forall well_formed_fill fills ->
  replay init fills = Some s ->
  positions s !! symbol = Some st ->
  (PositionState.vwap st == 0 -> PositionState.position st = 0%Z) /\
  (PositionState.position st = 0%Z ->
   PositionState.vwap st == last_fill_price symbol fills 0).
Proof.
  intros Hwf Hrun Hst.
  destruct (replay_invariant fills s symbol st Hwf Hrun Hst) as [Hnz Hz].
  split; [|exact Hz].
  intros Hv. destruct (Z.eq_dec (PositionState.position st) 0%Z) as [E|N]; [exact E|].
  specialize (Hnz N). lra.
Qed.

(** C4 amended, on a round trip in the ETF. *)
Lemma vwap_zero_only_when_flat_witness :
  exists s st,
    replay init [buy "ETF" 10 100; sell "ETF" 10 110] = Some s /\
    positions s !! "ETF"%string = Some st /\
    (PositionState.vwap st == 0 -> PositionState.position st = 0%Z) /\
    (PositionState.position st = 0%Z ->
     PositionState.vwap st
     == last_fill_price "ETF" [buy "ETF" 10 100; sell "ETF" 10 110] 0).
Proof.
  destruct (replay init [buy "ETF" 10 100; sell "ETF" 10 110]) as [s|] eqn:Hs;
    [|vm_compute in Hs; discriminate].
  destruct (positions s !! "ETF"%string) as [st|] eqn:Hst.
  - exists s, st. split; [reflexivity|]. split; [exact Hst|].
    apply (vwap_zero_only_when_flat _ s "ETF" st); [|exact Hs|exact Hst].
    repeat constructor.
  - exfalso. injection Hs as <-. vm_compute in Hst. discriminate.
Defined.

(** C10.  A fill of [symbol] rewrites the entry of [symbol] (keeping its
    [symbol] attribute) and the realized PnL; the position state of every
    other symbol, the unrealized PnL and the equity high-watermark are left
    as they were. *)
Theorem register_fill_frame (self self' : t) (symbol : string) (side : Side)
    (size : Z) (price : Q) :
  register_fill self symbol side size price = Some self' ->
  (forall other, other <> symbol -> positions self' !! other = positions self !! other) /\
  (exists state state',
     positions self !! symbol = Some state /\
     positions self' !! symbol = Some state' /\
     PositionState.symbol state' = PositionState.symbol state) /\
  PnLState.unrealized (pnl self') = PnLState.unrealized (pnl self) /\
  PnLState.equity_high_watermark (pnl self')
  = PnLState.equity_high_watermark (pnl self).
Proof.
  intros H.
  apply register_fill_inv in H as (state & state' & Hlook & Hpos & Hsym & Hu & Hw & _).
  split; [|split; [|split; assumption]].
  - intros other Hne. rewrite Hpos. apply lookup_insert_ne. congruence.
  - exists state, state'. rewrite Hpos, lookup_insert_eq. auto.
Qed.

(** C10 on the first fill of a run. *)
Lemma register_fill_frame_witness :
  exists self',
    register_fill init "XYZ" ASK 7 (1015 # 10) = Some self' /\
    (forall other, other <> "XYZ"%string ->
                   positions self' !! other = positions init !! other) /\
    PnLState.unrealized (pnl self') = PnLState.unrealized (pnl init) /\
    PnLState.equity_high_watermark (pnl self')
    = PnLState.equity_high_watermark (pnl init).
Proof.
  destruct (register_fill init "XYZ" ASK 7 (1015 # 10)) as [self'|] eqn:E;
    [|vm_compute in E; discriminate].
  exists self'. split; [reflexivity|].
  destruct (register_fill_frame init self' "XYZ" ASK 7 (1015 # 10) E)
    as (Hother & _ & Hu & Hw).
  auto.
Defined.

Lemma Qabs_pos_of_nonzero m : ~ m == 0 -> 0 < Qabs m.
Proof.
  intros Hm. destruct (Q_dec m 0) as [[H|H]|H]; [| |contradiction].
  - rewrite Qabs_neg by lra. lra.
  - rewrite Qabs_pos by lra. lra.
Qed.

Lemma intensity_range m w :
  ~ m == 0 -> 0 < w ->
  0 < _mispricing_intensity m w /\ _mispricing_intensity m w <= 1.
Proof.
  intros Hm Hw. unfold _mispricing_intensity.
  apply PyFacts.Qle_bool_false in Hw. rewrite Hw. apply PyFacts.Qle_bool_false in Hw.
  change (Qmax 1 config.MISPRICING_INTENSITY_BPS) with 40.
  pose proof (Qabs_pos_of_nonzero m Hm) as Ha.
  assert (E : Qabs m / 40 == Qabs m * (1 # 40)) by (field; lra).
  cbv zeta. rewrite E.
  set (a := Qabs m) in *.
  destruct (Q.min_spec (a * (1 # 40)) 1) as [[? E1]|[? E1]]; rewrite E1;
  (destruct (Q.min_spec 1 (1 * w)) as [[? E2]|[? E2]]; try rewrite E2);
  (destruct (Q.min_spec 1 (a * (1 # 40) * w)) as [[? E3]|[? E3]]; try rewrite E3);
  try (rewrite Q.max_r by nra); try nra; try lra.
Qed.

(** With a non-zero mispricing and a positive weight, the two scales are a
    bonus above the penalty, assigned to the sides by symbol kind and sign. *)
Lemma side_size_scales_active symbol m :
  ~ m == 0 -> 0 < symbol_weight symbol ->
  let i := _mispricing_intensity m (symbol_weight symbol) in
  let bonus := 1 + i * 0.8 in
  let penalty := Qmax 0.5 (1 - i * 0.5) in
  penalty < bonus /\
  _side_size_scales symbol m =
    if decide (symbol = config.ETF_SYMBOL) then
      if Py.Qltb 0 m then (penalty, bonus) else (bonus, penalty)
    else
      if Py.Qltb 0 m then (bonus, penalty) else (penalty, bonus).
Proof.
  intros Hm Hw. cbv zeta. split.
  - destruct (intensity_range m _ Hm Hw) as [H0 H1].
    set (i := _mispricing_intensity m (symbol_weight symbol)) in *.
    destruct (Q.max_spec 0.5 (1 - i * 0.5)) as [[? E]|[? E]]; rewrite E; lra.
  - unfold _side_size_scales.
    assert (Qeq_bool m 0 = false) as ->.
    { destruct (Qeq_bool m 0) eqn:E; [|reflexivity].
      apply Qeq_bool_iff in E. contradiction. }
    apply PyFacts.Qle_bool_false in Hw. rewrite Hw. reflexivity.
Qed.

Lemma side_size_scales_neutral symbol m :
  m == 0 \/ symbol_weight symbol == 0 -> _side_size_scales symbol m = (1, 1).
Proof.
  intros H. unfold _side_size_scales.
  destruct (Qeq_bool m 0) eqn:Em; [reflexivity|]. cbn [orb].
  destruct H as [H|H].
  - apply Qeq_bool_iff in H. congruence.
  - assert (Hle : symbol_weight symbol <= 0) by lra.
    apply Qle_bool_iff in Hle. rewrite Hle. reflexivity.
Qed.

Definition bid_scale (r : Q * Q) : Q := fst r.
Definition ask_scale (r : Q * Q) : Q := snd r.

(** C9.  [_side_size_scales] returns [(1, 1)] when the mispricing or the
    symbol's weight is zero; under a strictly positive mispricing the ETF's
    ask scale exceeds its bid scale and every constituent of positive weight
    has its bid scale above its ask scale; the inequalities flip under a
    strictly negative mispricing; at 100 bps the ETF gets [(0.5, 1.8)] and
    XYZ, of weight 0.5, gets [(1.4, 0.75)]. *)
Theorem side_size_scales_asymmetry :
  (forall symbol m,
     m == 0 \/ symbol_weight symbol == 0 -> _side_size_scales symbol m = (1, 1)) /\
  (forall m,
     0 < m ->
     bid_scale (_side_size_scales config.ETF_SYMBOL m)
     < ask_scale (_side_size_scales config.ETF_SYMBOL m)) /\
  (forall symbol m,
     symbol <> config.ETF_SYMBOL -> 0 < symbol_weight symbol -> 0 < m ->
     ask_scale (_side_size_scales symbol m) < bid_scale (_side_size_scales symbol m)) /\
  (forall m,
     m < 0 ->
     ask_scale (_side_size_scales config.ETF_SYMBOL m)
     < bid_scale (_side_size_scales config.ETF_SYMBOL m)) /\
  (forall symbol m,
     symbol <> config.ETF_SYMBOL -> 0 < symbol_weight symbol -> m < 0 ->
     bid_scale (_side_size_scales symbol m) < ask_scale (_side_size_scales symbol m)) /\
  (bid_scale (_side_size_scales config.ETF_SYMBOL 100) == 0.5 /\
   ask_scale (_side_size_scales config.ETF_SYMBOL 100) == 1.8) /\
  (symbol_weight "XYZ" == 0.5 /\
   bid_scale (_side_size_scales "XYZ" 100) == 1.4 /\
   ask_scale (_side_size_scales "XYZ" 100) == 0.75).
Proof.
  assert (Hetf : 0 < symbol_weight config.ETF_SYMBOL) by (vm_compute; reflexivity).
  split; [exact side_size_scales_neutral |].
  split; [|split; [|split; [|split; [|split]]]].
  - intros m Hm.
    destruct (side_size_scales_active config.ETF_SYMBOL m ltac:(lra) Hetf) as [Hlt ->].
    apply PyFacts.Qltb_lt in Hm. rewrite Hm.
    destruct (decide (config.ETF_SYMBOL = config.ETF_SYMBOL)); [exact Hlt | contradiction].
  - intros symbol m Hne Hw Hm.
    destruct (side_size_scales_active symbol m ltac:(lra) Hw) as [Hlt ->].
    apply PyFacts.Qltb_lt in Hm. rewrite Hm.
    destruct (decide (symbol = config.ETF_SYMBOL)); [contradiction | exact Hlt].
  - intros m Hm.
    destruct (side_size_scales_active config.ETF_SYMBOL m ltac:(lra) Hetf) as [Hlt ->].
    assert (Hge : m <= 0) by lra. apply PyFacts.Qltb_ge in Hge. rewrite Hge.
    destruct (decide (config.ETF_SYMBOL = config.ETF_SYMBOL)); [exact Hlt | contradiction].
  - intros symbol m Hne Hw Hm.
    destruct (side_size_scales_active symbol m ltac:(lra) Hw) as [Hlt ->].
    assert (Hge : m <= 0) by lra. apply PyFacts.Qltb_ge in Hge. rewrite Hge.
    destruct (decide (symbol = config.ETF_SYMBOL)); [contradiction | exact Hlt].
  - vm_compute. auto.
  - vm_compute. auto.
Qed.

(** C9 for the constituent ABC under a mispricing of 10 bps. *)
Lemma side_size_scales_asymmetry_witness :
  ask_scale (_side_size_scales "ABC" 10) < bid_scale (_side_size_scales "ABC" 10).
Proof.
  apply (proj1 (proj2 (proj2 side_size_scales_asymmetry)) "ABC"%string 10).
  - discriminate.
  - vm_compute. reflexivity.
  - lra.
Defined.

End strategy_props.

(* ===================================================================== *)
(** ** The quote engine *)

Module quote_engine_props.
Import quote_engine.

Lemma truthy_nonzero x : ~ x == 0 -> Py.truthy x = true.
Proof.
  intros H. unfold Py.truthy. destruct (Qeq_bool x 0) eqn:E; [|reflexivity].
  apply Qeq_bool_iff in E. contradiction.
Qed.

Lemma truthy_zero x : x == 0 -> Py.truthy x = false.
Proof.
  intros H. unfold Py.truthy. apply Qeq_bool_iff in H. rewrite H. reflexivity.
Qed.

Lemma ladder_loop_length snapshot ctx cfg mid bs ls me indexes :
  forall current_size bids asks,
    length (fst (ladder_loop snapshot ctx cfg mid bs ls me indexes current_size bids asks))
    = (length bids + length indexes)%nat /\
    length (snd (ladder_loop snapshot ctx cfg mid bs ls me indexes current_size bids asks))
    = (length asks + length indexes)%nat.
Proof.
  induction indexes as [|i rest IH]; intros current_size bids asks.
  - cbn. split; lia.
  - cbn [ladder_loop]. cbv zeta.
    match goal with
    | |- context [ladder_loop _ _ _ _ _ _ _ rest ?c ?b ?a] =>
        destruct (IH c b a) as [-> ->]
    end.
    rewrite !length_app. cbn. split; lia.
Qed.

Lemma ladders_around_length mid snapshot ctx cfg :
  length (fst (ladders_around mid snapshot ctx cfg)) = Z.to_nat (config.max_levels cfg) /\
  length (snd (ladders_around mid snapshot ctx cfg)) = Z.to_nat (config.max_levels cfg).
Proof.
  unfold ladders_around. cbv zeta.
  match goal with
  | |- context [ladder_loop ?s ?c ?g ?m ?b ?l ?e ?ix ?z [] []] =>
      destruct (ladder_loop_length s c g m b l e ix z [] []) as [-> ->]
  end.
  unfold Py.range. rewrite length_map, length_seq. cbn. auto.
Qed.

(** A one-level book with best bid 99 and best ask 101. *)
Definition book_around_100 : MarketSnapshot.t :=
  {| MarketSnapshot.symbol := "ETF";
     MarketSnapshot.order_book :=
       {| OrderBook.bids := [{| MarketLevel.price := 99; MarketLevel.size := 10 |}];
          OrderBook.asks := [{| MarketLevel.price := 101; MarketLevel.size := 10 |}] |};
     MarketSnapshot.timestamp := 0 |}.

Definition context_with_fair_value (fv : Q) : QuoteContext.t :=
  {| QuoteContext.fair_value := fv;
     QuoteContext.volatility_bps := 15;
     QuoteContext.inventory_skew_bps := 0;
     QuoteContext.spread_scale := 1;
     QuoteContext.size_scale := 1;
     QuoteContext.bid_size_scale := 1;
     QuoteContext.ask_size_scale := 1 |}.

(** Cold start around 100 with volatility 15: the innermost bid is
    [100 * (1 - (15 + 15 - 3.5) / 10000)], and sizes grow by half a level. *)
Example innermost_levels_around_100 :
  match build_ladders book_around_100 (context_with_fair_value 100)
          (config.default_symbol_config "ETF") with
  | (b0 :: b1 :: _, a0 :: _) =>
      OrderLevel.price b0 == 99.735 /\ OrderLevel.size b0 = 400%Z /\
      OrderLevel.size b1 = 600%Z /\ OrderLevel.price a0 == 100.265
  | _ => False
  end.
Proof. vm_compute. repeat split. Qed.

(** C3, as stated, fails: with a negative fair value the book mid is not
    consulted; the negative value is taken as the mid and the guard
    [mid <= 0] returns two empty ladders although the book mid is 100. *)
Lemma negative_fair_value_gives_no_ladders :
  (exists m, OrderBook.mid (MarketSnapshot.order_book book_around_100) = Some m /\ 0 < m) /\
  QuoteContext.fair_value (context_with_fair_value (-1)) < 0 /\
  build_ladders book_around_100 (context_with_fair_value (-1))
    (config.default_symbol_config "ETF") = ([], []).
Proof.
  split; [|split].
  - eexists. split; [reflexivity | vm_compute; reflexivity].
  - vm_compute. reflexivity.
  - vm_compute. reflexivity.
Qed.

(** C3, amended.  [build_ladders] takes [fair_value] as the ladder mid
    whenever it is non-zero and falls back to the book mid only when it is
    zero; a missing or non-positive mid gives two empty ladders (so a negative
    fair value always does); otherwise each ladder has [max_levels] levels. *)
Theorem build_ladders_mid_choice (snapshot : MarketSnapshot.t) (ctx : QuoteContext.t)
    (cfg : config.SymbolConfig) :
  let fv := QuoteContext.fair_value ctx in
  let book_mid := OrderBook.mid (MarketSnapshot.order_book snapshot) in
  (0 < fv -> build_ladders snapshot ctx cfg = ladders_around fv snapshot ctx cfg) /\
  (fv < 0 -> build_ladders snapshot ctx cfg = ([], [])) /\
  (fv == 0 ->
   forall m, book_mid = Some m -> 0 < m ->
             build_ladders snapshot ctx cfg = ladders_around m snapshot ctx cfg) /\
  (fv == 0 ->
   book_mid = None \/ (exists m, book_mid = Some m /\ m <= 0) ->
   build_ladders snapshot ctx cfg = ([], [])) /\
  (forall mid,
     length (fst (ladders_around mid snapshot ctx cfg)) = Z.to_nat (config.max_levels cfg) /\
     length (snd (ladders_around mid snapshot ctx cfg)) = Z.to_nat (config.max_levels cfg)).
Proof.
  cbv zeta. unfold build_ladders, ladder_mid.
  split; [|split; [|split; [|split]]].
  - intros H. rewrite truthy_nonzero by lra.
    apply PyFacts.Qle_bool_false in H. rewrite H. reflexivity.
  - intros H. rewrite truthy_nonzero by lra.
    assert (Hle : QuoteContext.fair_value ctx <= 0) by lra.
    apply Qle_bool_iff in Hle. rewrite Hle. reflexivity.
  - intros H m Hm Hpos. rewrite (truthy_zero _ H), Hm.
    apply PyFacts.Qle_bool_false in Hpos. rewrite Hpos. reflexivity.
  - intros H [Hm | (m & Hm & Hle)]; rewrite (truthy_zero _ H), Hm; [reflexivity |].
    apply Qle_bool_iff in Hle. rewrite Hle. reflexivity.
  - intros mid. apply ladders_around_length.
Qed.

(** C3 amended, on the book around 100 with fair value zero: the book mid is
    used and six levels are quoted on each side. *)
Lemma build_ladders_mid_choice_witness :
  build_ladders book_around_100 (context_with_fair_value 0)
    (config.default_symbol_config "ETF")
  = ladders_around ((99 + 101) / 2) book_around_100 (context_with_fair_value 0)
      (config.default_symbol_config "ETF").
Proof.
  apply (proj1 (proj2 (proj2 (build_ladders_mid_choice book_around_100
                                (context_with_fair_value 0)
                                (config.default_symbol_config "ETF"))))).
  - reflexivity.
  - reflexivity.
  - vm_compute. reflexivity.
Defined.

End quote_engine_props.

(* ===================================================================== *)
(** ** The rate limiter *)

Module limiter_props.
Import Limiter.

(** [x] falls in the rolling second that starts at [t]. *)
Definition in_window (t x : Q) : bool := Qle_bool t x && Py.Qltb x (t + 1).

(** [x] is at or after [t]. *)
Definition since (t x : Q) : bool := Qle_bool t x.

Definition countb (p : Q -> bool) (l : list Q) : nat := length (List.filter p l).

(** Clock readings that never go back, starting no earlier than [t0]. *)
Fixpoint monotone (t0 : Q) (nows : list Q) : Prop :=
  match nows with
  | [] => True
  | now :: rest => t0 <= now /\ monotone now rest
  end.

Lemma countb_app p l1 l2 : countb p (l1 ++ l2) = (countb p l1 + countb p l2)%nat.
Proof. unfold countb. rewrite List.filter_app, length_app. reflexivity. Qed.

Lemma countb_split p q r l :
  (forall x, In x l -> p x = true -> q x = true \/ r x = true) ->
  (countb p l <= countb q l + countb r l)%nat.
Proof.
  unfold countb. induction l as [|x l IH]; intros H; cbn; [lia|].
  assert (IH' := IH (fun y Hy => H y (or_intror Hy))).
  pose proof (H x (or_introl eq_refl)) as Hx.
  destruct (p x), (q x), (r x); cbn; try lia.
Qed.

Lemma countb_none p l :
  (forall x, In x l -> p x = false) -> countb p l = 0%nat.
Proof.
  unfold countb. induction l as [|x l IH]; intros H; cbn; [reflexivity|].
  rewrite (H x (or_introl eq_refl)). apply IH. intros y Hy. apply H. right. exact Hy.
Qed.

Lemma countb_le p q l :
  (forall x, In x l -> p x = true -> q x = true) ->
  (countb p l <= countb q l)%nat.
Proof.
  intros H. pose proof (countb_split p q (fun _ => false) l) as S.
  rewrite (countb_none (fun _ => false) l) in S by reflexivity.
  rewrite Nat.add_0_r in S. apply S. intros x Hx Hp. left. auto.
Qed.

(** [x] falls in the second just before the window start. *)
Definition just_before (ws x : Q) : bool := Py.Qltb (ws - 1) x && Py.Qltb x ws.

(** What holds of the counters and of the slots taken so far ([hist]). *)
Record Inv (self : t) (hist : list Q) : Prop := {
  inv_count : (0 <= _actions_this_window self <= 95)%Z;
  inv_recent : forall x, In x hist -> x < _window_start self + 1;
  inv_current : (Z.of_nat (countb (since (_window_start self)) hist)
                 <= _actions_this_window self)%Z;
  inv_previous : (countb (just_before (_window_start self)) hist <= 95)%nat;
  inv_rolling : forall t, (countb (in_window t) hist <= 190)%nat
}.

Lemma in_window_true t x : in_window t x = true <-> t <= x /\ x < t + 1.
Proof.
  unfold in_window. rewrite andb_true_iff, Qle_bool_iff, PyFacts.Qltb_lt. reflexivity.
Qed.

Lemma since_true t x : since t x = true <-> t <= x.
Proof. apply Qle_bool_iff. Qed.

Lemma just_before_true ws x : just_before ws x = true <-> ws - 1 < x /\ x < ws.
Proof.
  unfold just_before. rewrite andb_true_iff, !PyFacts.Qltb_lt. reflexivity.
Qed.

Lemma bool_false_iff (b : bool) (P : Prop) : (b = true <-> P) -> ~ P -> b = false.
Proof. intros H N. destruct b; [exfalso; apply N, H; reflexivity | reflexivity]. Qed.

(** One pass preserves the invariant; a taken slot is added to the history. *)
Lemma attempt_preserves self hist now :
  Inv self hist -> _window_start self <= now ->
  let '(self', outcome) := attempt now self in
  Inv self' (match outcome with None => hist ++ [now] | Some _ => hist end) /\
  _window_start self' <= now.
Proof.
  intros [Hc Hr Hcur Hprev Hroll] Hmono. unfold attempt. cbv zeta.
  set (elapsed := now - _window_start self).
  (* the counters after the reset test *)
  assert (Hmid : exists mid,
            mid = (if Qle_bool 1 elapsed
                   then {| _window_start := now; _actions_this_window := 0 |} else self) /\
            Inv mid hist /\ _window_start mid <= now /\ now < _window_start mid + 1).
  { eexists; split; [reflexivity|].
    destruct (Qle_bool 1 elapsed) eqn:E.
    - apply Qle_bool_iff in E. unfold elapsed in E. cbn.
      split; [|split; lra]. constructor; cbn.
      + lia.
      + intros x Hx. specialize (Hr x Hx). lra.
      + rewrite countb_none; [lia|]. intros x Hx. specialize (Hr x Hx).
        apply (bool_false_iff _ _ (since_true now x)). lra.
      + assert (countb (just_before now) hist
                <= countb (since (_window_start self)) hist)%nat.
        { apply countb_le. intros x _ Hx. apply just_before_true in Hx.
          apply since_true. lra. }
        lia.
      + exact Hroll.
    - apply PyFacts.Qle_bool_false in E. unfold elapsed in E.
      split; [constructor; assumption|]. split; lra. }
  destruct Hmid as (mid & Emid & [Hc' Hr' Hcur' Hprev' Hroll'] & Hlo & Hhi).
  rewrite <- Emid. clear Emid.
  unfold config.MAX_ACTIONS_PER_SECOND.
  destruct (Z.ltb_spec (_actions_this_window mid) 95) as [Hlt|Hge].
  - cbn [_window_start _actions_this_window]. split; [|exact Hlo].
    assert (Hsince : countb (since (_window_start mid)) [now] = 1%nat).
    { unfold countb. cbn. assert (since (_window_start mid) now = true) as ->
        by (apply since_true; lra). reflexivity. }
    assert (Hjb : countb (just_before (_window_start mid)) [now] = 0%nat).
    { apply countb_none. intros x [<-|[]].
      apply (bool_false_iff _ _ (just_before_true _ _)). lra. }
    constructor; cbn [_window_start _actions_this_window].
    + lia.
    + intros x Hx. apply in_app_or in Hx as [Hx|[<-|[]]]; [auto | lra].
    + rewrite countb_app, Hsince. lia.
    + rewrite countb_app, Hjb. lia.
    + intros t. destruct (in_window t now) eqn:Ew.
      * apply in_window_true in Ew.
        pose proof (countb_split (in_window t) (since (_window_start mid))
                      (just_before (_window_start mid)) (hist ++ [now])) as S.
        rewrite !countb_app, Hsince, Hjb in S. rewrite countb_app.
        etransitivity; [apply S|lia].
        intros x _ Hx. apply in_window_true in Hx.
        destruct (Qlt_le_dec x (_window_start mid)) as [Hb|Hb].
        -- right. apply just_before_true. lra.
        -- left. apply since_true. exact Hb.
      * rewrite countb_app. unfold countb at 2. cbn. rewrite Ew. cbn.
        specialize (Hroll' t). lia.
  - split; [constructor; assumption | exact Hlo].
Qed.

Lemma attempts_preserve nows :
  forall self hist t0,
    Inv self hist -> _window_start self <= t0 -> monotone t0 nows ->
    Inv (fst (attempts self nows)) (hist ++ snd (attempts self nows)).
Proof.
  induction nows as [|now rest IH]; intros self hist t0 HI Hws Hm.
  - cbn. rewrite app_nil_r. exact HI.
  - destruct Hm as [Hle Hm]. cbn [attempts].
    pose proof (attempt_preserves self hist now HI ltac:(lra)) as Hstep.
    destruct (attempt now self) as [self1 outcome].
    destruct Hstep as [HI1 Hws1].
    specialize (IH self1 _ now HI1 Hws1 Hm).
    destruct (attempts self1 rest) as [final taken]. cbn [fst snd] in *.
    destruct outcome; [exact IH|].
    rewrite <- app_assoc in IH. exact IH.
Qed.

(** The counters as [__init__] sets them at clock reading [now]. *)
Definition fresh (now : Q) : t := {| _window_start := now; _actions_this_window := 0 |}.

Lemma fresh_inv now : Inv (fresh now) [].
Proof.
  constructor; cbn.
  - lia.
  - intros x [].
  - lia.
  - lia.
  - intros t. lia.
Qed.

(** Whatever passes are made through the limiter, by one [sync_symbol] or by
    several in turn, at clock readings that never go back: at most
    [MAX_ACTIONS_PER_SECOND] slots are taken since the start of the limiter's
    current window (the counter is reset only once a second has elapsed
    since that start), and at most twice that many in any rolling second. *)
Lemma attempts_budget (ws0 : Q) (nows : list Q) (t : Q) :
  monotone ws0 nows ->
  let final := fst (attempts (fresh ws0) nows) in
  let taken := snd (attempts (fresh ws0) nows) in
  (Z.of_nat (countb (since (_window_start final)) taken)
   <= config.MAX_ACTIONS_PER_SECOND)%Z /\
  (Z.of_nat (countb (in_window t) taken) <= 2 * config.MAX_ACTIONS_PER_SECOND)%Z.
Proof.
  intros Hm. cbv zeta.
  pose proof (attempts_preserve nows (fresh ws0) [] ws0 (fresh_inv ws0)
                ltac:(cbn; lra) Hm) as [Hc _ Hcur _ Hroll].
  cbn [app] in *. unfold config.MAX_ACTIONS_PER_SECOND. split.
  - lia.
  - specialize (Hroll t). lia.
Qed.

Fixpoint monotoneb (t0 : Q) (nows : list Q) : bool :=
  match nows with
  | [] => true
  | now :: rest => Qle_bool t0 now && monotoneb now rest
  end.

Lemma monotoneb_sound nows : forall t0, monotoneb t0 nows = true -> monotone t0 nows.
Proof.
  induction nows as [|now rest IH]; intros t0 H; cbn in *; [exact I|].
  apply andb_true_iff in H as [H1 H2]. split; [apply Qle_bool_iff, H1 | apply IH, H2].
Qed.

(** [n] clock readings one millisecond apart, from [start] on. *)
Definition spaced (start : Q) (n : nat) : list Q :=
  map (fun i => start + inject_Z (Z.of_nat i) / 1000) (seq 0 n).

Definition burst : list Q := spaced 0.9 95 ++ spaced 1 95.

(** C1, as stated, fails: the counter is reset when a second has elapsed
    since the window start, so 95 slots taken from 0.9 s on and 95 more taken
    from 1.0 s on all fall in the rolling second that starts at 0.9 s. *)
Lemma rolling_second_overshoot :
  monotone 0 burst /\
  countb (in_window 0.9) (snd (attempts (fresh 0) burst)) = 190%nat.
Proof.
  split.
  - apply monotoneb_sound. vm_compute. reflexivity.
  - vm_compute. reflexivity.
Qed.

End limiter_props.

(* ===================================================================== *)
(** ** The order-ladder manager *)

Module order_manager_props.
Import Py OrderLadderManager.

Lemma bind_ok {S A B} (m : M S A) (k : A -> M S B) s s' b :
  bind m k s = (s', Ok b) <->
  exists s1 a, m s = (s1, Ok a) /\ k a s1 = (s', Ok b).
Proof.
  unfold bind. destruct (m s) as [s1 [a|e]]; split.
  - intros H. eauto.
  - intros (? & ? & [= <- <-] & H). exact H.
  - discriminate.
  - intros (? & ? & [=] & _).
Qed.

Lemma bind_raise {S A B} (m : M S A) (k : A -> M S B) s s' e :
  bind m k s = (s', Raise e) <->
  m s = (s', Raise e) \/ exists s1 a, m s = (s1, Ok a) /\ k a s1 = (s', Raise e).
Proof.
  unfold bind. destruct (m s) as [s1 [a|e1]]; split.
  - intros H. right. eauto.
  - intros [[=] | (? & ? & [= <- <-] & H)]. exact H.
  - intros [= <- <-]. left. reflexivity.
  - intros [[= <- <-] | (? & ? & [=] & _)]. reflexivity.
Qed.

(** The live orders of one side of one symbol, if the symbol is known. *)
Definition live (self : t) (symbol : string) (side : Side) : option (odict OrderInfo.t) :=
  book side <$> active_orders self !! symbol.

(** Code that leaves the mirror alone, whether it returns or raises. *)
Definition keeps_orders {A} (m : M t A) : Prop :=
  forall self self' r, m self = (self', r) -> active_orders self' = active_orders self.

Lemma keeps_orders_bind {A B} (m : M t A) (k : A -> M t B) :
  keeps_orders m -> (forall a, keeps_orders (k a)) -> keeps_orders (bind m k).
Proof.
  intros Hm Hk self self' r H. unfold bind in H.
  destruct (m self) as [s1 [a|e]] eqn:E.
  - rewrite (Hk a _ _ _ H). apply (Hm _ _ _ E).
  - injection H as <- <-. apply (Hm _ _ _ E).
Qed.

Lemma keeps_orders_on_client {A} (m : M ExchangeClient.t A) : keeps_orders (on_client m).
Proof.
  intros self self' r H. unfold on_client in H.
  destruct (m (client self)) as [c r']. injection H as <- <-. reflexivity.
Qed.

Lemma keeps_orders_reserve fuel : keeps_orders (reserve_loop fuel).
Proof.
  induction fuel as [|fuel IH]; intros self self' r H; cbn in H.
  - injection H as <- <-. reflexivity.
  - destruct (Limiter.attempt (monotonic self) (limiter self)) as [l [d|]].
    + apply IH in H. exact H.
    + injection H as <- <-. reflexivity.
Qed.

Lemma keeps_orders_place level : keeps_orders (_throttled_place level).
Proof.
  apply keeps_orders_bind; [apply keeps_orders_reserve | intros; apply keeps_orders_on_client].
Qed.

Lemma keeps_orders_replace existing level : keeps_orders (_throttled_replace existing level).
Proof.
  apply keeps_orders_bind; [apply keeps_orders_reserve | intros; apply keeps_orders_on_client].
Qed.

Lemma keeps_orders_cancel info : keeps_orders (_throttled_cancel info).
Proof.
  apply keeps_orders_bind; [apply keeps_orders_reserve | intros; apply keeps_orders_on_client].
Qed.

(** An order comes back from the exchange with the level it was placed for. *)
Lemma place_order_level level c c' info :
  ExchangeClient.place_order level c = (c', Ok info) -> OrderInfo.level info = level.
Proof.
  unfold ExchangeClient.place_order. intros H.
  apply bind_ok in H as (c1 & cid & _ & H).
  destruct (config.SYMBOL_IDS !! OrderLevel.symbol level); [|discriminate].
  apply bind_ok in H as (c2 & oid & _ & H).
  apply bind_ok in H as (c3 & [] & _ & H).
  injection H as _ <-. reflexivity.
Qed.

Lemma throttled_place_level level self self' info :
  _throttled_place level self = (self', Ok info) -> OrderInfo.level info = level.
Proof.
  intros H. apply bind_ok in H as (s1 & [] & _ & H).
  unfold on_client in H.
  destruct (ExchangeClient.place_order level (client s1)) as [c r] eqn:E.
  injection H as _ ->. apply (place_order_level _ _ _ _ E).
Qed.

Lemma throttled_replace_level existing level self self' info :
  _throttled_replace existing level self = (self', Ok info) -> OrderInfo.level info = level.
Proof.
  intros H. apply bind_ok in H as (s1 & [] & _ & H).
  unfold on_client in H.
  destruct (ExchangeClient.replace_order _ level (client s1)) as [c r] eqn:E.
  injection H as _ ->. unfold ExchangeClient.replace_order in E.
  apply bind_ok in E as (c1 & [] & _ & E). apply (place_order_level _ _ _ _ E).
Qed.

(** A live order that carries the desired level needs no refresh. *)
Lemma fresh_order_matches info level :
  OrderInfo.level info = level -> 0 < OrderLevel.price level ->
  _needs_refresh info level = false.
Proof.
  intros <- Hp. unfold _needs_refresh, OrderInfo.size, OrderInfo.price.
  rewrite Z.eqb_refl. cbn [negb].
  unfold order_manager._bps_distance.
  set (p := OrderLevel.price (OrderInfo.level info)) in *.
  apply PyFacts.Qle_bool_false in Hp. rewrite Hp. cbn [orb]. cbv zeta.
  apply PyFacts.Qle_bool_false. apply PyFacts.Qle_bool_false in Hp.
  unfold config.MIN_MOVE_TO_REFRESH_BPS.
  assert (E : p - p == 0) by ring. rewrite E.
  change (Qabs 0) with 0.
  assert (E2 : 0 / ((p + p) / 2) * 10000 == 0) by (field; lra).
  rewrite E2. lra.
Qed.

Lemma od_get_set_eq {V} k (v : V) d : od_get k (od_set k v d) = Some v.
Proof.
  induction d as [|[k' v'] d IH]; cbn.
  - rewrite Z.eqb_refl. reflexivity.
  - destruct (Z.eqb_spec k' k) as [->|N]; cbn.
    + rewrite Z.eqb_refl. reflexivity.
    + destruct (Z.eqb_spec k' k); [contradiction | exact IH].
Qed.

Lemma od_get_set_ne {V} k k' (v : V) d : k <> k' -> od_get k' (od_set k v d) = od_get k' d.
Proof.
  intros Hne. induction d as [|[k0 v0] d IH]; cbn.
  - destruct (Z.eqb_spec k k'); [contradiction | reflexivity].
  - destruct (Z.eqb_spec k0 k) as [->|N]; cbn.
    + destruct (Z.eqb_spec k k'); [contradiction | reflexivity].
    + destruct (Z.eqb_spec k0 k'); [reflexivity | exact IH].
Qed.

Lemma od_get_del_ne {V} k k' (d : odict V) : k <> k' -> od_get k' (od_del k d) = od_get k' d.
Proof.
  intros Hne. unfold od_del. induction d as [|[k0 v0] d IH]; cbn; [reflexivity|].
  destruct (Z.eqb_spec k0 k) as [->|N]; cbn.
  - destruct (Z.eqb_spec k k'); [contradiction | exact IH].
  - destruct (Z.eqb_spec k0 k'); [reflexivity | exact IH].
Qed.

Lemma od_del_In {V} k k' (v : V) d : In (k', v) (od_del k d) <-> In (k', v) d /\ k' <> k.
Proof.
  unfold od_del. rewrite List.filter_In. cbn. rewrite negb_true_iff, Z.eqb_neq. reflexivity.
Qed.

Lemma live_with_active_orders self symbol side b d :
  active_orders self !! symbol = Some b ->
  live (with_active_orders (<[symbol := with_book side d b]> (active_orders self)) self)
       symbol side = Some d /\
  live (with_active_orders (<[symbol := with_book side d b]> (active_orders self)) self)
       symbol (opposite side) = live self symbol (opposite side).
Proof.
  intros Hb. unfold live. cbn. rewrite lookup_insert_eq, Hb. cbn.
  destruct side; split; reflexivity.
Qed.

Lemma live_of_orders self self' symbol side :
  active_orders self' = active_orders self -> live self' symbol side = live self symbol side.
Proof. unfold live. intros ->. reflexivity. Qed.

Lemma side_book_inv symbol side self self' r :
  side_book symbol side self = (self', r) ->
  self' = self /\
  match r with
  | Ok d => live self symbol side = Some d
  | Raise _ => live self symbol side = None
  end.
Proof.
  unfold side_book, live. destruct (active_orders self !! symbol) as [b|];
    intros [= <- <-]; split; reflexivity.
Qed.

Lemma store_level_ok symbol side k info self self' :
  store_level symbol side k info self = (self', Ok tt) ->
  exists d, live self symbol side = Some d /\
            live self' symbol side = Some (od_set k info d) /\
            live self' symbol (opposite side) = live self symbol (opposite side).
Proof.
  unfold store_level. destruct (active_orders self !! symbol) as [b|] eqn:Hb; [|discriminate].
  intros [= <-]. exists (book side b).
  destruct (live_with_active_orders self symbol side b (od_set k info (book side b)) Hb)
    as [H1 H2].
  split; [|split; assumption]. unfold live. rewrite Hb. reflexivity.
Qed.

Lemma delete_level_ok symbol side k self self' :
  delete_level symbol side k self = (self', Ok tt) ->
  exists d, live self symbol side = Some d /\
            live self' symbol side = Some (od_del k d) /\
            live self' symbol (opposite side) = live self symbol (opposite side).
Proof.
  unfold delete_level. destruct (active_orders self !! symbol) as [b|] eqn:Hb; [|discriminate].
  destruct (od_get k (book side b)); [|discriminate].
  intros [= <-]. exists (book side b).
  destruct (live_with_active_orders self symbol side b (od_del k (book side b)) Hb)
    as [H1 H2].
  split; [|split; assumption]. unfold live. rewrite Hb. reflexivity.
Qed.

Lemma store_level_raise symbol side k info self self' e :
  store_level symbol side k info self = (self', Raise e) -> self' = self.
Proof.
  unfold store_level. destruct (active_orders self !! symbol); intros [=]. congruence.
Qed.

Lemma delete_level_raise symbol side k self self' e :
  delete_level symbol side k self = (self', Raise e) -> self' = self.
Proof.
  unfold delete_level. destruct (active_orders self !! symbol) as [b|]; [|intros [=]; congruence].
  destruct (od_get k (book side b)); intros [=]. congruence.
Qed.

(** What one pass of the loop of [_sync_side] leaves when it returns. *)
Lemma sync_level_ok symbol side level self self' :
  0 < OrderLevel.price level ->
  sync_level symbol side level self = (self', Ok tt) ->
  exists d d' e,
    live self symbol side = Some d /\
    live self' symbol side = Some d' /\
    od_get (OrderLevel.level_index level) d' = Some e /\
    _needs_refresh e level = false /\
    (forall k, k <> OrderLevel.level_index level -> od_get k d' = od_get k d) /\
    live self' symbol (opposite side) = live self symbol (opposite side).
Proof.
  intros Hp H. unfold sync_level in H.
  apply bind_ok in H as (s1 & d & Hd & H).
  apply side_book_inv in Hd as [-> Hd]. exists d.
  destruct (od_get (OrderLevel.level_index level) d) as [existing|] eqn:Hget.
  - destruct (_needs_refresh existing level) eqn:Hn.
    + apply bind_ok in H as (s2 & info & Hrep & H).
      pose proof (throttled_replace_level _ _ _ _ _ Hrep) as Hlev.
      apply keeps_orders_replace in Hrep.
      apply store_level_ok in H as (d0 & Hd0 & Hd' & Hopp).
      rewrite (live_of_orders self s2 symbol side Hrep) in Hd0.
      rewrite (live_of_orders self s2 symbol (opposite side) Hrep) in Hopp.
      assert (d0 = d) as -> by congruence.
      exists (od_set (OrderLevel.level_index level) info d), info.
      split; [assumption|]. split; [assumption|].
      split; [apply od_get_set_eq|]. split; [apply fresh_order_matches; assumption|].
      split; [|assumption]. intros k Hk. apply od_get_set_ne. congruence.
    + injection H as <-. exists d, existing. auto 10.
  - apply bind_ok in H as (s2 & info & Hpl & H).
    pose proof (throttled_place_level _ _ _ _ Hpl) as Hlev.
    apply keeps_orders_place in Hpl.
    apply store_level_ok in H as (d0 & Hd0 & Hd' & Hopp).
    rewrite (live_of_orders self s2 symbol side Hpl) in Hd0.
    rewrite (live_of_orders self s2 symbol (opposite side) Hpl) in Hopp.
    assert (d0 = d) as -> by congruence.
    exists (od_set (OrderLevel.level_index level) info d), info.
    split; [assumption|]. split; [assumption|].
    split; [apply od_get_set_eq|]. split; [apply fresh_order_matches; assumption|].
    split; [|assumption]. intros k Hk. apply od_get_set_ne. congruence.
Qed.

(** Every desired level has a live order that needs no refresh. *)
Definition settled (o : option (odict OrderInfo.t)) (levels : list OrderLevel.t) : Prop :=
  Forall (fun level =>
            exists d e, o = Some d /\
                        od_get (OrderLevel.level_index level) d = Some e /\
                        _needs_refresh e level = false) levels.

(** Every live order sits at a desired index. *)
Definition pruned (o : option (odict OrderInfo.t)) (indexes : gset Z) : Prop :=
  exists d, o = Some d /\ forall k e, In (k, e) d -> k ∈ indexes.

(** A desired ladder as the data model has it: one level per index, prices
    positive. *)
Record well_formed_ladder (levels : list OrderLevel.t) : Prop := {
  unique_indexes : NoDup (map OrderLevel.level_index levels);
  positive_prices : Forall (fun level => 0 < OrderLevel.price level) levels
}.

Lemma sync_side_frame symbol side levels :
  Forall (fun level => 0 < OrderLevel.price level) levels ->
  forall self self' d,
    _sync_side symbol side levels self = (self', Ok tt) ->
    live self symbol side = Some d ->
    exists d',
      live self' symbol side = Some d' /\
      (forall k, ~ In k (map OrderLevel.level_index levels) -> od_get k d' = od_get k d) /\
      live self' symbol (opposite side) = live self symbol (opposite side).
Proof.
  induction 1 as [|level rest Hp _ IH]; intros self self' d H Hd.
  - injection H as <-. exists d. auto.
  - cbn in H. apply bind_ok in H as (s1 & [] & Hstep & H).
    apply (sync_level_ok _ _ _ _ _ Hp) in Hstep
      as (d0 & d1 & e & Hd0 & Hd1 & _ & _ & Hkeep & Hopp).
    assert (d0 = d) as -> by congruence.
    destruct (IH s1 self' d1 H Hd1) as (d' & Hd' & Hkeep' & Hopp').
    exists d'. split; [assumption|]. split; [|congruence].
    intros k Hk. cbn in Hk. rewrite Hkeep' by tauto. apply Hkeep. intros ->. tauto.
Qed.

Lemma sync_side_settles symbol side levels :
  well_formed_ladder levels ->
  forall self self',
    _sync_side symbol side levels self = (self', Ok tt) ->
    settled (live self' symbol side) levels /\
    live self' symbol (opposite side) = live self symbol (opposite side).
Proof.
  intros [Hnd Hpos]. induction levels as [|level rest IH]; intros self self' H.
  - injection H as <-. split; [constructor | reflexivity].
  - cbn in Hnd. apply NoDup_cons in Hnd as [Hfresh Hnd].
    apply Forall_cons in Hpos as [Hp Hpos].
    cbn in H. apply bind_ok in H as (s1 & [] & Hstep & H).
    apply (sync_level_ok _ _ _ _ _ Hp) in Hstep
      as (d0 & d1 & e & Hd0 & Hd1 & Hget & Hfine & _ & Hopp).
    destruct (IH Hnd Hpos s1 self' H) as [Hrest Hopp'].
    destruct (sync_side_frame symbol side rest Hpos s1 self' d1 H Hd1)
      as (d' & Hd' & Hkeep & _).
    split; [|congruence].
    constructor; [|exact Hrest].
    exists d', e. split; [assumption|]. split; [|assumption].
    rewrite Hkeep; [assumption|]. rewrite <- list_elem_of_In. exact Hfresh.
Qed.

Lemma side_book_live symbol side self d :
  live self symbol side = Some d -> side_book symbol side self = (self, Ok d).
Proof.
  unfold live, side_book. destruct (active_orders self !! symbol); cbn; [|discriminate].
  intros [= <-]. reflexivity.
Qed.

Lemma sync_side_settled symbol side levels self :
  settled (live self symbol side) levels ->
  _sync_side symbol side levels self = (self, Ok tt).
Proof.
  induction 1 as [|level rest (d & e & Hd & Hget & Hfine) _ IH]; [reflexivity|].
  cbn. unfold bind at 1. unfold sync_level. unfold bind at 1.
  rewrite (side_book_live _ _ _ _ Hd), Hget, Hfine. cbn. exact IH.
Qed.

Lemma prune_loop_ok symbol side indexes items :
  forall self self' d,
    for_each (prune_entry symbol side indexes) items self = (self', Ok tt) ->
    live self symbol side = Some d ->
    exists d',
      live self' symbol side = Some d' /\
      (forall k e, In (k, e) d' ->
                   In (k, e) d /\ (k ∈ indexes \/ ~ In k (map fst items))) /\
      (forall k, k ∈ indexes -> od_get k d' = od_get k d) /\
      live self' symbol (opposite side) = live self symbol (opposite side).
Proof.
  induction items as [|[k0 e0] rest IH]; intros self self' d H Hd.
  - injection H as <-. exists d. split; [assumption|]. split; [|auto].
    intros k e Hin. split; [assumption|]. right. intros [].
  - cbn in H. apply bind_ok in H as (s1 & [] & Hstep & H).
    destruct (decide (k0 ∈ indexes)) as [Hin0|Hout0].
    + injection Hstep as <-.
      destruct (IH self self' d H Hd) as (d' & Hd' & Hsub & Hkeep & Hopp).
      exists d'. split; [assumption|]. split; [|auto].
      intros k e Hin. destruct (Hsub k e Hin) as [Hind Hk]. split; [assumption|].
      destruct (Z.eq_dec k k0) as [->|Hne]; [left; assumption|].
      destruct Hk as [Hk|Hk]; [left; assumption|]. right. cbn. intros [?|?]; [congruence|tauto].
    + apply bind_ok in Hstep as (s0 & [] & Hcancel & Hdel).
      apply keeps_orders_cancel in Hcancel.
      apply delete_level_ok in Hdel as (d0 & Hd0 & Hd1 & Hopp1).
      rewrite (live_of_orders self s0 symbol side Hcancel) in Hd0.
      rewrite (live_of_orders self s0 symbol (opposite side) Hcancel) in Hopp1.
      assert (d0 = d) as -> by congruence.
      destruct (IH s1 self' _ H Hd1) as (d' & Hd' & Hsub & Hkeep & Hopp).
      exists d'. split; [assumption|]. split; [|split; [|congruence]].
      * intros k e Hin. destruct (Hsub k e Hin) as [Hind Hk].
        apply od_del_In in Hind as [Hind Hne]. split; [assumption|].
        destruct Hk as [Hk|Hk]; [left; assumption|]. right. cbn. intros [?|?]; [congruence|tauto].
      * intros k Hk. rewrite (Hkeep k Hk). apply od_get_del_ne. congruence.
Qed.

Lemma prune_levels_ok symbol side indexes self self' :
  _prune_levels symbol side indexes self = (self', Ok tt) ->
  exists d,
    live self symbol side = Some d /\
    pruned (live self' symbol side) indexes /\
    (forall d', live self' symbol side = Some d' ->
                forall k, k ∈ indexes -> od_get k d' = od_get k d) /\
    live self' symbol (opposite side) = live self symbol (opposite side).
Proof.
  intros H. unfold _prune_levels in H.
  apply bind_ok in H as (s1 & items & Hitems & H).
  apply side_book_inv in Hitems as [-> Hitems].
  destruct (prune_loop_ok _ _ _ _ _ _ _ H Hitems) as (d' & Hd' & Hsub & Hkeep & Hopp).
  exists items. split; [assumption|]. split; [|split; [|assumption]].
  - exists d'. split; [assumption|]. intros k e Hin.
    destruct (Hsub k e Hin) as [Hind [Hk|Hk]]; [assumption|].
    exfalso. apply Hk. apply in_map_iff. exists (k, e). auto.
  - intros d'' Hd''. assert (d'' = d') as -> by congruence. exact Hkeep.
Qed.

Lemma prune_loop_pruned symbol side indexes items self :
  (forall k e, In (k, e) items -> k ∈ indexes) ->
  for_each (prune_entry symbol side indexes) items self = (self, Ok tt).
Proof.
  induction items as [|[k0 e0] rest IH]; intros Hall; [reflexivity|].
  cbn. unfold bind at 1.
  destruct (decide (k0 ∈ indexes)) as [_|Hout]; [|exfalso; apply Hout, (Hall k0 e0); left; reflexivity].
  cbn. apply IH. intros k e Hin. apply (Hall k e). right. exact Hin.
Qed.

Lemma prune_levels_pruned symbol side indexes self :
  pruned (live self symbol side) indexes ->
  _prune_levels symbol side indexes self = (self, Ok tt).
Proof.
  intros (d & Hd & Hall). unfold _prune_levels, bind.
  rewrite (side_book_live _ _ _ _ Hd). apply prune_loop_pruned. exact Hall.
Qed.

Lemma settled_after_prune o o' levels :
  settled o levels ->
  (forall d, o = Some d -> exists d', o' = Some d' /\
     forall k, k ∈ level_indexes levels -> od_get k d' = od_get k d) ->
  settled o' levels.
Proof.
  intros Hs Hkeep. unfold settled in *. rewrite Forall_forall in *.
  intros level Hin. destruct (Hs level Hin) as (d & e & Hd & Hget & Hfine).
  destruct (Hkeep d Hd) as (d' & Hd' & Hk).
  exists d', e. split; [assumption|]. split; [|assumption].
  rewrite Hk; [assumption|]. unfold level_indexes.
  apply elem_of_list_to_set, list_elem_of_In, in_map. apply list_elem_of_In. exact Hin.
Qed.

Lemma settled_through_prune symbol side indexes levels self self' :
  indexes = level_indexes levels ->
  _prune_levels symbol side indexes self = (self', Ok tt) ->
  settled (live self symbol side) levels ->
  settled (live self' symbol side) levels /\ pruned (live self' symbol side) indexes.
Proof.
  intros -> H Hs.
  apply prune_levels_ok in H as (d & Hd & Hpr & Hkeep & _).
  split; [|exact Hpr].
  apply (settled_after_prune _ _ _ Hs). intros d0 Hd0.
  destruct Hpr as (d' & Hd' & _). exists d'. split; [assumption|].
  assert (d0 = d) as -> by congruence. apply Hkeep. assumption.
Qed.

(** C8.  For desired ladders as the data model has them (one level per
    index, positive prices): when a call of [sync_symbol] returns, the same
    call repeated at once returns too and leaves the manager exactly as it
    was: no slot is reserved, no request is sent to the gateway, the mirror
    is unchanged, because every live order matches its desired level. *)
Theorem sync_symbol_idempotent (symbol : string) (bids asks : list OrderLevel.t)
    (self self' : t) :
  well_formed_ladder bids -> well_formed_ladder asks ->
  sync_symbol symbol bids asks self = (self', Ok tt) ->
  sync_symbol symbol bids asks self' = (self', Ok tt).
Proof.
  intros Hb Ha H. unfold sync_symbol in H.
  apply bind_ok in H as (s1 & [] & H1 & H).
  apply bind_ok in H as (s2 & [] & H2 & H).
  apply bind_ok in H as (s3 & [] & H3 & H4).
  destruct (sync_side_settles symbol BID bids Hb _ _ H1) as [Sb1 _].
  destruct (sync_side_settles symbol ASK asks Ha _ _ H2) as [Sa2 Eb2].
  cbn [opposite] in Eb2. rewrite <- Eb2 in Sb1.
  destruct (settled_through_prune _ _ _ bids _ _ eq_refl H3 Sb1) as [Sb3 Pb3].
  pose proof (prune_levels_ok _ _ _ _ _ H3) as (_ & _ & _ & _ & Ea3).
  cbn [opposite] in Ea3. rewrite <- Ea3 in Sa2.
  destruct (settled_through_prune _ _ _ asks _ _ eq_refl H4 Sa2) as [Sa4 Pa4].
  pose proof (prune_levels_ok _ _ _ _ _ H4) as (_ & _ & _ & _ & Eb4).
  cbn [opposite] in Eb4. rewrite <- Eb4 in Sb3, Pb3.
  unfold sync_symbol, bind.
  rewrite (sync_side_settled _ _ _ _ Sb3), (sync_side_settled _ _ _ _ Sa4).
  rewrite (prune_levels_pruned _ _ _ _ Pb3). apply prune_levels_pruned. exact Pa4.
Qed.

Definition accepted (r : ExchangeClient.Reply) : Prop :=
  match r with ExchangeClient.Accepted _ => True | ExchangeClient.Rejected => False end.

Definition returned {A} (r : result A) : Prop :=
  match r with Ok _ => True | Raise _ => False end.

(** Code over a state that holds the client (found by [view]) consumes the
    gateway's answers in order and returns only if it met no rejection. *)
Definition consumes {S A} (view : S -> ExchangeClient.t) (m : M S A) : Prop :=
  forall s s' r,
    m s = (s', r) ->
    exists used,
      ExchangeClient.replies (view s) = used ++ ExchangeClient.replies (view s') /\
      (returned r -> Forall accepted used).

Lemma consumes_bind {S A B} view (m : M S A) (k : A -> M S B) :
  consumes view m -> (forall a, consumes view (k a)) -> consumes view (bind m k).
Proof.
  intros Hm Hk s s' r H. unfold bind in H.
  destruct (m s) as [s1 [a|e]] eqn:E.
  - destruct (Hm _ _ _ E) as (u1 & E1 & A1), (Hk a _ _ _ H) as (u2 & E2 & A2).
    exists (u1 ++ u2). split; [rewrite E1, E2; apply app_assoc|].
    intros Hr. apply Forall_app. split; [apply A1; exact I | apply A2; exact Hr].
  - injection H as <- <-. destruct (Hm _ _ _ E) as (u1 & E1 & _).
    exists u1. split; [exact E1 | intros []].
Qed.

Lemma consumes_for_each {S A} view (body : A -> M S unit) l :
  (forall x, consumes view (body x)) -> consumes view (for_each body l).
Proof.
  intros Hb. induction l as [|x l IH]; cbn.
  - intros s s' r [= <- <-]. exists []. split; [reflexivity | constructor].
  - apply consumes_bind; [apply Hb | intros _; exact IH].
Qed.

(** Code that does not talk to the gateway at all. *)
Lemma consumes_silent {S A} view (m : M S A) :
  (forall s s' r, m s = (s', r) ->
                  ExchangeClient.replies (view s') = ExchangeClient.replies (view s)) ->
  consumes view m.
Proof.
  intros H s s' r E. exists []. rewrite (H _ _ _ E). split; [reflexivity | constructor].
Qed.

Lemma consumes_gateway_call request : consumes id (ExchangeClient.gateway_call request).
Proof.
  intros c c' r H. unfold ExchangeClient.gateway_call in H.
  destruct (ExchangeClient.replies c) as [|[order_id|] rest] eqn:E;
    injection H as <- <-; unfold id; cbn [ExchangeClient.replies]; rewrite ?E.
  - exists []. split; [reflexivity | intros []].
  - exists [ExchangeClient.Accepted order_id]. split; [reflexivity|].
    intros _. repeat constructor.
  - exists [ExchangeClient.Rejected]. split; [reflexivity | intros []].
Qed.

Lemma consumes_place_order level : consumes id (ExchangeClient.place_order level).
Proof.
  unfold ExchangeClient.place_order. apply consumes_bind.
  - apply consumes_silent. intros c c' r [= <- <-]. reflexivity.
  - intros client_id. destruct (config.SYMBOL_IDS !! OrderLevel.symbol level).
    + apply consumes_bind; [apply consumes_gateway_call|]. intros order_id.
      apply consumes_bind.
      * apply consumes_silent. intros c c' r [= <- <-]. reflexivity.
      * intros _. apply consumes_silent. intros c c' r [= <- <-]. reflexivity.
    + apply consumes_silent. intros c c' r [= <- <-]. reflexivity.
Qed.

Lemma consumes_cancel_order order_id : consumes id (ExchangeClient.cancel_order order_id).
Proof.
  intros c c' r H. unfold ExchangeClient.cancel_order in H.
  revert H. apply consumes_bind; [apply consumes_gateway_call|].
  intros _. apply consumes_silent. intros c0 c1 r0 [= <- <-]. reflexivity.
Qed.

Lemma consumes_replace_order order_id level :
  consumes id (ExchangeClient.replace_order order_id level).
Proof.
  apply consumes_bind; [apply consumes_cancel_order | intros _; apply consumes_place_order].
Qed.

Lemma consumes_on_client {A} (m : M ExchangeClient.t A) :
  consumes id m -> consumes client (on_client m).
Proof.
  intros Hm self self' r H. unfold on_client in H.
  destruct (m (client self)) as [c r'] eqn:E. injection H as <- <-.
  apply (Hm _ _ _ E).
Qed.

Lemma reserve_loop_client fuel self self' r :
  reserve_loop fuel self = (self', r) -> client self' = client self.
Proof.
  revert self. induction fuel as [|fuel IH]; intros self H; cbn in H.
  - injection H as <- <-. reflexivity.
  - destruct (Limiter.attempt (monotonic self) (limiter self)) as [l [d|]].
    + apply IH in H. exact H.
    + injection H as <- <-. reflexivity.
Qed.

Lemma consumes_reserve : consumes client _reserve_action_slot.
Proof.
  apply consumes_silent. intros s s' r H.
  rewrite (reserve_loop_client _ _ _ _ H). reflexivity.
Qed.

Lemma consumes_sync_level symbol side level : consumes client (sync_level symbol side level).
Proof.
  assert (Hstore : forall k info, consumes client (store_level symbol side k info)).
  { intros k info. apply consumes_silent. intros s s' r H. unfold store_level in H.
    destruct (active_orders s !! symbol); injection H as <- <-; reflexivity. }
  unfold sync_level. apply consumes_bind.
  - apply consumes_silent. intros s s' r H. apply side_book_inv in H as [-> _]. reflexivity.
  - intros d. destruct (od_get (OrderLevel.level_index level) d) as [existing|].
    + destruct (_needs_refresh existing level).
      * apply consumes_bind; [|intros; apply Hstore].
        apply consumes_bind; [apply consumes_reserve|]. intros _.
        apply consumes_on_client, consumes_replace_order.
      * apply consumes_silent. intros s s' r [= <- <-]. reflexivity.
    + apply consumes_bind; [|intros; apply Hstore].
      apply consumes_bind; [apply consumes_reserve|]. intros _.
      apply consumes_on_client, consumes_place_order.
Qed.

Lemma consumes_prune_entry symbol side indexes entry :
  consumes client (prune_entry symbol side indexes entry).
Proof.
  destruct entry as [k info]. unfold prune_entry.
  destruct (decide (k ∈ indexes)).
  - apply consumes_silent. intros s s' r [= <- <-]. reflexivity.
  - apply consumes_bind.
    + apply consumes_bind; [apply consumes_reserve|]. intros _.
      apply consumes_on_client, consumes_cancel_order.
    + intros _. apply consumes_silent. intros s s' r H. unfold delete_level in H.
      destruct (active_orders s !! symbol) as [b|]; [|injection H as <- <-; reflexivity].
      destruct (od_get k (book side b)); injection H as <- <-; reflexivity.
Qed.

Lemma consumes_sync_symbol symbol bids asks : consumes client (sync_symbol symbol bids asks).
Proof.
  assert (Hs : forall side levels, consumes client (_sync_side symbol side levels)).
  { intros. apply consumes_for_each. intros. apply consumes_sync_level. }
  assert (Hp : forall side indexes, consumes client (_prune_levels symbol side indexes)).
  { intros. apply consumes_bind.
    - apply consumes_silent. intros s s' r H. apply side_book_inv in H as [-> _]. reflexivity.
    - intros items. apply consumes_for_each. intros. apply consumes_prune_entry. }
  unfold sync_symbol. repeat (apply consumes_bind; [auto | intros _]). auto.
Qed.

(** A loop stops at the first pass that raises. *)
Lemma for_each_stops {S A} (body : A -> M S unit) pre x post s s1 s2 e :
  for_each body pre s = (s1, Ok tt) ->
  body x s1 = (s2, Raise e) ->
  for_each body (pre ++ x :: post) s = (s2, Raise e).
Proof.
  revert s. induction pre as [|y pre IH]; intros s Hpre Hx; cbn in *.
  - injection Hpre as <-. unfold bind. rewrite Hx. reflexivity.
  - apply bind_ok in Hpre as (s0 & [] & Hy & Hpre). unfold bind. rewrite Hy.
    apply IH; assumption.
Qed.

Lemma sync_level_raise symbol side level self self' e :
  sync_level symbol side level self = (self', Raise e) ->
  active_orders self' = active_orders self.
Proof.
  unfold sync_level. intros H.
  apply bind_raise in H as [H | (s1 & d & Hd & H)].
  - apply side_book_inv in H as [-> _]. reflexivity.
  - apply side_book_inv in Hd as [-> _].
    destruct (od_get (OrderLevel.level_index level) d) as [existing|].
    + destruct (_needs_refresh existing level); [|discriminate].
      apply bind_raise in H as [H | (s2 & info & Hrep & H)].
      * apply (keeps_orders_replace _ _ _ _ _ H).
      * apply store_level_raise in H as ->. apply (keeps_orders_replace _ _ _ _ _ Hrep).
    + apply bind_raise in H as [H | (s2 & info & Hpl & H)].
      * apply (keeps_orders_place _ _ _ _ H).
      * apply store_level_raise in H as ->. apply (keeps_orders_place _ _ _ _ Hpl).
Qed.

Lemma prune_entry_raise symbol side indexes entry self self' e :
  prune_entry symbol side indexes entry self = (self', Raise e) ->
  active_orders self' = active_orders self.
Proof.
  destruct entry as [k info]. unfold prune_entry.
  destruct (decide (k ∈ indexes)); [discriminate|]. intros H.
  apply bind_raise in H as [H | (s1 & [] & Hc & H)].
  - apply (keeps_orders_cancel _ _ _ _ H).
  - apply delete_level_raise in H as ->. apply (keeps_orders_cancel _ _ _ _ Hc).
Qed.

(** The loop of [_reserve_action_slot] returns within two passes: after the
    sleep the window has elapsed and the counter starts again from zero. *)
Lemma reserve_loop_returns self :
  exists self', _reserve_action_slot self = (self', Ok tt).
Proof.
  unfold _reserve_action_slot. cbn [reserve_loop].
  destruct (Limiter.attempt (monotonic self) (limiter self)) as [l [d|]] eqn:E1;
    [|eexists; reflexivity].
  unfold Limiter.attempt in E1. cbv zeta in E1.
  destruct (Qle_bool 1 (monotonic self - Limiter._window_start (limiter self))) eqn:Ew.
  - cbn in E1. discriminate.
  - destruct (Limiter._actions_this_window (limiter self) <? config.MAX_ACTIONS_PER_SECOND)%Z;
      [discriminate|].
    injection E1 as <- <-. cbn [monotonic limiter with_limiter].
    unfold Limiter.attempt. cbv zeta.
    set (elapsed := monotonic self - Limiter._window_start (limiter self)) in *.
    assert (Hw : Qle_bool 1 (monotonic self + Qmax 0 (1 - elapsed)
                            - Limiter._window_start (limiter self)) = true).
    { apply Qle_bool_iff. pose proof (Q.le_max_r 0 (1 - elapsed)). unfold elapsed in *. lra. }
    rewrite Hw. cbn. eexists. reflexivity.
Qed.

Definition bid (index : Z) (price : Q) (size : Z) : OrderLevel.t :=
  {| OrderLevel.symbol := "ETF"; OrderLevel.side := BID;
     OrderLevel.level_index := index; OrderLevel.price := price;
     OrderLevel.size := size |}.

(** A manager whose mirror holds one ETF bid at index 0, priced 100, and
    whose gateway will reject the next request. *)
Definition stale_manager : t :=
  fst (sync_symbol "ETF" [bid 0 100 400] []
         (init (ExchangeClient.init [ExchangeClient.Accepted 7; ExchangeClient.Rejected])
               config.DEFAULT_SYMBOL_CONFIG 0)).

(** The price of the live ETF bid at [index], if there is one. *)
Definition live_price (self : t) (index : Z) : option Q :=
  match live self "ETF" BID with
  | None => None
  | Some d => OrderInfo.price <$> od_get index d
  end.

(** C2, as stated, fails: [sync_symbol] has no exception handler.  The
    gateway rejects the replacement of level 0; the error leaves
    [sync_symbol], the stale entry of level 0 stays in the mirror, and level 1
    is never attempted (the rejected cancel is the last request sent). *)
Lemma rejected_replace_aborts_sync :
  live_price stale_manager 0 = Some 100 /\
  snd (sync_symbol "ETF" [bid 0 101 400; bid 1 99 600] [] stale_manager)
  = Raise GatewayError /\
  live_price (fst (sync_symbol "ETF" [bid 0 101 400; bid 1 99 600] [] stale_manager)) 0
  = Some 100 /\
  live_price (fst (sync_symbol "ETF" [bid 0 101 400; bid 1 99 600] [] stale_manager)) 1
  = None /\
  length (ExchangeClient.sent
            (client (fst (sync_symbol "ETF" [bid 0 101 400; bid 1 99 600] []
                            stale_manager)))) = 2%nat.
Proof. vm_compute. repeat split. Qed.

(** C2, amended.  [sync_symbol] returns normally only if the gateway
    rejected nothing during the call.  When a pass of [_sync_side] (a place or
    a replace) or of [_prune_levels] (a cancel) raises, the loop ends there
    with that exception, the levels after it are not processed, and the
    mirror is as the passes before left it: no entry is removed.  The
    exception of the first phase that raises is the exception of
    [sync_symbol], with the state reached at that point. *)
Theorem sync_symbol_failure_propagates :
  (forall symbol bids asks self self',
     sync_symbol symbol bids asks self = (self', Ok tt) ->
     exists used,
       ExchangeClient.replies (client self)
       = used ++ ExchangeClient.replies (client self') /\
       Forall accepted used) /\
  (forall symbol side pre level post self s1 s2 e,
     _sync_side symbol side pre self = (s1, Ok tt) ->
     sync_level symbol side level s1 = (s2, Raise e) ->
     _sync_side symbol side (pre ++ level :: post) self = (s2, Raise e) /\
     active_orders s2 = active_orders s1) /\
  (forall symbol side indexes pre entry post self s1 s2 e,
     live self symbol side = Some (pre ++ entry :: post) ->
     for_each (prune_entry symbol side indexes) pre self = (s1, Ok tt) ->
     prune_entry symbol side indexes entry s1 = (s2, Raise e) ->
     _prune_levels symbol side indexes self = (s2, Raise e) /\
     active_orders s2 = active_orders s1) /\
  (forall symbol bids asks self self' e,
     sync_symbol symbol bids asks self = (self', Raise e) <->
     _sync_side symbol BID bids self = (self', Raise e) \/
     exists s1,
       _sync_side symbol BID bids self = (s1, Ok tt) /\
       (_sync_side symbol ASK asks s1 = (self', Raise e) \/
        exists s2,
          _sync_side symbol ASK asks s1 = (s2, Ok tt) /\
          (_prune_levels symbol BID (level_indexes bids) s2 = (self', Raise e) \/
           exists s3,
             _prune_levels symbol BID (level_indexes bids) s2 = (s3, Ok tt) /\
             _prune_levels symbol ASK (level_indexes asks) s3 = (self', Raise e)))).
Proof.
  split; [|split; [|split]].
  - intros symbol bids asks self self' H.
    destruct (consumes_sync_symbol symbol bids asks _ _ _ H) as (used & E & A).
    exists used. split; [exact E | apply A; exact I].
  - intros symbol side pre level post self s1 s2 e Hpre Hx. split.
    + apply (for_each_stops _ _ _ _ _ _ _ _ Hpre Hx).
    + apply (sync_level_raise _ _ _ _ _ _ Hx).
  - intros symbol side indexes pre entry post self s1 s2 e Hd Hpre Hx. split.
    + unfold _prune_levels, bind. rewrite (side_book_live _ _ _ _ Hd).
      apply (for_each_stops _ _ _ _ _ _ _ _ Hpre Hx).
    + apply (prune_entry_raise _ _ _ _ _ _ _ Hx).
  - intros symbol bids asks self self' e. unfold sync_symbol. split.
    + intros H.
      apply bind_raise in H as [H | (s1 & [] & H1 & H)]; [left; exact H|].
      right. exists s1. split; [exact H1|].
      apply bind_raise in H as [H | (s2 & [] & H2 & H)]; [left; exact H|].
      right. exists s2. split; [exact H2|].
      apply bind_raise in H as [H | (s3 & [] & H3 & H)]; [left; exact H|].
      right. exists s3. split; [exact H3 | exact H].
    + unfold bind.
      intros [H | (s1 & H1 & [H | (s2 & H2 & [H | (s3 & H3 & H)])])].
      * rewrite H. reflexivity.
      * rewrite H1, H. reflexivity.
      * rewrite H1, H2, H. reflexivity.
      * rewrite H1, H2, H3, H. reflexivity.
Qed.

(** C2 amended, on the rejected replacement of the counterexample. *)
Lemma sync_symbol_failure_propagates_witness :
  _sync_side "ETF" BID ([] ++ bid 0 101 400 :: [bid 1 99 600]) stale_manager
  = (fst (sync_level "ETF" BID (bid 0 101 400) stale_manager), Raise GatewayError) /\
  active_orders (fst (sync_level "ETF" BID (bid 0 101 400) stale_manager))
  = active_orders stale_manager.
Proof.
  apply (proj1 (proj2 sync_symbol_failure_propagates)
           "ETF"%string BID [] (bid 0 101 400) [bid 1 99 600]
           stale_manager stale_manager).
  - reflexivity.
  - vm_compute. reflexivity.
Defined.

(** Without a positive price a live order never matches: the distance is
    infinite and the level is refreshed on every call. *)
Lemma nonpositive_price_always_refreshes info level :
  OrderLevel.price level <= 0 -> _needs_refresh info level = true.
Proof.
  intros Hp. unfold _needs_refresh.
  destruct (negb _); [reflexivity|].
  unfold order_manager._bps_distance.
  apply Qle_bool_iff in Hp. rewrite Hp, orb_true_r. reflexivity.
Qed.

(** The ladders the quote engine builds around a fair value of 100. *)
Definition ladders_at_100 : list OrderLevel.t * list OrderLevel.t :=
  quote_engine.build_ladders quote_engine_props.book_around_100
    (quote_engine_props.context_with_fair_value 100)
    (config.default_symbol_config "ETF").

(** A manager started at clock reading 0 on a gateway that accepts twelve
    orders. *)
Definition fresh_manager : t :=
  init (ExchangeClient.init (map (fun n => ExchangeClient.Accepted (Z.of_nat n)) (seq 1 12)))
       config.DEFAULT_SYMBOL_CONFIG 0.

Lemma ladders_at_100_well_formed :
  well_formed_ladder (fst ladders_at_100) /\ well_formed_ladder (snd ladders_at_100).
Proof.
  split; constructor.
  all: try (vm_compute; repeat constructor).
  all: apply (bool_decide_unpack _); vm_compute; reflexivity.
Qed.

(** C8 on the twelve levels the quote engine builds around 100. *)
Lemma sync_symbol_idempotent_witness :
  sync_symbol "ETF" (fst ladders_at_100) (snd ladders_at_100)
    (fst (sync_symbol "ETF" (fst ladders_at_100) (snd ladders_at_100) fresh_manager))
  = (fst (sync_symbol "ETF" (fst ladders_at_100) (snd ladders_at_100) fresh_manager),
     Ok tt).
Proof.
  apply (sync_symbol_idempotent "ETF" (fst ladders_at_100) (snd ladders_at_100)
           fresh_manager).
  - apply ladders_at_100_well_formed.
  - apply ladders_at_100_well_formed.
  - vm_compute. reflexivity.
Defined.

(** Rounding to ticks goes to the nearest integer, ties to the even one. *)
Example round_ties_to_even :
  Py.round 0.5 = 0%Z /\ Py.round 1.5 = 2%Z /\ Py.round 2.5 = 2%Z /\
  Py.round (-0.5) = 0%Z /\ ExchangeClient._price_to_ticks 99.73 = 9973%Z.
Proof. vm_compute. repeat split. Qed.

(** The 2 bps hysteresis on an order of unchanged size: a move from 100 to
    100.01 (about 1 bp) is left alone, a move to 100.03 (about 3 bps) is
    refreshed. *)
Example refresh_hysteresis :
  _needs_refresh {| OrderInfo.level := bid 0 100 400; OrderInfo.order_id := 7 |}
                 (bid 0 100.01 400) = false /\
  _needs_refresh {| OrderInfo.level := bid 0 100 400; OrderInfo.order_id := 7 |}
                 (bid 0 100.03 400) = true /\
  _needs_refresh {| OrderInfo.level := bid 0 100 400; OrderInfo.order_id := 7 |}
                 (bid 0 100 401) = true.
Proof. vm_compute. repeat split. Qed.

Lemma monotone_weaken nows :
  forall t0 t1, t0 <= t1 -> limiter_props.monotone t1 nows -> limiter_props.monotone t0 nows.
Proof.
  destruct nows as [|now rest]; intros t0 t1 Hle H; [exact I|].
  destruct H as [H1 H2]. split; [lra | exact H2].
Qed.

End order_manager_props.

(* ===================================================================== *)
(** ** The action budget of the ladder manager *)

Module budget_props.
Import Py OrderLadderManager order_manager_props.

(** One gated action: the clock reading at which its slot was taken and the
    requests it then sent to the gateway. *)
Definition Action : Type := Q * list ExchangeClient.Request.

Definition slot (action : Action) : Q := fst action.
Definition requests (action : Action) : list ExchangeClient.Request := snd action.

(** What one action sends: a place at most one new order, a cancel one
    cancel, a replace one cancel and then at most one new order. *)
Definition one_action (sent : list ExchangeClient.Request) : Prop :=
  match sent with
  | [] => True
  | [_] => True
  | [ExchangeClient.CancelOrder _ _ _; ExchangeClient.NewOrder _ _ _ _ _] => True
  | _ => False
  end.

(** What a stretch of execution from [self] to [self'] did: the limiter
    passes it made were at the readings [nows], which never go back and lie
    between the two clocks; the slots those passes took are the slots of
    [actions], in order; and the requests of [actions] are what the gateway
    was sent, in order. *)
Record accounts (self self' : t) (nows : list Q) (actions : list Action) : Prop := {
  readings_ordered : limiter_props.monotone (monotonic self) nows;
  readings_past : Forall (fun now => now <= monotonic self') nows;
  clock_ordered : monotonic self <= monotonic self';
  slots_taken : Limiter.attempts (limiter self) nows = (limiter self', map slot actions);
  requests_sent :
    ExchangeClient.sent (client self')
    = ExchangeClient.sent (client self) ++ concat (map requests actions);
  actions_gated : Forall (fun action => one_action (requests action)) actions
}.

(** Code all of whose requests are sent by gated actions. *)
Definition gated {A} (m : M t A) : Prop :=
  forall self self' r, m self = (self', r) ->
  exists nows actions, accounts self self' nows actions.

Lemma attempts_app nows1 nows2 self :
  Limiter.attempts self (nows1 ++ nows2)
  = (fst (Limiter.attempts (fst (Limiter.attempts self nows1)) nows2),
     snd (Limiter.attempts self nows1)
     ++ snd (Limiter.attempts (fst (Limiter.attempts self nows1)) nows2)).
Proof.
  revert self. induction nows1 as [|now rest IH]; intros self; cbn [app Limiter.attempts].
  - cbn. destruct (Limiter.attempts self nows2). reflexivity.
  - destruct (Limiter.attempt now self) as [self1 outcome]. rewrite IH.
    destruct (Limiter.attempts self1 rest) as [self2 taken]. cbn [fst snd].
    destruct outcome; reflexivity.
Qed.

Lemma monotone_app nows1 nows2 :
  forall t0 t1,
    limiter_props.monotone t0 nows1 -> Forall (fun now => now <= t1) nows1 -> t0 <= t1 ->
    limiter_props.monotone t1 nows2 -> limiter_props.monotone t0 (nows1 ++ nows2).
Proof.
  induction nows1 as [|now rest IH]; intros t0 t1 H1 Hpast Hle H2; cbn [app].
  - apply (monotone_weaken nows2 t0 t1 Hle H2).
  - destruct H1 as [H0 H1]. apply Forall_cons in Hpast as [Hnow Hpast].
    split; [exact H0|]. apply (IH now t1); assumption.
Qed.

Lemma monotone_prefix nows1 nows2 :
  forall t0, limiter_props.monotone t0 (nows1 ++ nows2) -> limiter_props.monotone t0 nows1.
Proof.
  induction nows1 as [|now rest IH]; intros t0 H; cbn in *; [exact I|].
  destruct H as [H0 H]. split; [exact H0 | apply IH, H].
Qed.

Lemma monotone_taken nows :
  forall self t0,
    limiter_props.monotone t0 nows ->
    limiter_props.monotone t0 (snd (Limiter.attempts self nows)).
Proof.
  induction nows as [|now rest IH]; intros self t0 H; [exact I|].
  destruct H as [H0 H]. cbn [Limiter.attempts].
  destruct (Limiter.attempt now self) as [self1 outcome].
  specialize (IH self1 now H).
  destruct (Limiter.attempts self1 rest) as [final taken]. cbn [fst snd] in *.
  destruct outcome; [|split; assumption].
  apply (monotone_weaken taken t0 now H0 IH).
Qed.

Lemma accounts_nothing self self' :
  limiter self' = limiter self -> monotonic self' = monotonic self ->
  ExchangeClient.sent (client self') = ExchangeClient.sent (client self) ->
  accounts self self' [] [].
Proof.
  intros Hl Hm Hs. constructor; cbn.
  - exact I.
  - constructor.
  - rewrite Hm. apply Qle_refl.
  - rewrite Hl. reflexivity.
  - rewrite Hs, app_nil_r. reflexivity.
  - constructor.
Qed.

Lemma accounts_trans self0 self1 self2 nows1 nows2 actions1 actions2 :
  accounts self0 self1 nows1 actions1 -> accounts self1 self2 nows2 actions2 ->
  accounts self0 self2 (nows1 ++ nows2) (actions1 ++ actions2).
Proof.
  intros [Ho1 Hp1 Hc1 Ht1 Hr1 Hg1] [Ho2 Hp2 Hc2 Ht2 Hr2 Hg2]. constructor.
  - apply (monotone_app nows1 nows2 _ (monotonic self1)); assumption.
  - apply Forall_app. split; [|exact Hp2].
    eapply Forall_impl; [exact Hp1|]. cbn. intros now Hnow. lra.
  - lra.
  - rewrite attempts_app, Ht1. cbn [fst snd]. rewrite Ht2. cbn [fst snd].
    rewrite map_app. reflexivity.
  - rewrite Hr2, Hr1, map_app, concat_app, app_assoc. reflexivity.
  - apply Forall_app. split; assumption.
Qed.

Lemma gated_bind {A B} (m : M t A) (k : A -> M t B) :
  gated m -> (forall a, gated (k a)) -> gated (bind m k).
Proof.
  intros Hm Hk self self' r H. unfold bind in H.
  destruct (m self) as [s1 [a|e]] eqn:E.
  - destruct (Hm _ _ _ E) as (n1 & a1 & H1), (Hk a _ _ _ H) as (n2 & a2 & H2).
    exists (n1 ++ n2), (a1 ++ a2). apply (accounts_trans _ _ _ _ _ _ _ H1 H2).
  - injection H as <- <-. apply (Hm _ _ _ E).
Qed.

Lemma gated_for_each {A} (body : A -> M t unit) l :
  (forall x, gated (body x)) -> gated (for_each body l).
Proof.
  intros Hb. induction l as [|x l IH]; cbn.
  - intros self self' r [= <- <-]. exists [], []. apply accounts_nothing; reflexivity.
  - apply gated_bind; [apply Hb | intros _; exact IH].
Qed.

(** Code that touches neither the limiter, the clock nor the client. *)
Lemma gated_books {A} (m : M t A) :
  (forall self self' r, m self = (self', r) ->
     exists orders, self' = with_active_orders orders self) ->
  gated m.
Proof.
  intros Hm self self' r H. destruct (Hm _ _ _ H) as (orders & ->).
  exists [], []. apply accounts_nothing; reflexivity.
Qed.

Lemma gated_ret {A} (a : A) : gated (ret a).
Proof.
  intros self self' r [= <- <-]. exists [], []. apply accounts_nothing; reflexivity.
Qed.

Lemma same_books self : self = with_active_orders (active_orders self) self.
Proof. destruct self. reflexivity. Qed.

Lemma gated_side_book symbol side : gated (side_book symbol side).
Proof.
  apply gated_books. intros self self' r H. apply side_book_inv in H as [-> _].
  exists (active_orders self). apply same_books.
Qed.

Lemma gated_store_level symbol side k info : gated (store_level symbol side k info).
Proof.
  apply gated_books. intros self self' r H. unfold store_level in H.
  destruct (active_orders self !! symbol); injection H as <- <-; eauto using same_books.
Qed.

Lemma gated_delete_level symbol side k : gated (delete_level symbol side k).
Proof.
  apply gated_books. intros self self' r H. unfold delete_level in H.
  destruct (active_orders self !! symbol) as [b|]; [|injection H as <- <-; eauto using same_books].
  destruct (od_get k (book side b)); injection H as <- <-; eauto using same_books.
Qed.

Lemma gated_clear_side symbol side : gated (clear_side symbol side).
Proof.
  apply gated_books. intros self self' r H. unfold clear_side in H.
  destruct (active_orders self !! symbol); injection H as <- <-; eauto using same_books.
Qed.

(** What the three calls of the client send. *)
Lemma gateway_call_request request c c' r :
  ExchangeClient.gateway_call request c = (c', r) ->
  ExchangeClient.sent c' = ExchangeClient.sent c ++ [request].
Proof.
  unfold ExchangeClient.gateway_call.
  destruct (ExchangeClient.replies c) as [|[order_id|] rest]; intros [= <- <-]; reflexivity.
Qed.

Lemma place_order_requests level c c' r :
  ExchangeClient.place_order level c = (c', r) ->
  ExchangeClient.sent c' = ExchangeClient.sent c \/
  exists client_id symbol_id side price_ticks quantity,
    ExchangeClient.sent c'
    = ExchangeClient.sent c
      ++ [ExchangeClient.NewOrder client_id symbol_id side price_ticks quantity].
Proof.
  unfold ExchangeClient.place_order, bind, ExchangeClient.next_client_id.
  destruct (config.SYMBOL_IDS !! OrderLevel.symbol level) as [symbol_id|];
    [|intros [= <- <-]; left; reflexivity].
  match goal with
  | |- context [ExchangeClient.gateway_call ?q ?c0] =>
      destruct (ExchangeClient.gateway_call q c0) as [c1 [order_id|e]] eqn:E;
      apply gateway_call_request in E
  end.
  all: intros [= <- <-]; right; cbn in E |- *; rewrite E; eauto 10.
Qed.

Lemma cancel_order_requests order_id c c' r :
  ExchangeClient.cancel_order order_id c = (c', r) ->
  exists client_id symbol_id,
    ExchangeClient.sent c'
    = ExchangeClient.sent c ++ [ExchangeClient.CancelOrder client_id order_id symbol_id].
Proof.
  unfold ExchangeClient.cancel_order. cbv zeta. unfold bind.
  match goal with
  | |- context [ExchangeClient.gateway_call ?q c] =>
      destruct (ExchangeClient.gateway_call q c) as [c1 [a|e]] eqn:E;
      apply gateway_call_request in E
  end.
  all: intros [= <- <-]; cbn; rewrite E; eauto.
Qed.

Lemma replace_order_requests order_id level c c' r :
  ExchangeClient.replace_order order_id level c = (c', r) ->
  exists sent,
    ExchangeClient.sent c' = ExchangeClient.sent c ++ sent /\ one_action sent /\
    sent <> [].
Proof.
  unfold ExchangeClient.replace_order, bind.
  destruct (ExchangeClient.cancel_order order_id c) as [c1 [[]|e]] eqn:E;
    apply cancel_order_requests in E as (client_id & symbol_id & E).
  - intros H. apply place_order_requests in H as [H | (a & b & s & p & q & H)].
    + eexists. rewrite H, E. split; [reflexivity|]. split; [exact I | discriminate].
    + eexists. rewrite H, E, <- app_assoc. split; [reflexivity|].
      split; [exact I | discriminate].
  - intros [= <- <-]. eexists. rewrite E. split; [reflexivity|].
    split; [exact I | discriminate].
Qed.

Lemma reserve_loop_slot fuel :
  forall self self',
    reserve_loop fuel self = (self', Ok tt) ->
    exists nows,
      limiter_props.monotone (monotonic self) nows /\
      Forall (fun now => now <= monotonic self') nows /\
      monotonic self <= monotonic self' /\
      Limiter.attempts (limiter self) nows = (limiter self', [monotonic self']) /\
      client self' = client self.
Proof.
  induction fuel as [|fuel IH]; intros self self' H; cbn [reserve_loop] in H; [discriminate|].
  destruct (Limiter.attempt (monotonic self) (limiter self)) as [l [d|]] eqn:E.
  - assert (Hd : 0 <= d).
    { unfold Limiter.attempt in E. cbv zeta in E.
      destruct (_ <? _)%Z; [discriminate|]. injection E as _ <-. apply Q.le_max_l. }
    destruct (IH _ _ H) as (nows & Hm & Hp & Hc & Hrun & Hcl).
    cbn [monotonic limiter with_limiter client] in *.
    exists (monotonic self :: nows). split; [|split; [|split; [|split]]].
    + split; [lra|]. apply (monotone_weaken nows _ (monotonic self + d)); [lra | exact Hm].
    + constructor; [lra | exact Hp].
    + lra.
    + cbn [Limiter.attempts]. rewrite E, Hrun. reflexivity.
    + exact Hcl.
  - injection H as <-. cbn [monotonic limiter with_limiter client].
    exists [monotonic self]. split; [|split; [|split; [|split]]].
    + cbn. split; [lra | exact I].
    + repeat constructor. lra.
    + lra.
    + cbn [Limiter.attempts]. rewrite E. reflexivity.
    + reflexivity.
Qed.

(** A throttled call takes one slot, then hands the client its one call. *)
Lemma gated_throttled {A} (call : M ExchangeClient.t A) :
  (forall c c' r, call c = (c', r) ->
     exists sent, ExchangeClient.sent c' = ExchangeClient.sent c ++ sent /\ one_action sent) ->
  gated (bind _reserve_action_slot (fun _ => on_client call)).
Proof.
  intros Hcall self self' r H. unfold bind in H.
  destruct (reserve_loop_returns self) as [s1 Hres]. rewrite Hres in H.
  unfold _reserve_action_slot in Hres.
  apply reserve_loop_slot in Hres as (nows & Hm & Hp & Hc & Hrun & Hcl).
  unfold on_client in H. destruct (call (client s1)) as [c r'] eqn:E. injection H as <- <-.
  destruct (Hcall _ _ _ E) as (sent & Hsent & Hone).
  exists nows, [(monotonic s1, sent)]. constructor; cbn.
  - exact Hm.
  - exact Hp.
  - exact Hc.
  - exact Hrun.
  - rewrite Hsent, Hcl, app_nil_r. reflexivity.
  - repeat constructor. exact Hone.
Qed.

Lemma gated_place level : gated (_throttled_place level).
Proof.
  apply gated_throttled. intros c c' r H.
  apply place_order_requests in H as [H | (a & b & s & p & q & H)].
  - exists []. rewrite H, app_nil_r. split; [reflexivity | exact I].
  - eexists. split; [exact H | exact I].
Qed.

Lemma gated_replace existing level : gated (_throttled_replace existing level).
Proof.
  apply gated_throttled. intros c c' r H.
  apply replace_order_requests in H as (sent & H & Hone & _). eauto.
Qed.

Lemma gated_cancel info : gated (_throttled_cancel info).
Proof.
  apply gated_throttled. intros c c' r H.
  apply cancel_order_requests in H as (a & b & H). eexists. split; [exact H | exact I].
Qed.

Lemma gated_sync_symbol symbol bids asks : gated (sync_symbol symbol bids asks).
Proof.
  assert (Hlevel : forall side level, gated (sync_level symbol side level)).
  { intros side level. unfold sync_level. apply gated_bind; [apply gated_side_book|].
    intros d. destruct (od_get (OrderLevel.level_index level) d) as [existing|].
    - destruct (_needs_refresh existing level); [|apply gated_ret].
      apply gated_bind; [apply gated_replace | intros; apply gated_store_level].
    - apply gated_bind; [apply gated_place | intros; apply gated_store_level]. }
  assert (Hentry : forall side indexes entry, gated (prune_entry symbol side indexes entry)).
  { intros side indexes [k info]. unfold prune_entry.
    destruct (decide (k ∈ indexes)); [apply gated_ret|].
    apply gated_bind; [apply gated_cancel | intros; apply gated_delete_level]. }
  assert (Hs : forall side levels, gated (_sync_side symbol side levels))
    by (intros; apply gated_for_each; intros; apply Hlevel).
  assert (Hp : forall side indexes, gated (_prune_levels symbol side indexes)).
  { intros. apply gated_bind; [apply gated_side_book|].
    intros. apply gated_for_each. intros. apply Hentry. }
  unfold sync_symbol. repeat (apply gated_bind; [auto | intros _]). auto.
Qed.

Lemma gated_cancel_all : gated cancel_all.
Proof.
  assert (Hside : forall symbol side, gated (cancel_side symbol side)).
  { intros. unfold cancel_side. apply gated_bind; [apply gated_side_book|]. intros d.
    apply gated_bind; [|intros; apply gated_clear_side].
    apply gated_for_each. intros. apply gated_cancel. }
  intros self self' r H. unfold cancel_all in H. revert H.
  apply gated_for_each. intros symbol. apply gated_bind; [apply Hside | intros; apply Hside].
Qed.

(** What is done with a manager, one call after the other: the lock lets no
    two calls of [sync_symbol] or [cancel_all] overlap, so calls made
    concurrently run in some order; [Elapse] is time passing between two
    calls (none, for a negative number of seconds). *)
Inductive Call :=
| SyncSymbol (symbol : string) (bids asks : list OrderLevel.t)
| CancelAll
| Elapse (seconds : Q).

Definition perform (self : t) (call : Call) : t :=
  match call with
  | SyncSymbol symbol bids asks => fst (sync_symbol symbol bids asks self)
  | CancelAll => fst (cancel_all self)
  | Elapse seconds => with_limiter (limiter self) (monotonic self + Qmax 0 seconds) self
  end.

(** The manager after [calls], whether they returned or raised. *)
Definition session (calls : list Call) (self : t) : t := fold_left perform calls self.

Lemma perform_accounts self call :
  exists nows actions, accounts self (perform self call) nows actions.
Proof.
  destruct call as [symbol bids asks| |seconds]; cbn [perform].
  - destruct (sync_symbol symbol bids asks self) as [self' r] eqn:E.
    apply (gated_sync_symbol _ _ _ _ _ _ E).
  - destruct (cancel_all self) as [self' r] eqn:E. apply (gated_cancel_all _ _ _ E).
  - exists [], []. constructor; cbn.
    + exact I.
    + constructor.
    + pose proof (Q.le_max_l 0 seconds). lra.
    + reflexivity.
    + rewrite app_nil_r. reflexivity.
    + constructor.
Qed.

Lemma session_accounts calls :
  forall self, exists nows actions, accounts self (session calls self) nows actions.
Proof.
  induction calls as [|call rest IH]; intros self; cbn.
  - exists [], []. apply accounts_nothing; reflexivity.
  - destruct (perform_accounts self call) as (n1 & a1 & H1).
    destruct (IH (perform self call)) as (n2 & a2 & H2).
    exists (n1 ++ n2), (a1 ++ a2). apply (accounts_trans _ _ _ _ _ _ _ H1 H2).
Qed.

(** C1, amended.  Whatever calls of [sync_symbol] and [cancel_all] are made
    on a manager, in whatever order and however spaced in time: every
    request the gateway was sent belongs to one action (a place, a cancel or
    a replace, which sends a cancel and then a new order), each action took
    one slot of the limiter before it sent anything, the slots were taken at
    clock readings that never go back, at every moment at most
    [MAX_ACTIONS_PER_SECOND] of them since the start of the limiter's window
    of that moment, and at most twice that many in any rolling second. *)
Theorem action_budget_per_window (exchange : ExchangeClient.t)
    (symbol_configs : gmap string config.SymbolConfig) (started : Q) (calls : list Call) :
  let self := session calls (init exchange symbol_configs started) in
  exists actions : list Action,
    ExchangeClient.sent (client self)
    = ExchangeClient.sent exchange ++ concat (map requests actions) /\
    Forall (fun action => one_action (requests action)) actions /\
    limiter_props.monotone started (map slot actions) /\
    (exists nows,
       limiter_props.monotone started nows /\
       Limiter.attempts (limiter_props.fresh started) nows
       = (limiter self, map slot actions) /\
       forall seen later, nows = seen ++ later ->
         let during := Limiter.attempts (limiter_props.fresh started) seen in
         (Z.of_nat (limiter_props.countb
                      (limiter_props.since (Limiter._window_start (fst during)))
                      (snd during))
          <= config.MAX_ACTIONS_PER_SECOND)%Z) /\
    (Z.of_nat (limiter_props.countb
                 (limiter_props.since (Limiter._window_start (limiter self)))
                 (map slot actions))
     <= config.MAX_ACTIONS_PER_SECOND)%Z /\
    (forall t,
       (Z.of_nat (limiter_props.countb (limiter_props.in_window t) (map slot actions))
        <= 2 * config.MAX_ACTIONS_PER_SECOND)%Z).
Proof.
  cbv zeta.
  destruct (session_accounts calls (init exchange symbol_configs started))
    as (nows & actions & [Ho Hp Hc Ht Hr Hg]).
  cbn [init monotonic limiter client] in Ho, Ht, Hr.
  change {| Limiter._window_start := started; Limiter._actions_this_window := 0 |}
    with (limiter_props.fresh started) in Ht.
  exists actions. split; [exact Hr|]. split; [exact Hg|].
  pose proof (monotone_taken nows (limiter_props.fresh started) started Ho) as Hslots.
  rewrite Ht in Hslots. cbn [snd] in Hslots.
  split; [exact Hslots|]. split.
  { exists nows. split; [exact Ho|]. split; [exact Ht|].
    intros seen later E. cbv zeta. rewrite E in Ho.
    apply (limiter_props.attempts_budget started seen 0 (monotone_prefix _ _ _ Ho)). }
  assert (Hb : forall t, _) by (intros t; exact (limiter_props.attempts_budget started nows t Ho)).
  cbv zeta in Hb. rewrite Ht in Hb. cbn [fst snd] in Hb.
  split; [apply (Hb 0) | intros t; apply (Hb t)].
Qed.

(** A sync of the twelve levels around 100, half a second, then a
    [cancel_all], on a gateway that accepts every request. *)
Definition quote_then_cancel : list Call :=
  [SyncSymbol "ETF" (fst ladders_at_100) (snd ladders_at_100); Elapse 0.5; CancelAll].

Definition accepting_exchange : ExchangeClient.t :=
  ExchangeClient.init (map (fun n => ExchangeClient.Accepted (Z.of_nat n)) (seq 1 24)).

(** C1 amended, on the session above: 24 requests, 24 actions. *)
Lemma action_budget_per_window_witness :
  length (ExchangeClient.sent
            (client (session quote_then_cancel
                       (init accepting_exchange config.DEFAULT_SYMBOL_CONFIG 0)))) = 24%nat /\
  exists actions : list Action,
    ExchangeClient.sent
      (client (session quote_then_cancel
                 (init accepting_exchange config.DEFAULT_SYMBOL_CONFIG 0)))
    = ExchangeClient.sent accepting_exchange ++ concat (map requests actions) /\
    Forall (fun action => one_action (requests action)) actions /\
    limiter_props.monotone 0 (map slot actions) /\
    (exists nows,
       limiter_props.monotone 0 nows /\
       Limiter.attempts (limiter_props.fresh 0) nows
       = (limiter (session quote_then_cancel
                     (init accepting_exchange config.DEFAULT_SYMBOL_CONFIG 0)),
          map slot actions) /\
       forall seen later, nows = seen ++ later ->
         let during := Limiter.attempts (limiter_props.fresh 0) seen in
         (Z.of_nat (limiter_props.countb
                      (limiter_props.since (Limiter._window_start (fst during)))
                      (snd during))
          <= config.MAX_ACTIONS_PER_SECOND)%Z) /\
    (Z.of_nat (limiter_props.countb
                 (limiter_props.since
                    (Limiter._window_start
                       (limiter (session quote_then_cancel
                                   (init accepting_exchange config.DEFAULT_SYMBOL_CONFIG 0)))))
                 (map slot actions))
     <= config.MAX_ACTIONS_PER_SECOND)%Z /\
    (forall t,
       (Z.of_nat (limiter_props.countb (limiter_props.in_window t) (map slot actions))
        <= 2 * config.MAX_ACTIONS_PER_SECOND)%Z).
Proof.
  split; [vm_compute; reflexivity|].
  apply (action_budget_per_window accepting_exchange config.DEFAULT_SYMBOL_CONFIG 0
           quote_then_cancel).
Defined.

End budget_props.

(* ===================================================================== *)
(** * Part III: further properties of the code *)

(* ===================================================================== *)
(** ** quote_engine.py: the ladders *)

Module ladder_props.
Import quote_engine.

Lemma int_inject z : Py.int (inject_Z z) = z.
Proof. unfold Py.int. cbn. apply Z.quot_1_r. Qed.

Lemma int_mono x y : x <= y -> (Py.int x <= Py.int y)%Z.
Proof.
  destruct x as [nx dx], y as [ny dy]. unfold Qle, Py.int. cbn. intros H.
  rewrite <- (Z.quot_mul_cancel_r nx (Zpos dx) (Zpos dy)) by lia.
  rewrite <- (Z.quot_mul_cancel_r ny (Zpos dy) (Zpos dx)) by lia.
  rewrite (Z.mul_comm (Zpos dy) (Zpos dx)).
  apply Z.quot_le_mono; lia.
Qed.

Lemma int_proper x y : x == y -> Py.int x = Py.int y.
Proof.
  intros H. apply Z.le_antisymm; apply int_mono; rewrite H; apply Qle_refl.
Qed.

Lemma int_opp x : Py.int (- x) = (- Py.int x)%Z.
Proof. destruct x as [n d]. unfold Py.int. cbn. apply Z.quot_opp_l. lia. Qed.

(** Truncation moves towards zero, by less than one. *)
Lemma int_nonneg_bounds x :
  0 <= x -> inject_Z (Py.int x) <= x /\ x < inject_Z (Py.int x) + 1.
Proof.
  destruct x as [n d]. unfold Qle, Qlt, Py.int. cbn. intros H.
  assert (Hn : (0 <= n)%Z) by lia.
  rewrite Z.quot_div_nonneg by lia.
  pose proof (Z.mul_div_le n (Zpos d) ltac:(lia)).
  pose proof (Z.mul_succ_div_gt n (Zpos d) ltac:(lia)).
  split; nia.
Qed.

Lemma clamp_unit x :
  let r := Qmax (-1) (Qmin 1 x) in
  -1 <= r /\ r <= 1 /\ (1 <= x -> r == 1) /\ (x <= -1 -> r == -1) /\
  (-1 <= x -> x <= 1 -> r == x).
Proof.
  cbv zeta.
  destruct (Q.min_spec 1 x) as [[H1 E1]|[H1 E1]]; rewrite E1;
  destruct (Q.max_spec (-1) x) as [[H2 E2]|[H2 E2]];
  destruct (Q.max_spec (-1) 1) as [[H3 E3]|[H3 E3]];
  rewrite ?E2, ?E3; repeat split; intros; lra.
Qed.

Lemma clamp_unit_mono x y :
  x <= y -> Qmax (-1) (Qmin 1 x) <= Qmax (-1) (Qmin 1 y).
Proof.
  intros H. apply Q.max_le_compat_l. apply Q.min_le_compat_l. exact H.
Qed.

Lemma clamp_unit_opp x :
  Qmax (-1) (Qmin 1 (- x)) == - Qmax (-1) (Qmin 1 x).
Proof.
  destruct (Q.min_spec 1 x) as [[H1 E1]|[H1 E1]]; rewrite E1;
  destruct (Q.min_spec 1 (-x)) as [[H2 E2]|[H2 E2]]; rewrite E2;
  destruct (Q.max_spec (-1) x) as [[H3 E3]|[H3 E3]];
  destruct (Q.max_spec (-1) (-x)) as [[H4 E4]|[H4 E4]];
  destruct (Q.max_spec (-1) 1) as [[H5 E5]|[H5 E5]];
  rewrite ?E3, ?E4, ?E5; lra.
Qed.

(** X1.  [compute_inventory_skew] stays within plus or minus [INVENTORY_SKEW_BPS],
    is odd in the position, is zero when the limit or the position is zero,
    and for a positive limit saturates at the bound once the position reaches
    the limit on either side and never decreases as the position grows. *)
Theorem compute_inventory_skew_bounded (position limit : Z) :
  (- config.INVENTORY_SKEW_BPS <= compute_inventory_skew position limit
   <= config.INVENTORY_SKEW_BPS)%Z /\
  compute_inventory_skew (- position) limit
  = (- compute_inventory_skew position limit)%Z /\
  (limit = 0%Z \/ position = 0%Z -> compute_inventory_skew position limit = 0%Z) /\
  ((0 < limit)%Z ->
   ((limit <= position)%Z ->
    compute_inventory_skew position limit = config.INVENTORY_SKEW_BPS) /\
   ((position <= - limit)%Z ->
    compute_inventory_skew position limit = (- config.INVENTORY_SKEW_BPS)%Z) /\
   (forall position', (position <= position')%Z ->
      (compute_inventory_skew position limit
       <= compute_inventory_skew position' limit)%Z)).
Proof.
  unfold compute_inventory_skew, config.INVENTORY_SKEW_BPS. cbv zeta.
  destruct (Z.eqb_spec limit 0) as [->|Hl].
  { repeat split; try lia; intros; lia. }
  set (clamp := fun x => Qmax (-1) (Qmin 1 x)).
  assert (Hrange : forall x, (-8 <= Py.int (inject_Z 8 * clamp x) <= 8)%Z).
  { intros x. destruct (clamp_unit x) as (Hlo & Hhi & _). fold (clamp x) in Hlo, Hhi.
    split.
    - rewrite <- (int_inject (-8)). apply int_mono. change (inject_Z (-8)) with (-8). 
      change (inject_Z 8) with 8. lra.
    - rewrite <- (int_inject 8) at 2. apply int_mono. change (inject_Z 8) with 8. lra. }
  assert (Hq : ~ inject_Z limit == 0).
  { change 0 with (inject_Z 0). rewrite inject_Z_injective. exact Hl. }
  split; [apply Hrange|]. split; [|split].
  - rewrite <- int_opp. apply int_proper.
    rewrite inject_Z_opp.
    assert (E : - inject_Z position / inject_Z limit == - (inject_Z position / inject_Z limit))
      by (field; exact Hq).
    rewrite E, clamp_unit_opp. ring.
  - intros [H|H]; [contradiction | subst position].
    assert (E : inject_Z 0 / inject_Z limit == 0) by (field; exact Hq).
    rewrite <- (int_inject 0) at 2. apply int_proper. rewrite E.
    destruct (clamp_unit 0) as (_ & _ & _ & _ & H0). rewrite H0 by lra. reflexivity.
  - intros Hpos.
    assert (Hlq : 0 < inject_Z limit).
    { change 0 with (inject_Z 0). rewrite <- Zlt_Qlt. exact Hpos. }
    split; [|split].
    + intros Hp. rewrite <- (int_inject 8) at 2. apply int_proper.
      destruct (clamp_unit (inject_Z position / inject_Z limit)) as (_ & _ & H1 & _).
      rewrite H1; [reflexivity|].
      apply Qle_shift_div_l; [exact Hlq|]. rewrite Zle_Qle in Hp. lra.
    + intros Hp. rewrite <- (int_inject (Z.opp 8)). apply int_proper.
      destruct (clamp_unit (inject_Z position / inject_Z limit)) as (_ & _ & _ & H1 & _).
      rewrite H1; [reflexivity|].
      apply Qle_shift_div_r; [exact Hlq|]. rewrite Zle_Qle, inject_Z_opp in Hp. lra.
    + intros position' Hp. apply int_mono.
      assert (inject_Z position / inject_Z limit <= inject_Z position' / inject_Z limit).
      { apply Qle_shift_div_l; [exact Hlq|].
        assert (E : inject_Z position / inject_Z limit * inject_Z limit == inject_Z position)
          by (field; exact Hq).
        rewrite E. rewrite <- Zle_Qle. exact Hp. }
      pose proof (clamp_unit_mono _ _ H). change (inject_Z 8) with 8. lra.
Qed.

Section Ladder.
Variables (snapshot : MarketSnapshot.t) (ctx : QuoteContext.t) (cfg : config.SymbolConfig).

(** The distance of level [i] from the mid, in bps, before the maker edge
    is taken off: the loop's [bid_bps] and [ask_bps]. *)
Definition offset_bps (i : Z) : Q :=
  inject_Z (config.base_spread_bps cfg) * QuoteContext.spread_scale ctx
  + QuoteContext.volatility_bps ctx
  + inject_Z i * (inject_Z (config.level_spread_step_bps cfg) * QuoteContext.spread_scale ctx).

Definition quoted_bid (mid : Q) (i : Z) : Q :=
  _price_from_bps mid
    (offset_bps i + inject_Z (Z.max (QuoteContext.inventory_skew_bps ctx) 0)
     - config.EFFECTIVE_MAKER_EDGE_BPS / 2) BID.

Definition quoted_ask (mid : Q) (i : Z) : Q :=
  _price_from_bps mid
    (offset_bps i + inject_Z (Z.max (- QuoteContext.inventory_skew_bps ctx) 0)
     - config.EFFECTIVE_MAKER_EDGE_BPS / 2) ASK.

(** What the loop appends for index [i] on either side. *)
Definition bid_at (mid : Q) (i : Z) (level : OrderLevel.t) : Prop :=
  OrderLevel.symbol level = MarketSnapshot.symbol snapshot /\
  OrderLevel.side level = BID /\
  OrderLevel.level_index level = i /\
  OrderLevel.price level = quoted_bid mid i /\
  (1 <= OrderLevel.size level)%Z.

Definition ask_at (mid : Q) (i : Z) (level : OrderLevel.t) : Prop :=
  OrderLevel.symbol level = MarketSnapshot.symbol snapshot /\
  OrderLevel.side level = ASK /\
  OrderLevel.level_index level = i /\
  OrderLevel.price level = quoted_ask mid i /\
  (1 <= OrderLevel.size level)%Z.

Lemma ladder_loop_shape mid indexes :
  forall current_size bids asks,
  exists B A,
    ladder_loop snapshot ctx cfg mid
      (inject_Z (config.base_spread_bps cfg) * QuoteContext.spread_scale ctx
       + QuoteContext.volatility_bps ctx)
      (inject_Z (config.level_spread_step_bps cfg) * QuoteContext.spread_scale ctx)
      (config.EFFECTIVE_MAKER_EDGE_BPS / 2) indexes current_size bids asks
    = (bids ++ B, asks ++ A) /\
    Forall2 (bid_at mid) indexes B /\ Forall2 (ask_at mid) indexes A.
Proof.
  induction indexes as [|i rest IH]; intros current_size bids asks.
  - exists [], []. cbn. rewrite !app_nil_r. repeat split; constructor.
  - cbn [ladder_loop]. cbv zeta.
    match goal with
    | |- context [ladder_loop _ _ _ _ _ _ _ rest ?c (bids ++ [?b]) (asks ++ [?a])] =>
        destruct (IH c (bids ++ [b]) (asks ++ [a])) as (B & A & E & HB & HA);
        exists (b :: B), (a :: A)
    end.
    rewrite E, <- !app_assoc. cbn [app]. split; [reflexivity|].
    split; constructor; try assumption.
    + repeat split; cbn; lia.
    + repeat split; cbn; lia.
Qed.

End Ladder.

Lemma price_from_bps_mono mid b1 b2 :
  0 <= mid -> b1 <= b2 ->
  _price_from_bps mid b2 BID <= _price_from_bps mid b1 BID /\
  _price_from_bps mid b1 ASK <= _price_from_bps mid b2 ASK.
Proof.
  intros Hm Hb. unfold _price_from_bps. cbv zeta.
  pose proof (Q.max_le_compat_l b1 b2 1 Hb) as He.
  set (e1 := Qmax 1 b1) in *. set (e2 := Qmax 1 b2) in *.
  assert (Hd : mid * (e1 / 10000) <= mid * (e2 / 10000)).
  { assert (E1 : e1 / 10000 == e1 * (1 # 10000)) by (field; lra).
    assert (E2 : e2 / 10000 == e2 * (1 # 10000)) by (field; lra).
    rewrite E1, E2. nra. }
  split; [|lra].
  apply Q.max_le_compat_l. lra.
Qed.

Lemma price_from_bps_bounds mid bps :
  0 < mid ->
  0.01 <= _price_from_bps mid bps BID /\
  _price_from_bps mid bps BID <= Qmax 0.01 mid /\
  (0.01 < mid -> _price_from_bps mid bps BID < mid) /\
  mid < _price_from_bps mid bps ASK.
Proof.
  intros Hm. unfold _price_from_bps. cbv zeta.
  pose proof (Q.le_max_l 1 bps) as He. set (e := Qmax 1 bps) in *.
  assert (Hd : 0 < mid * (e / 10000)).
  { assert (E : e / 10000 == e * (1 # 10000)) by (field; lra). rewrite E. nra. }
  set (delta := mid * (e / 10000)) in *.
  split; [apply Q.le_max_l|]. split; [apply Q.max_le_compat_l; lra|]. split; [|lra].
  intros H. apply Q.max_lub_lt; lra.
Qed.

(** The two outcomes of [build_ladders]. *)
Lemma build_ladders_cases snapshot ctx cfg :
  build_ladders snapshot ctx cfg = ([], []) \/
  exists mid, ladder_mid snapshot ctx = Some mid /\ 0 < mid /\
              build_ladders snapshot ctx cfg = ladders_around mid snapshot ctx cfg.
Proof.
  unfold build_ladders. destruct (ladder_mid snapshot ctx) as [mid|]; [|left; reflexivity].
  destruct (Qle_bool mid 0) eqn:E; [left; reflexivity|].
  right. exists mid. apply PyFacts.Qle_bool_false in E. auto.
Qed.

Lemma ladders_around_shape mid snapshot ctx cfg :
  Forall2 (bid_at snapshot ctx cfg mid) (Py.range (config.max_levels cfg))
          (fst (ladders_around mid snapshot ctx cfg)) /\
  Forall2 (ask_at snapshot ctx cfg mid) (Py.range (config.max_levels cfg))
          (snd (ladders_around mid snapshot ctx cfg)).
Proof.
  unfold ladders_around. cbv zeta.
  destruct (ladder_loop_shape snapshot ctx cfg mid (Py.range (config.max_levels cfg))
              (Z.max 1 (config.base_size cfg)) [] []) as (B & A & E & HB & HA).
  rewrite E. cbn. auto.
Qed.

Lemma range_length n : length (Py.range n) = Z.to_nat n.
Proof. unfold Py.range. rewrite length_map, length_seq. reflexivity. Qed.

Lemma range_of_length n : Py.range (Z.of_nat (Z.to_nat n)) = Py.range n.
Proof. unfold Py.range. rewrite Nat2Z.id. reflexivity. Qed.

Lemma range_NoDup n : NoDup (Py.range n).
Proof.
  unfold Py.range. apply NoDup_fmap_2; [intros x y; apply Nat2Z.inj | apply NoDup_seq].
Qed.

Lemma Forall2_indexes {P : Z -> OrderLevel.t -> Prop} indexes levels :
  (forall i l, P i l -> OrderLevel.level_index l = i) ->
  Forall2 P indexes levels -> map OrderLevel.level_index levels = indexes.
Proof.
  intros HP H. induction H as [|i l indexes levels Hil _ IH]; [reflexivity|].
  cbn. rewrite (HP _ _ Hil), IH. reflexivity.
Qed.

Lemma Forall2_Forall_r {A B} (P : A -> B -> Prop) (Q : B -> Prop) la lb :
  (forall a b, P a b -> Q b) -> Forall2 P la lb -> Forall Q lb.
Proof.
  intros HPQ H. induction H; constructor; eauto.
Qed.

Definition bid_ok (snapshot : MarketSnapshot.t) (level : OrderLevel.t) : Prop :=
  OrderLevel.symbol level = MarketSnapshot.symbol snapshot /\
  OrderLevel.side level = BID /\
  (1 <= OrderLevel.size level)%Z /\
  0.01 <= OrderLevel.price level.

Definition ask_ok (snapshot : MarketSnapshot.t) (level : OrderLevel.t) : Prop :=
  OrderLevel.symbol level = MarketSnapshot.symbol snapshot /\
  OrderLevel.side level = ASK /\
  (1 <= OrderLevel.size level)%Z /\
  0 < OrderLevel.price level.

(** X2.  [build_ladders] returns as many bids as asks, at most [max_levels] of
    each, with level indexes 0, 1, 2, ... in order; every level carries the
    snapshot's symbol and its own side, a size of at least 1, and a price of
    at least 0.01 (bids) or above zero (asks). *)
Theorem build_ladders_levels (snapshot : MarketSnapshot.t) (ctx : QuoteContext.t)
    (cfg : config.SymbolConfig) :
  let bids := fst (build_ladders snapshot ctx cfg) in
  let asks := snd (build_ladders snapshot ctx cfg) in
  length bids = length asks /\
  (length bids <= Z.to_nat (config.max_levels cfg))%nat /\
  map OrderLevel.level_index bids = Py.range (Z.of_nat (length bids)) /\
  map OrderLevel.level_index asks = Py.range (Z.of_nat (length asks)) /\
  Forall (bid_ok snapshot) bids /\
  Forall (ask_ok snapshot) asks.
Proof.
  cbv zeta. destruct (build_ladders_cases snapshot ctx cfg) as [->|(mid & _ & Hm & ->)].
  { cbn. repeat split; try constructor; lia. }
  destruct (ladders_around_shape mid snapshot ctx cfg) as [HB HA].
  pose proof (Forall2_length _ _ _ HB) as LB. pose proof (Forall2_length _ _ _ HA) as LA.
  rewrite range_length in LB, LA.
  rewrite <- LB, <- LA, !range_of_length.
  split; [reflexivity|]. split; [lia|].
  split; [apply (Forall2_indexes _ _ (fun i l H => proj1 (proj2 (proj2 H))) HB)|].
  split; [apply (Forall2_indexes _ _ (fun i l H => proj1 (proj2 (proj2 H))) HA)|].
  split.
  - refine (Forall2_Forall_r _ _ _ _ _ HB). intros i l H.
    destruct H as (Hs & Hd & _ & Hp & Hz). repeat split; try assumption.
    rewrite Hp. apply (price_from_bps_bounds mid _ Hm).
  - refine (Forall2_Forall_r _ _ _ _ _ HA). intros i l H.
    destruct H as (Hs & Hd & _ & Hp & Hz). repeat split; try assumption.
    rewrite Hp. pose proof (price_from_bps_bounds mid
      (offset_bps ctx cfg i + inject_Z (Z.max (- QuoteContext.inventory_skew_bps ctx) 0)
       - config.EFFECTIVE_MAKER_EDGE_BPS / 2) Hm) as (_ & _ & _ & H).
    unfold quoted_ask. lra.
Qed.

(** X3.  Whatever the snapshot, context and configuration, the two ladders
    [build_ladders] returns have one level per index and positive prices:
    they meet what the reconciliation of [sync_symbol] needs of its input. *)
Theorem build_ladders_well_formed (snapshot : MarketSnapshot.t) (ctx : QuoteContext.t)
    (cfg : config.SymbolConfig) :
  order_manager_props.well_formed_ladder (fst (build_ladders snapshot ctx cfg)) /\
  order_manager_props.well_formed_ladder (snd (build_ladders snapshot ctx cfg)).
Proof.
  destruct (build_ladders_cases snapshot ctx cfg) as [->|(mid & _ & Hm & ->)].
  { split; constructor; cbn; constructor. }
  destruct (ladders_around_shape mid snapshot ctx cfg) as [HB HA].
  split; constructor.
  - rewrite (Forall2_indexes _ _ (fun i l H => proj1 (proj2 (proj2 H))) HB).
    apply range_NoDup.
  - refine (Forall2_Forall_r _ _ _ _ _ HB). intros i l (_ & _ & _ & -> & _).
    destruct (price_from_bps_bounds mid
      (offset_bps ctx cfg i + inject_Z (Z.max (QuoteContext.inventory_skew_bps ctx) 0)
       - config.EFFECTIVE_MAKER_EDGE_BPS / 2) Hm) as (H & _).
    unfold quoted_bid. lra.
  - rewrite (Forall2_indexes _ _ (fun i l H => proj1 (proj2 (proj2 H))) HA).
    apply range_NoDup.
  - refine (Forall2_Forall_r _ _ _ _ _ HA). intros i l (_ & _ & _ & -> & _).
    destruct (price_from_bps_bounds mid
      (offset_bps ctx cfg i + inject_Z (Z.max (- QuoteContext.inventory_skew_bps ctx) 0)
       - config.EFFECTIVE_MAKER_EDGE_BPS / 2) Hm) as (_ & _ & _ & H).
    unfold quoted_ask. lra.
Qed.

(** X4.  With [mid] the value [build_ladders] quotes around, every ask is priced
    above [mid], and every bid below it as long as [mid] exceeds the price
    floor 0.01: the two ladders never cross. *)
Theorem build_ladders_straddle_mid (snapshot : MarketSnapshot.t) (ctx : QuoteContext.t)
    (cfg : config.SymbolConfig) (mid : Q) :
  ladder_mid snapshot ctx = Some mid ->
  Forall (fun level => mid < OrderLevel.price level) (snd (build_ladders snapshot ctx cfg)) /\
  (0.01 < mid ->
   Forall (fun level => OrderLevel.price level < mid) (fst (build_ladders snapshot ctx cfg))).
Proof.
  intros Hmid.
  destruct (build_ladders_cases snapshot ctx cfg) as [->|(mid' & Hmid' & Hm & ->)].
  { cbn. split; [|intros _]; constructor. }
  assert (mid' = mid) as -> by congruence.
  destruct (ladders_around_shape mid snapshot ctx cfg) as [HB HA]. split.
  - refine (Forall2_Forall_r _ _ _ _ _ HA). intros i l (_ & _ & _ & Hp & _).
    rewrite Hp. apply (price_from_bps_bounds mid _ Hm).
  - intros Hbig. refine (Forall2_Forall_r _ _ _ _ _ HB). intros i l (_ & _ & _ & Hp & _).
    rewrite Hp. apply (price_from_bps_bounds mid _ Hm). exact Hbig.
Qed.

(** X4 around a fair value of 100. *)
Lemma build_ladders_straddle_mid_witness :
  Forall (fun level => 100 < OrderLevel.price level)
         (snd (build_ladders quote_engine_props.book_around_100
                 (quote_engine_props.context_with_fair_value 100)
                 (config.default_symbol_config "ETF"))) /\
  (0.01 < 100 ->
   Forall (fun level => OrderLevel.price level < 100)
          (fst (build_ladders quote_engine_props.book_around_100
                  (quote_engine_props.context_with_fair_value 100)
                  (config.default_symbol_config "ETF")))).
Proof.
  apply (build_ladders_straddle_mid quote_engine_props.book_around_100
           (quote_engine_props.context_with_fair_value 100)
           (config.default_symbol_config "ETF") 100).
  reflexivity.
Defined.

(** [ctx] with another inventory skew. *)
Definition with_skew (ctx : QuoteContext.t) (skew : Z) : QuoteContext.t :=
  {| QuoteContext.fair_value := QuoteContext.fair_value ctx;
     QuoteContext.volatility_bps := QuoteContext.volatility_bps ctx;
     QuoteContext.inventory_skew_bps := skew;
     QuoteContext.spread_scale := QuoteContext.spread_scale ctx;
     QuoteContext.size_scale := QuoteContext.size_scale ctx;
     QuoteContext.bid_size_scale := QuoteContext.bid_size_scale ctx;
     QuoteContext.ask_size_scale := QuoteContext.ask_size_scale ctx |}.

Lemma Forall2_join {A B C} (P : A -> B -> Prop) (Q : A -> C -> Prop) (R : B -> C -> Prop)
    la lb lc :
  (forall a b c, P a b -> Q a c -> R b c) ->
  Forall2 P la lb -> Forall2 Q la lc -> Forall2 R lb lc.
Proof.
  intros H HP. revert lc. induction HP; intros lc HQ; inversion HQ; subst; constructor; eauto.
Qed.

(** X5.  Against the same context without skew, an inventory skew never raises a
    bid and never lowers an ask, level by level; a skew that is not positive
    leaves the bids where they were, one that is not negative the asks. *)
Theorem inventory_skew_pulls_quotes_back (snapshot : MarketSnapshot.t)
    (ctx : QuoteContext.t) (cfg : config.SymbolConfig) (skew : Z) :
  let skewed := build_ladders snapshot (with_skew ctx skew) cfg in
  let flat := build_ladders snapshot (with_skew ctx 0) cfg in
  Forall2 (fun l l0 => OrderLevel.price l <= OrderLevel.price l0) (fst skewed) (fst flat) /\
  Forall2 (fun l l0 => OrderLevel.price l0 <= OrderLevel.price l) (snd skewed) (snd flat) /\
  ((skew <= 0)%Z ->
   Forall2 (fun l l0 => OrderLevel.price l = OrderLevel.price l0) (fst skewed) (fst flat)) /\
  ((0 <= skew)%Z ->
   Forall2 (fun l l0 => OrderLevel.price l = OrderLevel.price l0) (snd skewed) (snd flat)).
Proof.
  cbv zeta. unfold build_ladders.
  change (ladder_mid snapshot (with_skew ctx skew)) with (ladder_mid snapshot ctx).
  change (ladder_mid snapshot (with_skew ctx 0)) with (ladder_mid snapshot ctx).
  destruct (ladder_mid snapshot ctx) as [mid|]; [|cbn; repeat split; constructor].
  destruct (Qle_bool mid 0) eqn:Hm; [cbn; repeat split; constructor|].
  apply PyFacts.Qle_bool_false in Hm.
  destruct (ladders_around_shape mid snapshot (with_skew ctx skew) cfg) as [HB HA].
  destruct (ladders_around_shape mid snapshot (with_skew ctx 0) cfg) as [HB0 HA0].
  assert (Hoff : forall i, offset_bps (with_skew ctx skew) cfg i = offset_bps (with_skew ctx 0) cfg i)
    by reflexivity.
  split; [|split; [|split]].
  - refine (Forall2_join _ _ _ _ _ _ _ HB HB0).
    intros i l l0 (_ & _ & _ & -> & _) (_ & _ & _ & -> & _).
    unfold quoted_bid. rewrite Hoff. cbn [QuoteContext.inventory_skew_bps with_skew].
    apply price_from_bps_mono; [lra|].
    assert (inject_Z (Z.max 0 0) <= inject_Z (Z.max skew 0)) by (rewrite <- Zle_Qle; lia).
    lra.
  - refine (Forall2_join _ _ _ _ _ _ _ HA HA0).
    intros i l l0 (_ & _ & _ & -> & _) (_ & _ & _ & -> & _).
    unfold quoted_ask. rewrite Hoff. cbn [QuoteContext.inventory_skew_bps with_skew].
    apply price_from_bps_mono; [lra|].
    assert (inject_Z (Z.max (- 0) 0) <= inject_Z (Z.max (- skew) 0))
      by (rewrite <- Zle_Qle; lia).
    lra.
  - intros Hs. refine (Forall2_join _ _ _ _ _ _ _ HB HB0).
    intros i l l0 (_ & _ & _ & -> & _) (_ & _ & _ & -> & _).
    unfold quoted_bid. rewrite Hoff. cbn [QuoteContext.inventory_skew_bps with_skew].
    replace (Z.max skew 0) with (Z.max 0 0) by lia. reflexivity.
  - intros Hs. refine (Forall2_join _ _ _ _ _ _ _ HA HA0).
    intros i l l0 (_ & _ & _ & -> & _) (_ & _ & _ & -> & _).
    unfold quoted_ask. rewrite Hoff. cbn [QuoteContext.inventory_skew_bps with_skew].
    replace (Z.max (- skew) 0) with (Z.max (- 0) 0) by lia. reflexivity.
Qed.

Lemma range_lookup n (i : nat) idx : Py.range n !! i = Some idx -> idx = Z.of_nat i.
Proof.
  unfold Py.range. change (map Z.of_nat) with (fmap (M:=list) Z.of_nat).
  rewrite list_lookup_fmap. destruct (seq 0 (Z.to_nat n) !! i) as [k|] eqn:E; [|discriminate].
  apply lookup_seq in E as [-> _]. cbn. intros [= <-]. reflexivity.
Qed.

Lemma offset_bps_mono ctx cfg (i j : nat) :
  0 <= inject_Z (config.level_spread_step_bps cfg) * QuoteContext.spread_scale ctx ->
  (i <= j)%nat ->
  offset_bps ctx cfg (Z.of_nat i) <= offset_bps ctx cfg (Z.of_nat j).
Proof.
  intros Hs Hij. unfold offset_bps.
  assert (inject_Z (Z.of_nat i) <= inject_Z (Z.of_nat j)) by (rewrite <- Zle_Qle; lia).
  set (s := inject_Z (config.level_spread_step_bps cfg) * QuoteContext.spread_scale ctx) in *.
  nra.
Qed.

(** X6.  When the step between levels is not negative, the levels of a ladder
    move away from the mid as the index grows: bid prices never rise and ask
    prices never fall from one level to a later one. *)
Theorem ladder_prices_ordered (snapshot : MarketSnapshot.t) (ctx : QuoteContext.t)
    (cfg : config.SymbolConfig) :
  0 <= inject_Z (config.level_spread_step_bps cfg) * QuoteContext.spread_scale ctx ->
  forall (i j : nat) (a b : OrderLevel.t),
    (i <= j)%nat ->
    (fst (build_ladders snapshot ctx cfg) !! i = Some a ->
     fst (build_ladders snapshot ctx cfg) !! j = Some b ->
     OrderLevel.price b <= OrderLevel.price a) /\
    (snd (build_ladders snapshot ctx cfg) !! i = Some a ->
     snd (build_ladders snapshot ctx cfg) !! j = Some b ->
     OrderLevel.price a <= OrderLevel.price b).
Proof.
  intros Hs i j a b Hij.
  destruct (build_ladders_cases snapshot ctx cfg) as [->|(mid & _ & Hm & ->)].
  { cbn. split; intros H; discriminate. }
  destruct (ladders_around_shape mid snapshot ctx cfg) as [HB HA].
  pose proof (offset_bps_mono ctx cfg i j Hs Hij) as Ho.
  split; intros Ha Hb.
  - destruct (Forall2_lookup_r _ _ _ _ _ HB Ha) as (ia & Hia & (_ & _ & _ & -> & _)).
    destruct (Forall2_lookup_r _ _ _ _ _ HB Hb) as (ib & Hib & (_ & _ & _ & -> & _)).
    apply range_lookup in Hia as ->. apply range_lookup in Hib as ->.
    unfold quoted_bid. apply price_from_bps_mono; lra.
  - destruct (Forall2_lookup_r _ _ _ _ _ HA Ha) as (ia & Hia & (_ & _ & _ & -> & _)).
    destruct (Forall2_lookup_r _ _ _ _ _ HA Hb) as (ib & Hib & (_ & _ & _ & -> & _)).
    apply range_lookup in Hia as ->. apply range_lookup in Hib as ->.
    unfold quoted_ask. apply price_from_bps_mono; lra.
Qed.

(** X6 on the first two bids around 100. *)
Lemma ladder_prices_ordered_witness :
  (fst order_manager_props.ladders_at_100 !! 0%nat
   = Some (nth 0 (fst order_manager_props.ladders_at_100) (order_manager_props.bid 0 1 1)) ->
   fst order_manager_props.ladders_at_100 !! 1%nat
   = Some (nth 1 (fst order_manager_props.ladders_at_100) (order_manager_props.bid 0 1 1)) ->
   OrderLevel.price (nth 1 (fst order_manager_props.ladders_at_100)
                         (order_manager_props.bid 0 1 1))
   <= OrderLevel.price (nth 0 (fst order_manager_props.ladders_at_100)
                            (order_manager_props.bid 0 1 1))) /\
  (snd order_manager_props.ladders_at_100 !! 0%nat
   = Some (nth 0 (fst order_manager_props.ladders_at_100) (order_manager_props.bid 0 1 1)) ->
   snd order_manager_props.ladders_at_100 !! 1%nat
   = Some (nth 1 (fst order_manager_props.ladders_at_100) (order_manager_props.bid 0 1 1)) ->
   OrderLevel.price (nth 0 (fst order_manager_props.ladders_at_100)
                         (order_manager_props.bid 0 1 1))
   <= OrderLevel.price (nth 1 (fst order_manager_props.ladders_at_100)
                            (order_manager_props.bid 0 1 1))).
Proof.
  apply (ladder_prices_ordered quote_engine_props.book_around_100
           (quote_engine_props.context_with_fair_value 100)
           (config.default_symbol_config "ETF")); [discriminate | lia].
Defined.

End ladder_props.

(* ===================================================================== *)
(** ** risk.py: exposure, unrealized PnL and drawdown *)

Module exposure_props.
Import risk.

(** The sum of a list of rationals. *)
Fixpoint Qsum (l : list Q) : Q :=
  match l with
  | [] => 0
  | x :: rest => x + Qsum rest
  end.

Lemma fold_left_Qsum {A} (step : Q -> A -> Q) (term : A -> Q) :
  (forall acc x, step acc x == acc + term x) ->
  forall l a, fold_left step l a == a + Qsum (map term l).
Proof.
  intros H. induction l as [|x l IH]; intros a; cbn [fold_left map Qsum].
  - ring.
  - rewrite IH, H. ring.
Qed.

Lemma Qsum_permutation l l' : l ≡ₚ l' -> Qsum l == Qsum l'.
Proof.
  induction 1; cbn [Qsum].
  - reflexivity.
  - rewrite IHPermutation. reflexivity.
  - ring.
  - etransitivity; eassumption.
Qed.


Lemma Qsum_zero l : Forall (fun x => x == 0) l -> Qsum l == 0.
Proof.
  induction 1 as [|x l Hx _ IH]; cbn [Qsum]; [reflexivity|]. rewrite Hx, IH. ring.
Qed.


Definition unrealized_term (mid_map : gmap string Q) (item : string * PositionState.t) : Q :=
  match mid_map !! fst item with
  | None => 0
  | Some mid =>
      inject_Z (PositionState.position (snd item)) * (mid - PositionState.vwap (snd item))
  end.


Lemma unrealized_over_sum items mid_map :
  unrealized_over items mid_map == Qsum (map (unrealized_term mid_map) items).
Proof.
  unfold unrealized_over. rewrite (fold_left_Qsum _ (unrealized_term mid_map)); [ring|].
  intros acc x. unfold unrealized_term. destruct (mid_map !! fst x); ring.
Qed.


Lemma unrealized_over_permutation items items' mid_map :
  items ≡ₚ items' -> unrealized_over items mid_map == unrealized_over items' mid_map.
Proof.
  intros H. rewrite !unrealized_over_sum. apply Qsum_permutation.
  apply Permutation_map. exact H.
Qed.


Definition equity (pnl : PnLState.t) : Q := PnLState.realized pnl + PnLState.unrealized pnl.

(** X8.  [update_unrealized_pnl] leaves the realized PnL alone, sets the
    unrealized PnL to the sum of [position * (mid - vwap)] over the symbols
    that have a mid, and then holds the high watermark at the larger of its
    old value and the new equity: it never falls, and equity never exceeds
    it.  Positions that are flat or marked at their VWAP give zero. *)
Theorem update_unrealized_pnl_watermark (pnl : PnLState.t)
    (positions : gmap string PositionState.t) (mid_map : gmap string Q) :
  let pnl' := update_unrealized_pnl pnl positions mid_map in
  PnLState.realized pnl' = PnLState.realized pnl /\
  PnLState.unrealized pnl' == Qsum (map (unrealized_term mid_map) (map_to_list positions)) /\
  equity pnl' <= PnLState.equity_high_watermark pnl' /\
  PnLState.equity_high_watermark pnl <= PnLState.equity_high_watermark pnl' /\
  (PnLState.equity_high_watermark pnl' == PnLState.equity_high_watermark pnl \/
   PnLState.equity_high_watermark pnl' == equity pnl') /\
  ((forall symbol state mid,
      positions !! symbol = Some state -> mid_map !! symbol = Some mid ->
      PositionState.position state = 0%Z \/ mid == PositionState.vwap state) ->
   PnLState.unrealized pnl' == 0).
Proof.
  cbv zeta. unfold update_unrealized_pnl, PnLState.update_high_watermark, equity. cbn.
  set (u := unrealized_over (map_to_list positions) mid_map).
  split; [reflexivity|]. split; [apply unrealized_over_sum|].
  split; [apply Q.le_max_r|]. split; [apply Q.le_max_l|]. split.
  - destruct (Q.max_spec (PnLState.equity_high_watermark pnl) (PnLState.realized pnl + u))
      as [[_ E]|[_ E]]; rewrite E; [right | left]; reflexivity.
  - intros Hflat. unfold u. rewrite unrealized_over_sum. apply Qsum_zero, Forall_forall.
    intros x Hx. apply list_elem_of_In, in_map_iff in Hx as ([symbol state] & <- & Hin).
    apply list_elem_of_In, elem_of_map_to_list in Hin.
    unfold unrealized_term. cbn. destruct (mid_map !! symbol) as [mid|] eqn:Em; [|reflexivity].
    destruct (Hflat _ _ _ Hin Em) as [-> | ->]; ring.
Qed.

(** The two outcomes of [compute_drawdown_pct]. *)
Lemma drawdown_pct_value pnl :
  let hwm := PnLState.equity_high_watermark pnl in
  (hwm <= 0 \/ hwm <= equity pnl) /\ compute_drawdown_pct pnl = 0 \/
  0 < hwm /\ equity pnl < hwm /\ compute_drawdown_pct pnl = (hwm - equity pnl) / hwm.
Proof.
  cbv zeta. unfold compute_drawdown_pct, equity. cbv zeta.
  set (hwm := PnLState.equity_high_watermark pnl).
  set (eq := PnLState.realized pnl + PnLState.unrealized pnl).
  destruct (Qle_bool hwm 0) eqn:Eh.
  { apply Qle_bool_iff in Eh. left. auto. }
  apply PyFacts.Qle_bool_false in Eh.
  destruct (Qle_bool (hwm - eq) 0) eqn:Ed.
  { apply Qle_bool_iff in Ed. left. split; [right; lra | reflexivity]. }
  apply PyFacts.Qle_bool_false in Ed. right. repeat split; lra.
Qed.

Lemma div_times a b : 0 < b -> a == a / b * b.
Proof. intros H. field. lra. Qed.


(** X10.  [drawdown_adjustments] applied to [compute_drawdown_pct] throttles
    exactly when the high watermark is positive and equity is at or below
    three quarters of it. *)
Theorem throttled_at_quarter_drawdown (pnl : PnLState.t) :
  throttled_of (drawdown_adjustments (compute_drawdown_pct pnl)) = true <->
  0 < PnLState.equity_high_watermark pnl /\
  equity pnl <= 0.75 * PnLState.equity_high_watermark pnl.
Proof.
  destruct (drawdown_pct_value pnl) as [[Hc E]|(Hh & He & E)]; cbv zeta in *.
  - rewrite E, (risk_props.soft_branch 0) by lra. cbn.
    split; [discriminate|]. intros [H1 H2]. destruct Hc; lra.
  - set (hwm := PnLState.equity_high_watermark pnl) in *.
    set (d := compute_drawdown_pct pnl) in *.
    assert (Hd : hwm - equity pnl == d * hwm) by (rewrite E; apply div_times; exact Hh).
    destruct (risk_props.regime_total d) as [L E'|L U _ _ T|L E'].
    + rewrite E'. cbn. split; [discriminate|]. intros [_ H]. exfalso. nra.
    + rewrite T. split; [discriminate|]. intros [_ H]. exfalso. nra.
    + rewrite E'. cbn. split; [intros _|reflexivity]. split; [exact Hh | nra].
Qed.

End exposure_props.

(* ===================================================================== *)
(** ** strategy.py: what fills add up to *)

Module accounting_props.
Import Strategy exposure_props.

(** The signed quantity of a fill: bought is positive, sold negative. *)
Definition signed_qty (side : Side) (size : Z) : Z :=
  match side with BID => size | ASK => (- size)%Z end.

(** The cost basis of a position: its size times its VWAP. *)
Definition basis (state : PositionState.t) : Q :=
  inject_Z (PositionState.position state) * PositionState.vwap state.

Lemma inject_Z_abs_pos z : (0 <= z)%Z -> inject_Z (Z.abs z) = inject_Z z.
Proof. intros H. rewrite Z.abs_eq by exact H. reflexivity. Qed.

Lemma inject_Z_abs_neg z : (z <= 0)%Z -> inject_Z (Z.abs z) = - inject_Z z.
Proof. intros H. rewrite Z.abs_neq by exact H. apply inject_Z_opp. Qed.

(** One fill: the position moves by the signed quantity, and the realized
    PnL by the cash the fill brings in plus the change of the cost basis. *)
Lemma register_fill_accounting self symbol side size price self' :
  register_fill self symbol side size price = Some self' ->
  exists state state',
    positions self !! symbol = Some state /\
    positions self' = <[symbol := state']> (positions self) /\
    PositionState.position state'
    = (PositionState.position state + signed_qty side size)%Z /\
    PnLState.realized (pnl self')
    == PnLState.realized (pnl self)
       - inject_Z (signed_qty side size) * price + basis state' - basis state.
Proof.
  unfold register_fill. intros H.
  destruct (positions self !! symbol) as [state|] eqn:Hst; [|discriminate].
  injection H as <-. eexists state, _.
  split; [reflexivity|]. split; [reflexivity|]. cbn. split; [reflexivity|].
  unfold basis. cbn. fold (signed_qty side size).
  destruct state as [sym p v]. cbn [PositionState.position PositionState.vwap].
  set (q := signed_qty side size). set (r := PnLState.realized (pnl self)).
  rewrite inject_Z_plus.
  destruct (Z.eqb_spec p 0) as [E0|N0]; cbn [orb andb].
  - subst p. cbn [Z.ltb Z.compare andb Z.abs Z.add].
    change (Z.abs 0) with 0%Z.
    destruct (Z.ltb_spec 0 (0 + Z.abs q)) as [Ha|Ha].
    + destruct (Z.ltb_spec 0 0); [lia|]. cbn [andb].
      assert (Hq : ~ inject_Z (Z.abs q) == 0).
      { change 0 with (inject_Z 0). rewrite inject_Z_injective. lia. }
      replace (0 + Z.abs q)%Z with (Z.abs q) by lia.
      change (inject_Z 0) with 0. field. exact Hq.
    + assert (q = 0%Z) as -> by lia. change (inject_Z 0) with 0.
      destruct (0 <? 0)%Z; cbn; ring.
  - destruct (Z.ltb_spec 0 p) as [Pp|Pp], (Z.ltb_spec 0 q) as [Pq|Pq],
      (Z.ltb_spec p 0) as [Np|Np], (Z.ltb_spec q 0) as [Nq|Nq]; try lia; cbn [orb andb].
    all: try (destruct (Z.ltb_spec 0 (Z.abs p + Z.abs q)) as [Ha|Ha]; [|lia]).
    all: try (destruct (Z.eqb_spec (p + q) 0) as [Er|Nr]).
    all: try (destruct (Z.ltb_spec 0 (p + q)), (Z.ltb_spec (p + q) 0); try lia; cbn [orb andb]).
    all: rewrite ?inject_Z_plus.
    all: try (rewrite (inject_Z_abs_pos p) by lia).
    all: try (rewrite (inject_Z_abs_pos q) by lia).
    all: try (rewrite (inject_Z_abs_neg p) by lia).
    all: try (rewrite (inject_Z_abs_neg q) by lia).
    all: try (rewrite Z.min_l by lia).
    all: try (rewrite Z.min_r by lia).
    all: try (rewrite (inject_Z_abs_pos p) by lia).
    all: try (rewrite (inject_Z_abs_pos q) by lia).
    all: try (rewrite (inject_Z_abs_neg p) by lia).
    all: try (rewrite (inject_Z_abs_neg q) by lia).
    all: try (assert (Ez : inject_Z p + inject_Z q == 0)
                by (rewrite <- inject_Z_plus, Er; reflexivity)).
    all: try (assert (Hpq : ~ inject_Z p + inject_Z q == 0)
                by (rewrite <- inject_Z_plus; change 0 with (inject_Z 0);
                    rewrite inject_Z_injective; lia)).
    all: try (assert (Hpq' : ~ - inject_Z p + - inject_Z q == 0)
                by (intros Hc; apply Hpq; lra)).
    all: try (field; assumption).
    all: try nra.
    all: assert (Eq0 : q = 0%Z) by lia; rewrite Eq0; change (inject_Z 0) with 0; ring.
Qed.









End accounting_props.

(* ===================================================================== *)
(** ** strategy.py: fair value, mispricing, volatility and size scales *)

Module signal_props.
Import Strategy.

(** What a constituent adds to the synthetic fair value. *)
Definition weighted_mid (mid_map : gmap string Q) (symbol : string) (weight : Q) : Q :=
  match mid_map !! symbol with
  | None => 0
  | Some mid => weight * mid
  end.

(** X12.  [_compute_synthetic_fair] falls back to the ETF's own mid when no
    basket constituent has a mid; otherwise it is the sum of weight times mid
    over the constituents that have one (weights 0.5, 0.3, 0.2, not
    renormalised when a constituent is missing). *)
Theorem compute_synthetic_fair_cases (mid_map : gmap string Q) :
  (mid_map !! "XYZ"%string = None -> mid_map !! "ABC"%string = None ->
   mid_map !! "DEF"%string = None ->
   _compute_synthetic_fair mid_map = mid_map !! config.ETF_SYMBOL) /\
  (is_Some (mid_map !! "XYZ"%string) \/ is_Some (mid_map !! "ABC"%string) \/
   is_Some (mid_map !! "DEF"%string) ->
   exists total,
     _compute_synthetic_fair mid_map = Some total /\
     total == weighted_mid mid_map "XYZ" 0.5 + weighted_mid mid_map "ABC" 0.3
              + weighted_mid mid_map "DEF" 0.2).
Proof.
  unfold _compute_synthetic_fair, weighted_mid.
  change config.SYNTHETIC_WEIGHTS_items
    with [("XYZ"%string, 0.5); ("ABC"%string, 0.3); ("DEF"%string, 0.2)].
  cbn [fold_left fst snd].
  split.
  - intros -> -> ->. reflexivity.
  - intros H.
    destruct (mid_map !! "XYZ"%string) as [x|], (mid_map !! "ABC"%string) as [a|],
      (mid_map !! "DEF"%string) as [d|]; cbn [fst snd].
    8: { destruct H as [[? H]|[[? H]|[? H]]]; discriminate. }
    all: match goal with
         | |- context [Qeq_bool ?w 0] =>
             assert (Qeq_bool w 0 = false) as -> by (vm_compute; reflexivity)
         end.
    all: eexists; split; [reflexivity | ring].
Qed.

(** X13.  For a positive ETF mid and a positive synthetic fair value
    [_compute_mispricing_bps] is [(etf_mid - fair) / fair * 10000]: positive
    exactly when the ETF is rich, negative exactly when it is cheap, zero
    exactly when the two agree.  It is 0 when either value is missing or not
    positive. *)
Theorem compute_mispricing_bps_sign (mid_map : gmap string Q) (synthetic_fair : option Q) :
  let m := _compute_mispricing_bps mid_map synthetic_fair in
  (forall etf_mid fair,
     mid_map !! config.ETF_SYMBOL = Some etf_mid -> synthetic_fair = Some fair ->
     0 < etf_mid -> 0 < fair ->
     m == (etf_mid - fair) / fair * 10000 /\
     (0 < m <-> fair < etf_mid) /\ (m < 0 <-> etf_mid < fair) /\
     (m == 0 <-> etf_mid == fair)) /\
  (synthetic_fair = None \/ mid_map !! config.ETF_SYMBOL = None \/
   (exists fair, synthetic_fair = Some fair /\ fair <= 0) \/
   (exists etf_mid, mid_map !! config.ETF_SYMBOL = Some etf_mid /\ etf_mid <= 0) ->
   m = 0).
Proof.
  cbv zeta. unfold _compute_mispricing_bps. split.
  - intros etf_mid fair -> -> He Hf.
    apply PyFacts.Qle_bool_false in He, Hf. rewrite He, Hf.
    apply PyFacts.Qle_bool_false in He, Hf.
    assert (E : (etf_mid - fair) / fair * 10000 == (etf_mid - fair) * (10000 / fair))
      by (field; lra).
    assert (Hk : 0 < 10000 / fair) by (apply Qlt_shift_div_l; lra).
    split; [reflexivity|]. rewrite E. set (k := 10000 / fair) in *.
    repeat split; intros; nra.
  - intros [-> | [H | [(fair & -> & Hf) | (etf_mid & H & He)]]].
    + reflexivity.
    + destruct synthetic_fair as [fair|]; [|reflexivity].
      destruct (Qle_bool fair 0); [reflexivity|]. rewrite H. reflexivity.
    + apply Qle_bool_iff in Hf. rewrite Hf. reflexivity.
    + destruct synthetic_fair as [fair|]; [|reflexivity].
      destruct (Qle_bool fair 0); [reflexivity|]. rewrite H.
      apply Qle_bool_iff in He. rewrite He. reflexivity.
Qed.

Lemma synthetic_fair_without_constituents mid_map :
  mid_map !! "XYZ"%string = None -> mid_map !! "ABC"%string = None ->
  mid_map !! "DEF"%string = None ->
  _compute_synthetic_fair mid_map = mid_map !! config.ETF_SYMBOL.
Proof.
  unfold _compute_synthetic_fair.
  change config.SYNTHETIC_WEIGHTS_items
    with [("XYZ"%string, 0.5); ("ABC"%string, 0.3); ("DEF"%string, 0.2)].
  cbn [fold_left fst snd]. intros -> -> ->. reflexivity.
Qed.

(** X14.  When no basket constituent has a mid, the mispricing computed from the
    synthetic fair value is zero: the ETF is compared with itself. *)
Theorem etf_only_has_no_mispricing (mid_map : gmap string Q) :
  mid_map !! "XYZ"%string = None -> mid_map !! "ABC"%string = None ->
  mid_map !! "DEF"%string = None ->
  _compute_mispricing_bps mid_map (_compute_synthetic_fair mid_map) == 0.
Proof.
  intros Hx Ha Hd.
  rewrite (synthetic_fair_without_constituents mid_map Hx Ha Hd).
  unfold _compute_mispricing_bps.
  destruct (mid_map !! config.ETF_SYMBOL) as [etf|]; [|reflexivity].
  destruct (Qle_bool etf 0) eqn:E; [reflexivity|].
  apply PyFacts.Qle_bool_false in E. field. lra.
Qed.

(** X14 with the ETF alone, at 100. *)
Lemma etf_only_has_no_mispricing_witness :
  _compute_mispricing_bps (<["ETF"%string := 100]> ∅)
    (_compute_synthetic_fair (<["ETF"%string := 100]> ∅)) == 0.
Proof.
  apply (etf_only_has_no_mispricing (<["ETF"%string := 100]> ∅)); reflexivity.
Defined.

Lemma clamp01 x : 0 <= Qmax 0 (Qmin 1 x) /\ Qmax 0 (Qmin 1 x) <= 1.
Proof.
  split; [apply Q.le_max_l|].
  apply Q.max_lub; [lra | apply Q.le_min_l].
Qed.

Lemma mispricing_intensity_unit m w :
  0 <= _mispricing_intensity m w /\ _mispricing_intensity m w <= 1.
Proof.
  unfold _mispricing_intensity. destruct (Qle_bool w 0); [lra|]. apply clamp01.
Qed.

Lemma mispricing_intensity_mono m1 m2 w :
  Qabs m1 <= Qabs m2 -> _mispricing_intensity m1 w <= _mispricing_intensity m2 w.
Proof.
  intros H. unfold _mispricing_intensity.
  destruct (Qle_bool w 0) eqn:Ew; [lra|]. apply PyFacts.Qle_bool_false in Ew.
  change (Qmax 1 config.MISPRICING_INTENSITY_BPS) with 40. cbv zeta.
  apply Q.max_le_compat_l, Q.min_le_compat_l.
  assert (Hb : Qmin (Qabs m1 / 40) 1 <= Qmin (Qabs m2 / 40) 1).
  { apply Q.min_le_compat_r.
    assert (E1 : Qabs m1 / 40 == Qabs m1 * (1 # 40)) by (field; lra).
    assert (E2 : Qabs m2 / 40 == Qabs m2 * (1 # 40)) by (field; lra).
    rewrite E1, E2. lra. }
  nra.
Qed.

(** X15.  For every symbol and mispricing the intensity lies in [0, 1],
    [_spread_scale_adjust] in [1, 1.25] and both size scales of
    [_side_size_scales] in [0.5, 1.8]; a larger absolute mispricing never
    narrows the spread. *)
Theorem mispricing_scales_bounded (symbol : string) (m : Q) :
  let scales := _side_size_scales symbol m in
  (0 <= _mispricing_intensity m (symbol_weight symbol) <= 1) /\
  (1 <= _spread_scale_adjust symbol m <= 1.25) /\
  (0.5 <= fst scales <= 1.8) /\ (0.5 <= snd scales <= 1.8) /\
  (forall m', Qabs m <= Qabs m' ->
              _spread_scale_adjust symbol m <= _spread_scale_adjust symbol m').
Proof.
  cbv zeta.
  pose proof (mispricing_intensity_unit m (symbol_weight symbol)) as [H0 H1].
  split; [split; assumption|]. split; [|split; [|split]].
  - unfold _spread_scale_adjust, config.MISPRICING_SPREAD_WIDEN. cbv zeta. lra.
  - unfold _side_size_scales, config.MISPRICING_SIZE_BONUS, config.MISPRICING_SIZE_PENALTY.
    cbv zeta. set (i := _mispricing_intensity m (symbol_weight symbol)) in *.
    pose proof (Q.le_max_l 0.5 (1 - i * 0.5)).
    assert (Qmax 0.5 (1 - i * 0.5) <= 1) by (apply Q.max_lub; lra).
    destruct (_ || _); [cbn; lra|].
    destruct (decide _), (Py.Qltb 0 m); cbn [fst]; lra.
  - unfold _side_size_scales, config.MISPRICING_SIZE_BONUS, config.MISPRICING_SIZE_PENALTY.
    cbv zeta. set (i := _mispricing_intensity m (symbol_weight symbol)) in *.
    pose proof (Q.le_max_l 0.5 (1 - i * 0.5)).
    assert (Qmax 0.5 (1 - i * 0.5) <= 1) by (apply Q.max_lub; lra).
    destruct (_ || _); [cbn; lra|].
    destruct (decide _), (Py.Qltb 0 m); cbn [snd]; lra.
  - intros m' Hm. unfold _spread_scale_adjust, config.MISPRICING_SPREAD_WIDEN. cbv zeta.
    pose proof (mispricing_intensity_mono m m' (symbol_weight symbol) Hm). lra.
Qed.

Lemma exposure_size_scale_range exposure :
  0.25 <= _exposure_size_scale exposure /\ _exposure_size_scale exposure <= 1.
Proof.
  unfold _exposure_size_scale. cbv zeta. destruct (_ || _); [lra|].
  split; [apply Q.le_max_l|]. apply Q.max_lub; [lra | apply Q.le_min_l].
Qed.

(** X16.  [_exposure_size_scale] lies in [0.25, 1]; it is 1 up to the exposure
    limit and [max(0.25, limit / exposure)] beyond it, which up to four times
    the limit is the quotient [limit / exposure] itself; and the scale never
    grows with the exposure. *)
Theorem exposure_size_scale_cases (exposure : Q) :
  let limit := config.max_dollar_exposure config.RISK_LIMITS in
  let scale := _exposure_size_scale exposure in
  (0.25 <= scale <= 1) /\
  (exposure <= limit -> scale = 1) /\
  (limit < exposure -> scale == Qmax 0.25 (limit / exposure)) /\
  (limit < exposure -> exposure <= 4 * limit -> scale == limit / exposure) /\
  (forall exposure', exposure <= exposure' ->
                     _exposure_size_scale exposure' <= scale).
Proof.
  cbv zeta. unfold _exposure_size_scale. cbv zeta.
  assert (HL : 0 < config.max_dollar_exposure config.RISK_LIMITS) by reflexivity.
  set (L := config.max_dollar_exposure config.RISK_LIMITS) in *. clearbody L.
  assert (Hbranch : forall e,
            (e <= L /\ (Qle_bool e 0 || Qle_bool e L) = true) \/
            (L < e /\ (Qle_bool e 0 || Qle_bool e L) = false /\
             0 < L / e /\ L / e < 1 /\ L / e * e == L)).
  { intros e. destruct (Qlt_le_dec L e) as [H|H].
    - right. split; [exact H|]. split.
      + apply orb_false_iff. split; apply PyFacts.Qle_bool_false; lra.
      + split; [apply Qlt_shift_div_l; lra|]. split; [apply Qlt_shift_div_r; lra|].
        field. lra.
    - left. split; [exact H|]. apply orb_true_iff. right. apply Qle_bool_iff. exact H. }
  destruct (Hbranch exposure) as [[Hle ->] | (Hgt & -> & Hp & Hl & Hm)].
  - split; [lra|]. split; [reflexivity|]. split; [intros; lra|]. split; [intros; lra|].
    intros e' He'. destruct (Hbranch e') as [[_ ->] | (_ & -> & Hp' & Hl' & _)]; [lra|].
    apply Q.max_lub; [lra|]. rewrite Q.min_r by lra. lra.
  - set (s := L / exposure) in *.
    assert (Es : Qmin 1 s == s) by (apply Q.min_r; lra).
    assert (Em : Qmax 0.25 (Qmin 1 s) == Qmax 0.25 s)
      by (apply Q.max_compat; [reflexivity | exact Es]).
    assert (Hlo : 0.25 <= Qmax 0.25 (Qmin 1 s)) by apply Q.le_max_l.
    assert (Hhi : Qmax 0.25 (Qmin 1 s) < 1)
      by (apply Q.max_lub_lt; [reflexivity | apply Qle_lt_trans with s; [apply Q.le_min_r | exact Hl]]).
    split; [split; [exact Hlo | apply Qlt_le_weak; exact Hhi]|].
    split; [intros; lra|]. split; [intros _; exact Em|].
    split.
    + intros _ H4.
      assert (E4 : Qmax 0.25 s == s)
        by (apply Q.max_r; unfold s; apply Qle_shift_div_l; lra).
      apply Qeq_trans with (Qmax 0.25 s); assumption.
    + intros e' He'. destruct (Hbranch e') as [[Hc _] | (Hgt' & -> & Hp' & Hl' & Hm')]; [lra|].
      set (s' := L / e') in *.
      apply Q.max_le_compat_l. apply Q.min_le_compat_l.
      unfold s'. apply Qle_shift_div_r; [lra|].
      apply Qle_trans with (s * exposure); [rewrite Hm; apply Qle_refl|].
      apply Qmult_le_l; lra.
Qed.






Lemma resting_base_unquoted items mid_map :
  (forall item, In item items -> mid_map !! fst item = None) ->
  resting_base_over items mid_map = 0.
Proof.
  unfold resting_base_over. generalize 0.
  induction items as [|item items IH]; intros base H; [reflexivity|].
  cbn [fold_left]. rewrite (H item) by (left; reflexivity).
  apply IH. intros x Hx. apply H. right. exact Hx.
Qed.

Lemma resting_notional_scale_bounds symbol_configs mid_map :
  0.5 <= _resting_notional_scale symbol_configs mid_map /\
  _resting_notional_scale symbol_configs mid_map <= 3.
Proof.
  unfold _resting_notional_scale. cbv zeta. destruct (Qle_bool _ 0); [lra|].
  split; [apply Q.le_max_l|]. apply Q.max_lub; [lra | apply Q.le_min_l].
Qed.

(** X18.  [_resting_notional_scale] lies in [0.5, 3]; it is 1 when no configured
    symbol has a mid (or the base notional is not positive), otherwise the
    ratio of the target to the base notional clamped to that range; while the
    base lies between a third of the target and twice the target, it is the
    ratio itself. *)
Theorem resting_notional_scale_cases (symbol_configs : gmap string config.SymbolConfig)
    (mid_map : gmap string Q) :
  let base := resting_base_over (map_to_list symbol_configs) mid_map in
  let scale := _resting_notional_scale symbol_configs mid_map in
  (0.5 <= scale <= 3) /\
  ((forall symbol cfg, symbol_configs !! symbol = Some cfg -> mid_map !! symbol = None) ->
   scale = 1) /\
  (base <= 0 -> scale = 1) /\
  (0 < base -> scale == Qmax 0.5 (Qmin 3 (config.TARGET_RESTING_NOTIONAL / base))) /\
  (config.TARGET_RESTING_NOTIONAL <= 3 * base ->
   base <= 2 * config.TARGET_RESTING_NOTIONAL ->
   scale == config.TARGET_RESTING_NOTIONAL / base).
Proof.
  cbv zeta. split; [apply resting_notional_scale_bounds|].
  unfold _resting_notional_scale. cbv zeta.
  set (base := resting_base_over (map_to_list symbol_configs) mid_map).
  assert (Ht : 0 < config.TARGET_RESTING_NOTIONAL) by reflexivity.
  set (target := config.TARGET_RESTING_NOTIONAL) in *. clearbody target.
  split; [|split; [|split]].
  - intros Hnone. unfold base. rewrite resting_base_unquoted; [reflexivity|].
    intros [symbol cfg] Hin. apply list_elem_of_In, elem_of_map_to_list in Hin.
    apply (Hnone _ _ Hin).
  - intros Hb. apply Qle_bool_iff in Hb. rewrite Hb. reflexivity.
  - intros Hb. apply PyFacts.Qle_bool_false in Hb. rewrite Hb. reflexivity.
  - intros Hlo Hhi.
    assert (Hb : 0 < base) by lra.
    assert (Em : target / base * base == target) by (field; lra).
    pose proof Hb as Hb'. apply PyFacts.Qle_bool_false in Hb'. rewrite Hb'.
    set (ratio := target / base) in *.
    assert (Hr3 : ratio <= 3).
    { unfold ratio. apply Qle_shift_div_r; lra. }
    assert (Hr5 : 0.5 <= ratio).
    { unfold ratio. apply Qle_shift_div_l; lra. }
    assert (E1 : Qmin 3 ratio == ratio) by (apply Q.min_r; exact Hr3).
    assert (E2 : Qmax 0.5 (Qmin 3 ratio) == ratio).
    { apply Qeq_trans with (Qmax 0.5 ratio).
      - apply Q.max_compat; [reflexivity | exact E1].
      - apply Q.max_r. exact Hr5. }
    exact E2.
Qed.

(** The scales [drawdown_adjustments] returns while it does not throttle. *)
Lemma unthrottled_scales d :
  risk.throttled_of (risk.drawdown_adjustments d) = false ->
  1 <= risk.spread_scale_of (risk.drawdown_adjustments d) /\
  risk.spread_scale_of (risk.drawdown_adjustments d) <= 2.5 /\
  0.2 <= risk.size_scale_of (risk.drawdown_adjustments d) /\
  risk.size_scale_of (risk.drawdown_adjustments d) <= 1.
Proof.
  destruct (risk_props.regime_total d) as [L E|L U Es Ez T|L E].
  - rewrite E. cbn. intros _. repeat split; lra.
  - intros _. pose proof (risk_props.severity_range d L U) as [S0 S1].
    assert (Hz : Qmax 0.2 (1 - risk_props.severity d * 0.7) <= 1) by (apply Q.max_lub; lra).
    pose proof (Q.le_max_l 0.2 (1 - risk_props.severity d * 0.7)).
    repeat split; lra.
  - rewrite E. cbn. discriminate.
Qed.

(** X19.  In a pass of [run] the test [throttled or size_scale == 0.0] cancels
    exactly when the drawdown throttle is on: the product of the three size
    scales is never zero otherwise.  When the pass goes on to quote, the
    spread scale lies in [1, 2.5] and the size scale in [0.025, 3]; when it
    cancels, the scales are 2 and 0. *)
Theorem run_risk_scales_bounded (self : t) (symbol_configs : gmap string config.SymbolConfig)
    (mid_map : gmap string Q) :
  let scales := run_risk_scales self symbol_configs mid_map in
  let pnl' := fst scales in
  let spread_scale := fst (fst (snd scales)) in
  let size_scale := snd (fst (snd scales)) in
  let cancels := snd (snd scales) in
  pnl' = risk.update_unrealized_pnl (pnl self) (positions self) mid_map /\
  cancels = risk.throttled_of (risk.drawdown_adjustments (risk.compute_drawdown_pct pnl')) /\
  (cancels = true -> size_scale == 0 /\ spread_scale = 2) /\
  (cancels = false ->
   1 <= spread_scale <= 2.5 /\ 0.025 <= size_scale <= 3).
Proof.
  cbv zeta. unfold run_risk_scales. cbv zeta.
  set (pnl' := risk.update_unrealized_pnl (pnl self) (positions self) mid_map).
  set (d := risk.compute_drawdown_pct pnl').
  pose proof (unthrottled_scales d) as Hu.
  pose proof (exposure_size_scale_range
                (risk.compute_dollar_exposure (positions self) mid_map)) as [He0 He1].
  pose proof (resting_notional_scale_bounds symbol_configs mid_map) as [Hr0 Hr1].
  set (e := _exposure_size_scale _) in *.
  set (n := _resting_notional_scale _ _) in *.
  assert (Hnz : forall zs, 0.2 <= zs -> Qeq_bool (zs * e * n) 0 = false).
  { intros zs Hzs. apply not_true_iff_false. intros Hc. apply Qeq_bool_iff in Hc.
    assert (0 < zs * e) by nra. nra. }
  destruct (risk.drawdown_adjustments d) as [[ss zs] th] eqn:E.
  cbn [fst snd]. fold d. rewrite E. cbn [fst snd risk.throttled_of].
  split; [reflexivity|].
  unfold risk.spread_scale_of, risk.size_scale_of, risk.throttled_of in Hu. cbn [fst snd] in Hu.
  destruct th.
  - split; [reflexivity|]. split; [|discriminate]. intros _.
    destruct (risk_props.regime_total d) as [L E'|L U _ _ T|L E'].
    + rewrite E' in E. discriminate.
    + rewrite E in T. discriminate.
    + rewrite E' in E. injection E as <- <-. split; [ring | reflexivity].
  - destruct (Hu eq_refl) as (? & ? & ? & ?). rewrite (Hnz zs) by assumption.
    split; [reflexivity|]. split; [discriminate|]. intros _.
    split; [lra|]. assert (0 < zs * e) by nra. split; nra.
Qed.

End signal_props.

(* ===================================================================== *)
(** ** strategy.py: the quotes of one pass *)

Module quoting_props.
Import Strategy quote_engine ladder_props signal_props.









End quoting_props.

(* ===================================================================== *)
(** ** order_manager.py: the mirror, the limiter and cancel_all *)

Module manager_props.
Import Py OrderLadderManager order_manager_props.

(** Code that leaves the books of every symbol but [symbol] alone. *)
Definition touches_only {A} (symbol : string) (m : M t A) : Prop :=
  forall self self' r, m self = (self', r) ->
  forall other, other <> symbol -> active_orders self' !! other = active_orders self !! other.

Lemma touches_only_bind {A B} symbol (m : M t A) (k : A -> M t B) :
  touches_only symbol m -> (forall a, touches_only symbol (k a)) ->
  touches_only symbol (bind m k).
Proof.
  intros Hm Hk self self' r H other Ho. unfold bind in H.
  destruct (m self) as [s1 [a|e]] eqn:E.
  - rewrite (Hk a _ _ _ H other Ho). apply (Hm _ _ _ E other Ho).
  - injection H as <- <-. apply (Hm _ _ _ E other Ho).
Qed.

Lemma touches_only_for_each {A} symbol (body : A -> M t unit) l :
  (forall x, touches_only symbol (body x)) -> touches_only symbol (for_each body l).
Proof.
  intros Hb. induction l as [|x l IH]; cbn.
  - intros self self' r [= <- <-] other _. reflexivity.
  - apply touches_only_bind; [apply Hb | intros _; exact IH].
Qed.

Lemma touches_only_keeps {A} symbol (m : M t A) : keeps_orders m -> touches_only symbol m.
Proof. intros Hm self self' r H other _. rewrite (Hm _ _ _ H). reflexivity. Qed.

Lemma touches_only_side_book symbol side : touches_only symbol (side_book symbol side).
Proof.
  apply touches_only_keeps. intros self self' r H.
  apply side_book_inv in H as [-> _]. reflexivity.
Qed.

Lemma touches_only_store symbol side k info : touches_only symbol (store_level symbol side k info).
Proof.
  intros self self' r H other Ho. unfold store_level in H.
  destruct (active_orders self !! symbol); injection H as <- <-; [|reflexivity].
  cbn. apply lookup_insert_ne. congruence.
Qed.

Lemma touches_only_delete symbol side k : touches_only symbol (delete_level symbol side k).
Proof.
  intros self self' r H other Ho. unfold delete_level in H.
  destruct (active_orders self !! symbol) as [b|]; [|injection H as <- <-; reflexivity].
  destruct (od_get k (book side b)); injection H as <- <-; [|reflexivity].
  cbn. apply lookup_insert_ne. congruence.
Qed.

Lemma touches_only_clear symbol side : touches_only symbol (clear_side symbol side).
Proof.
  intros self self' r H other Ho. unfold clear_side in H.
  destruct (active_orders self !! symbol); injection H as <- <-; [|reflexivity].
  cbn. apply lookup_insert_ne. congruence.
Qed.

Lemma touches_only_sync_level symbol side level : touches_only symbol (sync_level symbol side level).
Proof.
  unfold sync_level. apply touches_only_bind; [apply touches_only_side_book|].
  intros d. destruct (od_get (OrderLevel.level_index level) d) as [existing|].
  - destruct (_needs_refresh existing level).
    + apply touches_only_bind; [apply touches_only_keeps, keeps_orders_replace|].
      intros. apply touches_only_store.
    + intros self self' r [= <- <-] other _. reflexivity.
  - apply touches_only_bind; [apply touches_only_keeps, keeps_orders_place|].
    intros. apply touches_only_store.
Qed.

Lemma touches_only_prune_entry symbol side indexes entry :
  touches_only symbol (prune_entry symbol side indexes entry).
Proof.
  destruct entry as [k info]. unfold prune_entry. destruct (decide (k ∈ indexes)).
  - intros self self' r [= <- <-] other _. reflexivity.
  - apply touches_only_bind; [apply touches_only_keeps, keeps_orders_cancel|].
    intros. apply touches_only_delete.
Qed.

Lemma touches_only_sync_symbol symbol bids asks :
  touches_only symbol (sync_symbol symbol bids asks).
Proof.
  assert (Hs : forall side levels, touches_only symbol (_sync_side symbol side levels))
    by (intros; apply touches_only_for_each; intros; apply touches_only_sync_level).
  assert (Hp : forall side indexes, touches_only symbol (_prune_levels symbol side indexes)).
  { intros. apply touches_only_bind; [apply touches_only_side_book|].
    intros. apply touches_only_for_each. intros. apply touches_only_prune_entry. }
  unfold sync_symbol. repeat (apply touches_only_bind; [auto | intros _]). auto.
Qed.

(** Every desired level has a live order of its size, at a price less than
    [MIN_MOVE_TO_REFRESH_BPS] away, and no order is live at another index. *)
Definition mirrors (d : odict OrderInfo.t) (levels : list OrderLevel.t) : Prop :=
  (forall level, In level levels ->
     exists e, od_get (OrderLevel.level_index level) d = Some e /\
               _needs_refresh e level = false) /\
  (forall k e, In (k, e) d -> In k (map OrderLevel.level_index levels)).

Lemma settled_pruned_mirrors o levels :
  settled o levels -> pruned o (level_indexes levels) ->
  exists d, o = Some d /\ mirrors d levels.
Proof.
  intros Hs (d & -> & Hp). exists d. split; [reflexivity|]. split.
  - intros level Hin. unfold settled in Hs. rewrite Forall_forall in Hs.
    destruct (Hs level) as (d0 & e & [= <-] & Hget & Hfine); [apply list_elem_of_In; exact Hin|].
    exists e. auto.
  - intros k e Hin. apply Hp in Hin. unfold level_indexes in Hin.
    apply elem_of_list_to_set, list_elem_of_In in Hin. exact Hin.
Qed.

(** X21.  For desired ladders with one level per index and positive prices: when
    [sync_symbol] returns, the mirror of the symbol holds, on each side, for
    every desired level an order that needs no refresh, and no order at any
    other index; the books of every other symbol are as they were. *)
Theorem sync_symbol_mirrors_ladders (symbol : string) (bids asks : list OrderLevel.t)
    (self self' : t) :
  well_formed_ladder bids -> well_formed_ladder asks ->
  sync_symbol symbol bids asks self = (self', Ok tt) ->
  (exists b, live self' symbol BID = Some b /\ mirrors b bids) /\
  (exists a, live self' symbol ASK = Some a /\ mirrors a asks) /\
  (forall other, other <> symbol ->
     active_orders self' !! other = active_orders self !! other).
Proof.
  intros Hb Ha H.
  pose proof (touches_only_sync_symbol symbol bids asks _ _ _ H) as Hframe.
  unfold sync_symbol in H.
  apply bind_ok in H as (s1 & [] & H1 & H).
  apply bind_ok in H as (s2 & [] & H2 & H).
  apply bind_ok in H as (s3 & [] & H3 & H4).
  destruct (sync_side_settles symbol BID bids Hb _ _ H1) as [Sb1 _].
  destruct (sync_side_settles symbol ASK asks Ha _ _ H2) as [Sa2 Eb2].
  cbn [opposite] in Eb2. rewrite <- Eb2 in Sb1.
  destruct (settled_through_prune _ _ _ bids _ _ eq_refl H3 Sb1) as [Sb3 Pb3].
  pose proof (prune_levels_ok _ _ _ _ _ H3) as (_ & _ & _ & _ & Ea3).
  cbn [opposite] in Ea3. rewrite <- Ea3 in Sa2.
  destruct (settled_through_prune _ _ _ asks _ _ eq_refl H4 Sa2) as [Sa4 Pa4].
  pose proof (prune_levels_ok _ _ _ _ _ H4) as (_ & _ & _ & _ & Eb4).
  cbn [opposite] in Eb4. rewrite <- Eb4 in Sb3, Pb3.
  split; [apply settled_pruned_mirrors; assumption|].
  split; [apply settled_pruned_mirrors; assumption | exact Hframe].
Qed.

(** X21 on the twelve levels around 100, placed by a fresh manager. *)
Lemma sync_symbol_mirrors_ladders_witness :
  exists b, live (fst (sync_symbol "ETF" (fst ladders_at_100) (snd ladders_at_100) fresh_manager))
                 "ETF" BID = Some b /\ mirrors b (fst ladders_at_100).
Proof.
  apply (sync_symbol_mirrors_ladders "ETF" (fst ladders_at_100) (snd ladders_at_100)
           fresh_manager).
  - apply ladders_at_100_well_formed.
  - apply ladders_at_100_well_formed.
  - vm_compute. reflexivity.
Defined.

(** X22.  [sync_symbol] for a symbol the manager has no books for raises
    [KeyError] whatever the ladders, empty ones included, and leaves the
    manager as it was: no slot is reserved and nothing is sent. *)
Theorem sync_symbol_unknown_symbol (symbol : string) (bids asks : list OrderLevel.t)
    (self : t) :
  active_orders self !! symbol = None ->
  sync_symbol symbol bids asks self = (self, Raise KeyError).
Proof.
  intros Hnone.
  assert (Hbook : forall side, side_book symbol side self = (self, Raise KeyError))
    by (intros side; unfold side_book; rewrite Hnone; reflexivity).
  assert (Hside : forall side levels,
            _sync_side symbol side levels self
            = (self, match levels with [] => Ok tt | _ => Raise KeyError end)).
  { intros side [|level rest]; [reflexivity|].
    cbn. unfold bind at 1. unfold sync_level. unfold bind at 1. rewrite Hbook. reflexivity. }
  unfold sync_symbol. unfold bind at 1. rewrite Hside.
  destruct bids; [|reflexivity].
  unfold bind at 1. rewrite Hside. destruct asks; [|reflexivity].
  unfold bind at 1. unfold _prune_levels at 1. unfold bind at 1. rewrite Hbook. reflexivity.
Qed.

(** X22 on a symbol outside the universe. *)
Lemma sync_symbol_unknown_symbol_witness :
  sync_symbol "GOLD" (fst ladders_at_100) [] fresh_manager = (fresh_manager, Raise KeyError).
Proof.
  apply (sync_symbol_unknown_symbol "GOLD" (fst ladders_at_100) [] fresh_manager).
  vm_compute. reflexivity.
Defined.

Lemma bps_distance_some a b :
  0 < a -> 0 < b ->
  order_manager._bps_distance a b = Some (Qabs (a - b) / ((a + b) / 2) * 10000).
Proof.
  intros Ha Hb. unfold order_manager._bps_distance.
  apply PyFacts.Qle_bool_false in Ha, Hb. rewrite Ha, Hb. reflexivity.
Qed.

Lemma bps_distance_none a b :
  a <= 0 \/ b <= 0 -> order_manager._bps_distance a b = None.
Proof.
  intros H. unfold order_manager._bps_distance.
  destruct H as [H|H]; apply Qle_bool_iff in H; rewrite H, ?orb_true_r; reflexivity.
Qed.

(** X23.  [_needs_refresh] leaves a live order alone exactly when its size is the
    desired one, both prices are positive, and 10000 times their distance is
    below their sum (less than 2 bps of their midpoint). *)
Theorem needs_refresh_iff (existing : OrderInfo.t) (desired : OrderLevel.t) :
  _needs_refresh existing desired = false <->
  OrderInfo.size existing = OrderLevel.size desired /\
  0 < OrderInfo.price existing /\ 0 < OrderLevel.price desired /\
  10000 * Qabs (OrderInfo.price existing - OrderLevel.price desired)
  < OrderInfo.price existing + OrderLevel.price desired.
Proof.
  unfold _needs_refresh.
  set (a := OrderInfo.price existing). set (b := OrderLevel.price desired).
  destruct (Z.eqb_spec (OrderInfo.size existing) (OrderLevel.size desired)) as [Es|Ns];
    cbn [negb]; [|split; [discriminate | intros [? _]; contradiction]].
  destruct (Qlt_le_dec 0 a) as [Ha|Ha], (Qlt_le_dec 0 b) as [Hb|Hb].
  2-4: rewrite bps_distance_none by auto; split; [discriminate | intros (_ & ? & ? & _); lra].
  rewrite (bps_distance_some a b Ha Hb). unfold config.MIN_MOVE_TO_REFRESH_BPS.
  assert (E : Qabs (a - b) / ((a + b) / 2) * 10000 * ((a + b) / 2) == 10000 * Qabs (a - b))
    by (field; lra).
  set (dist := Qabs (a - b) / ((a + b) / 2) * 10000) in *.
  assert (Em : (a + b) / 2 * 2 == a + b) by field.
  set (m := (a + b) / 2) in *. assert (Hm : 0 < m) by lra.
  set (x := Qabs (a - b)) in *.
  split.
  - intros H. apply PyFacts.Qle_bool_false in H. repeat split; try assumption.
    assert (dist * m < 2 * m) by (apply Qmult_lt_compat_r; assumption). lra.
  - intros (_ & _ & _ & H). apply PyFacts.Qle_bool_false.
    destruct (Qlt_le_dec dist 2) as [?|Hge]; [assumption|]. exfalso.
    assert (2 * m <= dist * m) by (apply Qmult_le_compat_r; lra). lra.
Qed.

(** After the sleep the window has run out, so the next pass takes the
    slot. *)
Lemma attempt_after_sleep now self l delay :
  Limiter.attempt now self = (l, Some delay) ->
  Limiter.attempt (now + delay) l
  = ({| Limiter._window_start := now + delay; Limiter._actions_this_window := 1 |}, None)
  /\ l = self /\ Qle_bool 1 (now - Limiter._window_start self) = false
  /\ (Limiter._actions_this_window self <? config.MAX_ACTIONS_PER_SECOND)%Z = false
  /\ delay == 1 - (now - Limiter._window_start self).
Proof.
  unfold Limiter.attempt. cbv zeta.
  destruct (Qle_bool 1 (now - Limiter._window_start self)) eqn:Ew; [cbn; discriminate|].
  destruct (Limiter._actions_this_window self <? config.MAX_ACTIONS_PER_SECOND)%Z eqn:Ec;
    [discriminate|].
  intros [= <- <-]. apply PyFacts.Qle_bool_false in Ew.
  assert (Hd : Qmax 0 (1 - (now - Limiter._window_start self))
               == 1 - (now - Limiter._window_start self)) by (apply Q.max_r; lra).
  assert (Hw : Qle_bool 1 (now + Qmax 0 (1 - (now - Limiter._window_start self))
                          - Limiter._window_start self) = true).
  { apply Qle_bool_iff. rewrite Hd. lra. }
  rewrite Hw. cbn. repeat split. exact Hd.
Qed.

(** Passes beyond the second are never made. *)
Lemma reserve_loop_two extra self :
  reserve_loop (S (S extra)) self = reserve_loop 2 self /\
  exists self', reserve_loop 2 self = (self', Ok tt).
Proof.
  cbn [reserve_loop].
  destruct (Limiter.attempt (monotonic self) (limiter self)) as [l [delay|]] eqn:E;
    [|eauto].
  apply attempt_after_sleep in E as [E _].
  cbn [monotonic limiter with_limiter]. rewrite E. eauto.
Qed.

(** X24.  Whenever [_reserve_action_slot] returns, after however many passes, it
    has touched neither the client nor the mirror, the clock has not gone
    back and the counter is at most [MAX_ACTIONS_PER_SECOND].  If a second or
    more had passed since the window's start, the slot was taken at once in a
    new window opened at the present reading, with count 1; else if a slot was
    free it was taken at once; otherwise the call returned later, in a new
    window opened at the reading it returned at, no sooner than one second
    after the old window's start, with count 1. *)
Theorem reserve_action_slot_outcome (passes : nat) (self self' : t) :
  reserve_loop passes self = (self', Ok tt) ->
  let now := monotonic self in
  let window_start := Limiter._window_start (limiter self) in
  let actions := Limiter._actions_this_window (limiter self) in
  client self' = client self /\
  active_orders self' = active_orders self /\
  now <= monotonic self' /\
  (Limiter._actions_this_window (limiter self') <= config.MAX_ACTIONS_PER_SECOND)%Z /\
  if Qle_bool 1 (now - window_start) then
    monotonic self' = now /\
    limiter self' = {| Limiter._window_start := now; Limiter._actions_this_window := 1 |}
  else if (actions <? config.MAX_ACTIONS_PER_SECOND)%Z then
    monotonic self' = now /\
    limiter self' = {| Limiter._window_start := window_start;
                       Limiter._actions_this_window := (actions + 1)%Z |}
  else
    now < monotonic self' /\ window_start + 1 <= monotonic self' /\
    limiter self' = {| Limiter._window_start := monotonic self';
                       Limiter._actions_this_window := 1 |}.
Proof.
  intros Hret. cbv zeta.
  split; [apply (reserve_loop_client _ _ _ _ Hret)|].
  split; [apply (keeps_orders_reserve _ _ _ _ Hret)|].
  destruct passes as [|passes]; cbn [reserve_loop] in Hret; [discriminate|].
  destruct (Limiter.attempt (monotonic self) (limiter self)) as [l [delay|]] eqn:E.
  - apply attempt_after_sleep in E as (E & -> & Ew & Ec & Hd). rewrite Ew, Ec.
    destruct passes as [|passes]; cbn [reserve_loop] in Hret; [discriminate|].
    cbn [monotonic limiter with_limiter] in Hret. rewrite E in Hret.
    injection Hret as <-. cbn [monotonic limiter with_limiter Limiter._actions_this_window].
    apply PyFacts.Qle_bool_false in Ew.
    split; [lra|]. split; [unfold config.MAX_ACTIONS_PER_SECOND; lia|].
    split; [lra|]. split; [lra | reflexivity].
  - revert E. unfold Limiter.attempt. cbv zeta.
    destruct (Qle_bool 1 (monotonic self - Limiter._window_start (limiter self))).
    + cbn. intros [= <-]. injection Hret as <-. cbn.
      split; [lra|]. split; [unfold config.MAX_ACTIONS_PER_SECOND; lia|]. split; reflexivity.
    + destruct (Limiter._actions_this_window (limiter self) <? config.MAX_ACTIONS_PER_SECOND)%Z
        eqn:Ec; [|discriminate].
      intros [= <-]. injection Hret as <-. cbn. apply Z.ltb_lt in Ec.
      split; [lra|]. split; [lia|]. split; reflexivity.
Qed.

(** A manager whose window, opened at 0, is full at clock reading 0.4. *)
Definition full_manager : t :=
  with_limiter {| Limiter._window_start := 0; Limiter._actions_this_window := 95 |} 0.4
               fresh_manager.

(** X24 on a full window, 0.4 s after its start. *)
Lemma reserve_action_slot_outcome_witness :
  client (fst (_reserve_action_slot full_manager)) = client full_manager /\
  active_orders (fst (_reserve_action_slot full_manager)) = active_orders full_manager /\
  0.4 <= monotonic (fst (_reserve_action_slot full_manager)) /\
  (Limiter._actions_this_window (limiter (fst (_reserve_action_slot full_manager)))
   <= config.MAX_ACTIONS_PER_SECOND)%Z /\
  0.4 < monotonic (fst (_reserve_action_slot full_manager)) /\
  0 + 1 <= monotonic (fst (_reserve_action_slot full_manager)) /\
  limiter (fst (_reserve_action_slot full_manager))
  = {| Limiter._window_start := monotonic (fst (_reserve_action_slot full_manager));
       Limiter._actions_this_window := 1 |}.
Proof.
  apply (reserve_action_slot_outcome 2 full_manager (fst (_reserve_action_slot full_manager))).
  vm_compute. reflexivity.
Defined.

(** The number of requests the gateway has been sent. *)
Definition sent_count (self : t) : nat := length (ExchangeClient.sent (client self)).

Definition empty_books : Books := {| bid_book := []; ask_book := [] |}.

(** The number of orders the mirror holds for one symbol, and in all. *)
Definition resting (b : Books) : nat := (length (bid_book b) + length (ask_book b))%nat.

Definition resting_orders (self : t) : nat :=
  sum_list_with (fun entry => resting (snd entry)) (map_to_list (active_orders self)).

Lemma gateway_call_sent request c c' r :
  ExchangeClient.gateway_call request c = (c', r) ->
  ExchangeClient.sent c' = ExchangeClient.sent c ++ [request] /\
  (forall e, r = Raise e -> e = GatewayError).
Proof.
  unfold ExchangeClient.gateway_call.
  destruct (ExchangeClient.replies c) as [|[order_id|] rest]; intros [= <- <-];
    (split; [reflexivity | intros e [=]; congruence]).
Qed.

Lemma cancel_order_sent order_id c c' r :
  ExchangeClient.cancel_order order_id c = (c', r) ->
  length (ExchangeClient.sent c') = S (length (ExchangeClient.sent c)) /\
  (forall e, r = Raise e -> e = GatewayError).
Proof.
  unfold ExchangeClient.cancel_order. cbv zeta. unfold bind.
  match goal with
  | |- context [ExchangeClient.gateway_call ?q c] =>
      destruct (ExchangeClient.gateway_call q c) as [c1 [a|e1]] eqn:E;
      apply gateway_call_sent in E as [E He]
  end.
  - intros [= <- <-]. cbn. rewrite E, length_app. cbn. split; [lia | discriminate].
  - intros [= <- <-]. rewrite E, length_app. cbn. split; [lia|].
    intros e [= <-]. apply He. reflexivity.
Qed.

Lemma throttled_cancel_sent info self self' r :
  _throttled_cancel info self = (self', r) ->
  active_orders self' = active_orders self /\
  sent_count self' = S (sent_count self) /\
  (forall e, r = Raise e -> e = GatewayError).
Proof.
  intros H. split; [apply (keeps_orders_cancel _ _ _ _ H)|].
  unfold _throttled_cancel, bind in H.
  destruct (reserve_loop_two 0 self) as [_ [s1 Hres]].
  unfold _reserve_action_slot in H. rewrite Hres in H.
  apply reserve_loop_client in Hres. unfold on_client in H.
  destruct (ExchangeClient.cancel_order (OrderInfo.order_id info) (client s1)) as [c r'] eqn:E.
  injection H as <- <-. apply cancel_order_sent in E as [E He].
  unfold sent_count. cbn. rewrite E, Hres. auto.
Qed.

Lemma cancel_loop_sent d :
  forall self self' r,
    for_each (fun entry : Z * OrderInfo.t => _throttled_cancel (snd entry)) d self = (self', r) ->
    active_orders self' = active_orders self /\
    (r = Ok tt -> sent_count self' = (sent_count self + length d)%nat) /\
    (forall e, r = Raise e -> e = GatewayError).
Proof.
  induction d as [|entry d IH]; intros self self' r H; cbn in H.
  - injection H as <- <-. split; [reflexivity|]. split; [cbn; lia | discriminate].
  - unfold bind in H.
    destruct (_throttled_cancel (snd entry) self) as [s1 [[]|e1]] eqn:E;
      apply throttled_cancel_sent in E as (Ea & Ec & He).
    + destruct (IH _ _ _ H) as (Ea' & Ec' & He').
      split; [congruence|]. split; [|exact He'].
      intros Hr. rewrite (Ec' Hr), Ec. cbn. lia.
    + injection H as <- <-. split; [exact Ea|]. split; [discriminate|].
      intros e [= <-]. apply He. reflexivity.
Qed.

Lemma cancel_side_inv symbol side self self' r :
  cancel_side symbol side self = (self', r) ->
  match active_orders self !! symbol with
  | None => self' = self /\ r = Raise KeyError
  | Some b =>
      match r with
      | Ok _ =>
          active_orders self' = <[symbol := with_book side [] b]> (active_orders self) /\
          sent_count self' = (sent_count self + length (book side b))%nat
      | Raise e => e = GatewayError /\ active_orders self' = active_orders self
      end
  end.
Proof.
  unfold cancel_side, bind, side_book, clear_side.
  destruct (active_orders self !! symbol) as [b|] eqn:Hb; [|intros [= <- <-]; auto].
  destruct (for_each _ (book side b) self) as [s1 [[]|e1]] eqn:E;
    apply cancel_loop_sent in E as (Ea & Ec & He).
  - rewrite Ea, Hb. intros [= <- <-]. cbn. split; [reflexivity|].
    apply Ec. reflexivity.
  - intros [= <- <-]. split; [apply He; reflexivity | exact Ea].
Qed.

(** The body of [for symbol in list(self.active_orders)]. *)
Lemma cancel_symbol_inv symbol self self' r b :
  active_orders self !! symbol = Some b ->
  bind (cancel_side symbol BID) (fun _ => cancel_side symbol ASK) self = (self', r) ->
  match r with
  | Ok _ =>
      active_orders self' = <[symbol := empty_books]> (active_orders self) /\
      sent_count self' = (sent_count self + resting b)%nat
  | Raise e =>
      e = GatewayError /\ dom (active_orders self') = dom (active_orders self)
  end.
Proof.
  intros Hb. unfold bind.
  destruct (cancel_side symbol BID self) as [s1 [[]|e1]] eqn:E1;
    apply cancel_side_inv in E1; rewrite Hb in E1.
  - destruct E1 as [Ea1 Ec1]. intros E2. apply cancel_side_inv in E2.
    rewrite Ea1, lookup_insert_eq in E2. destruct r as [[]|e].
    + destruct E2 as [Ea2 Ec2]. rewrite Ea2, insert_insert_eq, Ec2, Ec1.
      split; [reflexivity|]. unfold resting. cbn. lia.
    + destruct E2 as [-> Ea2]. split; [reflexivity|]. rewrite Ea2.
      apply dom_insert_lookup_L. rewrite Hb. eauto.
  - intros [= <- <-]. destruct E1 as [-> Ea]. rewrite Ea. auto.
Qed.

Lemma cancel_all_over_inv symbols :
  NoDup symbols ->
  forall self self' r,
    (forall symbol, symbol ∈ symbols -> is_Some (active_orders self !! symbol)) ->
    cancel_all_over symbols self = (self', r) ->
    match r with
    | Ok _ =>
        (forall symbol, symbol ∈ symbols -> active_orders self' !! symbol = Some empty_books) /\
        (forall symbol, symbol ∉ symbols ->
                        active_orders self' !! symbol = active_orders self !! symbol) /\
        sent_count self' =
          (sent_count self
           + sum_list_with (fun symbol => from_option resting 0%nat (active_orders self !! symbol))
               symbols)%nat
    | Raise e => e = GatewayError
    end.
Proof.
  induction 1 as [|symbol rest Hfresh Hnd IH]; intros self self' r Hknown H.
  - injection H as <- <-. split; [intros s Hs; inversion Hs|]. split; [reflexivity|]. cbn. lia.
  - unfold cancel_all_over in H. cbn [for_each] in H. unfold bind at 1 in H.
    destruct (Hknown symbol) as [b Hb]; [left|].
    destruct (bind (cancel_side symbol BID) (fun _ => cancel_side symbol ASK) self)
      as [s1 [[]|e1]] eqn:E; apply (cancel_symbol_inv _ _ _ _ _ Hb) in E.
    + destruct E as [Ea Ec].
      assert (Hknown1 : forall s, s ∈ rest -> is_Some (active_orders s1 !! s)).
      { intros s Hs. rewrite Ea. destruct (decide (s = symbol)) as [->|Hne].
        - rewrite lookup_insert_eq. eauto.
        - rewrite lookup_insert_ne by congruence. apply Hknown. right. exact Hs. }
      specialize (IH s1 self' r Hknown1 H). destruct r as [[]|e]; [|exact IH].
      destruct IH as (Hin & Hout & Hcount). split; [|split].
      * intros s Hs. apply elem_of_cons in Hs as [->|Hs]; [|apply Hin; exact Hs].
        rewrite (Hout _ Hfresh), Ea. apply lookup_insert_eq.
      * intros s Hs. apply not_elem_of_cons in Hs as [Hne Hs].
        rewrite (Hout _ Hs), Ea. apply lookup_insert_ne. congruence.
      * rewrite Hcount, Ec. cbn [sum_list_with]. rewrite Hb. cbn [from_option].
        assert (Esum : forall l, symbol ∉ l ->
                  sum_list_with (fun s => from_option resting 0%nat (active_orders s1 !! s)) l
                  = sum_list_with (fun s => from_option resting 0%nat (active_orders self !! s)) l).
        { induction l as [|s l IHl]; intros Hl; [reflexivity|].
          apply not_elem_of_cons in Hl as [Hne Hl]. cbn. rewrite (IHl Hl), Ea.
          rewrite lookup_insert_ne by congruence. reflexivity. }
        rewrite (Esum rest Hfresh). lia.
    + injection H as <- <-. apply E.
Qed.

(** X25.  When [cancel_all] returns, every book of every symbol is empty and the
    gateway was sent exactly one request per order the mirror held.  The only
    exception it can raise is the gateway's. *)
Theorem cancel_all_empties_mirror (self self' : t) (r : result unit) :
  cancel_all self = (self', r) ->
  match r with
  | Ok _ =>
      active_orders self' = (fun _ => empty_books) <$> active_orders self /\
      sent_count self' = (sent_count self + resting_orders self)%nat
  | Raise e => e = GatewayError
  end.
Proof.
  unfold cancel_all. intros H.
  apply cancel_all_over_inv in H.
  - destruct r as [[]|e]; [|exact H]. destruct H as (Hin & Hout & Hcount). split.
    + apply map_eq. intros symbol. rewrite lookup_fmap.
      destruct (active_orders self !! symbol) as [b|] eqn:Hb; cbn.
      * apply Hin. apply list_elem_of_fmap. exists (symbol, b).
        split; [reflexivity | apply elem_of_map_to_list; exact Hb].
      * rewrite <- Hb. apply Hout. intros Hs. apply list_elem_of_fmap in Hs as ([s b] & -> & Hs).
        apply elem_of_map_to_list in Hs. cbn in Hb. congruence.
    + rewrite Hcount. f_equal. unfold resting_orders.
      assert (Esum : forall l : list (string * Books),
                (forall entry, entry ∈ l -> active_orders self !! fst entry = Some (snd entry)) ->
                sum_list_with (fun s => from_option resting 0%nat (active_orders self !! s))
                  (map fst l)
                = sum_list_with (fun entry => resting (snd entry)) l).
      { induction l as [|entry l IHl]; intros Hall; [reflexivity|].
        cbn. rewrite (Hall entry) by left. cbn. rewrite IHl; [reflexivity|].
        intros e He. apply Hall. right. exact He. }
      apply Esum. intros [s b] Hs. apply elem_of_map_to_list. exact Hs.
  - apply NoDup_fst_map_to_list.
  - intros symbol Hs. apply list_elem_of_fmap in Hs as ([s b] & -> & Hs).
    apply elem_of_map_to_list in Hs. cbn. rewrite Hs. eauto.
Qed.

(** A manager whose mirror holds the twelve levels around 100, on a gateway
    that will accept twelve more requests. *)
Definition quoting_manager : t :=
  fst (sync_symbol "ETF" (fst ladders_at_100) (snd ladders_at_100)
         (init (ExchangeClient.init
                  (map (fun n => ExchangeClient.Accepted (Z.of_nat n)) (seq 1 24)))
               config.DEFAULT_SYMBOL_CONFIG 0)).

(** X25 on a manager holding the twelve levels around 100. *)
Lemma cancel_all_empties_mirror_witness :
  resting_orders quoting_manager = 12%nat /\
  active_orders (fst (cancel_all quoting_manager))
  = (fun _ => empty_books) <$> active_orders quoting_manager /\
  sent_count (fst (cancel_all quoting_manager))
  = (sent_count quoting_manager + resting_orders quoting_manager)%nat.
Proof.
  split; [vm_compute; reflexivity|].
  apply (cancel_all_empties_mirror quoting_manager (fst (cancel_all quoting_manager)) (Ok tt)).
  vm_compute. reflexivity.
Defined.

End manager_props.

(* ===================================================================== *)
(** ** exchange.py: order entry and fills *)

Module exchange_props.
Import Py ExchangeClient order_manager_props accounting_props.




(** [price_ticks / config.ORDER_PRICE_SCALE], as [_on_gateway_fill] decodes
    a price. *)
Definition ticks_to_price (price_ticks : Z) : Q :=
  inject_Z price_ticks / inject_Z config.ORDER_PRICE_SCALE.



Lemma swap_lookup (m : gmap string Z) :
  (forall s1 s2 i, m !! s1 = Some i -> m !! s2 = Some i -> s1 = s2) ->
  forall i s,
    (list_to_map (map (fun kv => (snd kv, fst kv)) (map_to_list m)) : gmap Z string) !! i = Some s
    <-> m !! s = Some i.
Proof.
  intros Hinj i s. split.
  - intros H. apply elem_of_list_to_map_2, list_elem_of_In, in_map_iff in H.
    destruct H as ([s0 i0] & [= <- <-] & H). apply elem_of_map_to_list, list_elem_of_In. exact H.
  - intros H. apply elem_of_list_to_map_1'.
    + intros s' Hs'. apply list_elem_of_In, in_map_iff in Hs'.
      destruct Hs' as ([s0 i0] & [= <- <-] & H0).
      apply list_elem_of_In, elem_of_map_to_list in H0. apply (Hinj _ _ _ H H0).
    + apply list_elem_of_In, in_map_iff. exists (s, i). split; [reflexivity|].
      apply list_elem_of_In, elem_of_map_to_list. exact H.
Qed.

Lemma symbol_ids_cases s i :
  config.SYMBOL_IDS !! s = Some i ->
  (s = "XYZ"%string /\ i = 1%Z) \/ (s = "ETF"%string /\ i = 2%Z) \/
  (s = "ABC"%string /\ i = 3%Z) \/ (s = "DEF"%string /\ i = 4%Z).
Proof.
  unfold config.SYMBOL_IDS. intros H.
  repeat (apply lookup_insert_Some in H as [[<- <-]|[_ H]]; [tauto|]).
  rewrite lookup_empty in H. discriminate.
Qed.

Lemma id_to_symbol_inverse i s :
  config.ID_TO_SYMBOL !! i = Some s <-> config.SYMBOL_IDS !! s = Some i.
Proof.
  apply swap_lookup. intros s1 s2 j H1 H2.
  apply symbol_ids_cases in H1, H2. intuition congruence.
Qed.

(** The side code [place_order] sends. *)
Definition side_code (side : Side) : Z := match side with BID => 0%Z | ASK => 1%Z end.

(** The request [place_order] sends for [level] under [client_id]. *)
Definition new_order_request (client_id symbol_id : Z) (level : OrderLevel.t) : Request :=
  NewOrder client_id symbol_id (side_code (OrderLevel.side level))
           (_price_to_ticks (OrderLevel.price level)) (OrderLevel.size level).

Lemma place_order_inv level c c' r :
  place_order level c = (c', r) ->
  _client_ids c' = (_client_ids c + 1)%Z /\
  match config.SYMBOL_IDS !! OrderLevel.symbol level with
  | None =>
      r = Raise KeyError /\ sent c' = sent c /\ replies c' = replies c /\
      _order_client_map c' = _order_client_map c /\
      _order_symbol_map c' = _order_symbol_map c
  | Some symbol_id =>
      sent c' = sent c ++ [new_order_request (_client_ids c) symbol_id level] /\
      match r with
      | Ok info =>
          replies c = Accepted (OrderInfo.order_id info) :: replies c' /\
          OrderInfo.level info = level /\
          _order_client_map c'
          = <[OrderInfo.order_id info := _client_ids c]> (_order_client_map c) /\
          _order_symbol_map c'
          = <[OrderInfo.order_id info := symbol_id]> (_order_symbol_map c)
      | Raise e =>
          e = GatewayError /\ replies c' = tail (replies c) /\
          head (replies c) <> None /\ (forall order_id, head (replies c) <> Some (Accepted order_id)) \/
          e = GatewayError /\ replies c = [] /\ replies c' = []
      end /\
      (returned r \/
       _order_client_map c' = _order_client_map c /\
       _order_symbol_map c' = _order_symbol_map c)
  end.
Proof.
  unfold place_order, bind, next_client_id.
  destruct (config.SYMBOL_IDS !! OrderLevel.symbol level) as [symbol_id|].
  - unfold gateway_call. cbn.
    destruct (replies c) as [|[order_id|] rest] eqn:Hr; intros [= <- <-]; cbn.
    + split; [reflexivity|]. split; [reflexivity|]. split; [|right; auto]. right. auto.
    + split; [reflexivity|]. split; [reflexivity|]. split; [|left; exact I]. auto.
    + split; [reflexivity|]. split; [reflexivity|]. split; [|right; auto].
      left. repeat split; try discriminate.
  - intros [= <- <-]. cbn. auto 10.
Qed.

(** X27.  When [place_order] returns, the level's symbol has an id, the order
    carries the level and the id the gateway answered with, one client id was
    used and one new-order request was sent under it; a [cancel_order] of
    that order then sends a cancel with the same client id and symbol id,
    and, if it returns, the order is forgotten by both maps. *)
Theorem place_then_cancel (level : OrderLevel.t) (c c' : ExchangeClient.t)
    (info : OrderInfo.t) :
  place_order level c = (c', Ok info) ->
  exists symbol_id,
    config.SYMBOL_IDS !! OrderLevel.symbol level = Some symbol_id /\
    OrderInfo.level info = level /\
    replies c = Accepted (OrderInfo.order_id info) :: replies c' /\
    _client_ids c' = (_client_ids c + 1)%Z /\
    sent c' = sent c ++ [new_order_request (_client_ids c) symbol_id level] /\
    forall c'' r,
      cancel_order (OrderInfo.order_id info) c' = (c'', r) ->
      sent c'' = sent c' ++ [CancelOrder (_client_ids c) (OrderInfo.order_id info) symbol_id] /\
      (returned r ->
       _order_client_map c'' !! OrderInfo.order_id info = None /\
       _order_symbol_map c'' !! OrderInfo.order_id info = None).
Proof.
  intros H. apply place_order_inv in H as [Hid H].
  destruct (config.SYMBOL_IDS !! OrderLevel.symbol level) as [symbol_id|];
    [|destruct H as [[=] _]].
  destruct H as (Hsent & (Hrep & Hlev & Hcm & Hsm) & _).
  exists symbol_id. do 5 (split; [assumption || reflexivity|]).
  intros c'' r. unfold cancel_order. cbv zeta.
  rewrite Hcm, Hsm, !lookup_insert_eq. cbn [default]. unfold bind, gateway_call.
  destruct (replies c') as [|[order_id|] rest]; intros [= <- <-]; cbn.
  1, 3: split; [reflexivity | intros []].
  split; [reflexivity|]. intros _. split; apply lookup_delete_eq.
Qed.

(** X27 on a bid of 400 at 100 accepted as order 7. *)
Lemma place_then_cancel_witness :
  exists symbol_id,
    config.SYMBOL_IDS !! "ETF"%string = Some symbol_id /\
    OrderInfo.level {| OrderInfo.level := bid 0 100 400; OrderInfo.order_id := 7 |}
    = bid 0 100 400 /\
    replies (init [Accepted 7; Accepted 0])
    = Accepted 7 :: replies (fst (place_order (bid 0 100 400) (init [Accepted 7; Accepted 0]))) /\
    _client_ids (fst (place_order (bid 0 100 400) (init [Accepted 7; Accepted 0]))) = (1 + 1)%Z /\
    sent (fst (place_order (bid 0 100 400) (init [Accepted 7; Accepted 0])))
    = [] ++ [new_order_request 1 symbol_id (bid 0 100 400)] /\
    forall c'' r,
      cancel_order 7 (fst (place_order (bid 0 100 400) (init [Accepted 7; Accepted 0])))
      = (c'', r) ->
      sent c''
      = sent (fst (place_order (bid 0 100 400) (init [Accepted 7; Accepted 0])))
        ++ [CancelOrder 1 7 symbol_id] /\
      (returned r ->
       _order_client_map c'' !! 7%Z = None /\ _order_symbol_map c'' !! 7%Z = None).
Proof.
  apply (place_then_cancel (bid 0 100 400) (init [Accepted 7; Accepted 0])
           (fst (place_order (bid 0 100 400) (init [Accepted 7; Accepted 0])))
           {| OrderInfo.level := bid 0 100 400; OrderInfo.order_id := 7 |}).
  vm_compute. reflexivity.
Defined.

(** X28.  When [place_order] raises, a client id is used up all the same and the
    order maps are untouched.  For a symbol without id the exception is
    [KeyError] and nothing was sent; otherwise it is the gateway's, the
    request was sent, and the answer consumed was not an acceptance. *)
Theorem place_order_failure_uses_client_id (level : OrderLevel.t) (c c' : ExchangeClient.t)
    (e : exn) :
  place_order level c = (c', Raise e) ->
  _client_ids c' = (_client_ids c + 1)%Z /\
  _order_client_map c' = _order_client_map c /\
  _order_symbol_map c' = _order_symbol_map c /\
  match config.SYMBOL_IDS !! OrderLevel.symbol level with
  | None => e = KeyError /\ sent c' = sent c /\ replies c' = replies c
  | Some symbol_id =>
      e = GatewayError /\
      sent c' = sent c ++ [new_order_request (_client_ids c) symbol_id level] /\
      replies c' = tail (replies c) /\
      forall order_id, head (replies c) <> Some (Accepted order_id)
  end.
Proof.
  intros H. apply place_order_inv in H as [Hid H]. split; [exact Hid|].
  destruct (config.SYMBOL_IDS !! OrderLevel.symbol level) as [symbol_id|].
  - destruct H as (Hsent & Hr & [[]|[Hcm Hsm]]). do 2 (split; [assumption|]).
    destruct Hr as [(-> & Ht & _ & Hh)|(-> & Hn & Hn')]; [auto|].
    rewrite Hn, Hn'. repeat split; try assumption. discriminate.
  - destruct H as ([= <-] & ? & ? & ? & ?). auto 10.
Qed.

(** X28 on a rejected bid. *)
Lemma place_order_failure_uses_client_id_witness :
  _client_ids (fst (place_order (bid 0 100 400) (init [Rejected]))) = (1 + 1)%Z /\
  _order_client_map (fst (place_order (bid 0 100 400) (init [Rejected]))) = ∅ /\
  _order_symbol_map (fst (place_order (bid 0 100 400) (init [Rejected]))) = ∅ /\
  match config.SYMBOL_IDS !! "ETF"%string with
  | None =>
      GatewayError = KeyError /\
      sent (fst (place_order (bid 0 100 400) (init [Rejected]))) = [] /\
      replies (fst (place_order (bid 0 100 400) (init [Rejected]))) = [Rejected]
  | Some symbol_id =>
      GatewayError = GatewayError /\
      sent (fst (place_order (bid 0 100 400) (init [Rejected])))
      = [] ++ [new_order_request 1 symbol_id (bid 0 100 400)] /\
      replies (fst (place_order (bid 0 100 400) (init [Rejected]))) = tail [Rejected] /\
      forall order_id, head [Rejected] <> Some (Accepted order_id)
  end.
Proof.
  apply (place_order_failure_uses_client_id (bid 0 100 400) (init [Rejected])
           (fst (place_order (bid 0 100 400) (init [Rejected]))) GatewayError).
  vm_compute. reflexivity.
Defined.

(** The calls [_on_gateway_fill] makes once the payload is decoded. *)
Definition dispatch {S : Type} (handlers : list (string -> Side -> Z -> Q -> S -> option S))
    (symbol : string) (side : Side) (quantity : Z) (price : Q) (state : S) : S :=
  fold_left (fun state handler => default state (handler symbol side quantity price state))
            handlers state.

Lemma on_gateway_fill_dispatch {S : Type} handlers payload (state : S) symbol :
  config.ID_TO_SYMBOL !! payload_symbol_id payload = Some symbol ->
  (0 < payload_quantity payload)%Z ->
  _on_gateway_fill handlers payload state
  = dispatch handlers symbol (if (payload_side payload =? 0)%Z then BID else ASK)
             (payload_quantity payload) (ticks_to_price (payload_price_ticks payload)) state.
Proof.
  intros Hs Hq. unfold _on_gateway_fill. rewrite Hs.
  destruct (Z.leb_spec (payload_quantity payload) 0) as [?|_]; [lia|]. cbv zeta.
  unfold dispatch, ticks_to_price. f_equal.
Qed.


(** [self.client.register_fill_handler(self.register_fill)] *)
Definition register_fill_handler (symbol : string) (side : Side) (size : Z) (price : Q)
    (self : Strategy.t) : option Strategy.t :=
  Strategy.register_fill self symbol side size price.



(** X30.  With [Strategy.register_fill] as the handler, [_on_gateway_fill] leaves
    the strategy as it was for an unknown symbol id, a symbol without
    position entry or a quantity that is not positive; otherwise it moves the
    position of the symbol the id stands for by the quantity, up for side
    code 0 and down for any other. *)
Theorem gateway_fill_moves_position (payload : FillPayload) (self : Strategy.t) :
  let self' := _on_gateway_fill [register_fill_handler] payload self in
  let quantity := payload_quantity payload in
  match config.ID_TO_SYMBOL !! payload_symbol_id payload with
  | None => self' = self
  | Some symbol =>
      config.SYMBOL_IDS !! symbol = Some (payload_symbol_id payload) /\
      match Strategy.positions self !! symbol with
      | None => self' = self
      | Some state =>
          if (quantity <=? 0)%Z then self' = self
          else
            exists state',
              Strategy.positions self' = <[symbol := state']> (Strategy.positions self) /\
              PositionState.position state'
              = (PositionState.position state
                 + (if (payload_side payload =? 0)%Z then quantity else - quantity))%Z
      end
  end.
Proof.
  cbv zeta.
  destruct (config.ID_TO_SYMBOL !! payload_symbol_id payload) as [symbol|] eqn:Hs;
    [|unfold _on_gateway_fill; rewrite Hs; reflexivity].
  split; [apply id_to_symbol_inverse; exact Hs|].
  destruct (Z.leb_spec (payload_quantity payload) 0) as [Hq|Hq].
  { unfold _on_gateway_fill. rewrite Hs.
    destruct (Z.leb_spec (payload_quantity payload) 0); [|lia].
    destruct (Strategy.positions self !! symbol); reflexivity. }
  rewrite (on_gateway_fill_dispatch _ payload self symbol Hs Hq).
  unfold dispatch. cbn [fold_left]. unfold register_fill_handler.
  destruct (Strategy.register_fill self symbol _ _ _) as [self'|] eqn:E.
  - apply register_fill_accounting in E as (state & state' & Hst & Hpos & Hq' & _).
    rewrite Hst. exists state'. split; [exact Hpos|]. rewrite Hq'.
    destruct (payload_side payload =? 0)%Z; reflexivity.
  - unfold Strategy.register_fill in E.
    destruct (Strategy.positions self !! symbol); [discriminate | reflexivity].
Qed.

End exchange_props.
